(** * CIS Benchmarks RAG: the Streamlit application and the pipeline it calls

    A shallow embedding of [src/app.py] (authentication gate, service
    initialisation, sidebar, one query per user turn) together with the
    parts of [rag_pipeline] and [log_time] the application relies on.

    Python [float] is IEEE binary64: it is modelled by the kernel's
    primitive [float].  Python [int] is [Z], [str] is [string] (its UTF-8
    bytes), a [dict] with string keys is a [gmap string _]. *)

From Stdlib Require Import ZArith List Bool Ascii String Floats Sorted Lia.
From stdpp Require Import gmap strings list fin_maps sorting relations.
Import ListNotations.

Local Open Scope Z_scope.
Local Open Scope string_scope.
Set Warnings "-inexact-float".

(** ** Error kinds: those of the pipeline, Python's own, and those of the
    libraries the application calls (boto3, openai), by class name *)

Inductive Error : Type :=
| EmbeddingError
| DimensionMismatchError
| RetrievalError
| TemplateError
| GenerationError
| KeyError (key : string)
| AttributeError (name : string)
| TypeError
| LibraryError (name : string).

(** A call either returns a value or raises. *)
Inductive Result (A : Type) : Type :=
| Returned (a : A)
| Raised (e : Error).
Arguments Returned {A} a.
Arguments Raised {A} e.

Definition EmbeddingVector := list float.

(** ** rag_pipeline.CosineSimilarity *)

Module CosineSimilarity.

(** Modelled from the spec: [rag_pipeline.CosineSimilarity] is not part of
    the sources at hand.  Spec 4.2: dot product divided by the product of
    the Euclidean norms, 0.0 when either norm is zero, and
    [DimensionMismatchError] for vectors of unequal length. *)
Definition dot (a b : EmbeddingVector) : float :=
  fold_left (fun acc p => PrimFloat.add acc (PrimFloat.mul (fst p) (snd p)))
            (combine a b) 0%float.

(** Modelled from the spec: the Euclidean norm of spec 4.2. *)
Definition norm (a : EmbeddingVector) : float := PrimFloat.sqrt (dot a a).

(** Modelled from the spec: the zero-norm test of the edge case in 4.2. *)
Definition zero_norm (a : EmbeddingVector) : bool :=
  PrimFloat.eqb (norm a) 0%float.

(** Modelled from the spec: [score(a, b)] of spec 4.2. *)
Definition score (a b : EmbeddingVector) : Result float :=
  if Nat.eqb (length a) (length b) then
    if zero_norm a || zero_norm b then Returned 0%float
    else Returned (PrimFloat.div (dot a b) (PrimFloat.mul (norm a) (norm b)))
  else Raised DimensionMismatchError.

End CosineSimilarity.

(** ** rag_pipeline: data model and RetrievalService *)

Record Chunk : Type := {
  chunk_id : string;
  chunk_text : string;
  chunk_embedding : EmbeddingVector
}.

(** A chunk with its cosine score against the query vector. *)
Record ScoredChunk : Type := {
  chunk : Chunk;
  cosine : float
}.

(** [RetrievalConfig(top_k=..., similarity_threshold=...)] *)
Record RetrievalConfig : Type := {
  top_k : Z;
  similarity_threshold : float
}.

(** The construction precondition: [top_k > 0] and the threshold in [0,1]. *)
Definition valid_config (cfg : RetrievalConfig) : bool :=
  Z.ltb 0 (top_k cfg)
  && PrimFloat.leb 0%float (similarity_threshold cfg)
  && PrimFloat.leb (similarity_threshold cfg) 1%float.

Module RetrievalService.

(** Modelled from the spec: [rag_pipeline.RetrievalService] is not part of
    the sources at hand.  Spec 6: the vector store client offers
    [nearest(vector, limit)] and [rerank(query, candidates, model)]; both
    are black boxes that answer or fail in transport ([None]).  The
    reranker hands back the candidates in its own order; it has no say in
    their cosine scores. *)
Record VectorStore : Type := {
  nearest : EmbeddingVector -> nat -> option (list Chunk);
  rerank : EmbeddingVector -> list Chunk -> string -> option (list Chunk)
}.

Record t : Type := {
  vector_store : VectorStore;
  reranker_model : option string;
  candidate_limit : nat
}.

(** Modelled from the spec: step 2 of spec 4.3, every candidate is scored
    again with the cosine scorer. *)
Fixpoint rescore (q : EmbeddingVector) (cands : list Chunk)
  : Result (list ScoredChunk) :=
  match cands with
  | [] => Returned []
  | c :: rest =>
      match CosineSimilarity.score q (chunk_embedding c) with
      | Raised e => Raised e
      | Returned s =>
          match rescore q rest with
          | Raised e => Raised e
          | Returned scored => Returned ({| chunk := c; cosine := s |} :: scored)
          end
      end
  end.

(** Modelled from the spec: the stable sort of spec 4.3, highest cosine
    first; an element moves behind those that score strictly higher and
    stays in front of its equals. *)
Fixpoint insert_desc (x : ScoredChunk) (l : list ScoredChunk) : list ScoredChunk :=
  match l with
  | [] => [x]
  | y :: rest =>
      if PrimFloat.ltb (cosine x) (cosine y) then y :: insert_desc x rest
      else x :: y :: rest
  end.

(** Modelled from the spec: the ranking by cosine score. *)
Definition sort_desc (l : list ScoredChunk) : list ScoredChunk :=
  fold_right insert_desc [] l.

(** Modelled from the spec: steps 1 to 3 of spec 4.3, the candidates of
    the store, scored, in cosine order, and in the reranker's order instead
    when a reranker is configured; each chunk then still carries its cosine
    score of step 2, which is the score the filter reads. *)
Definition ranked_candidates (svc : t) (q : EmbeddingVector)
  : Result (list ScoredChunk) :=
  match nearest (vector_store svc) q (candidate_limit svc) with
  | None => Raised RetrievalError
  | Some cands =>
      match rescore q cands with
      | Raised e => Raised e
      | Returned scored =>
          match reranker_model svc with
          | None => Returned (sort_desc scored)
          | Some model =>
              match rerank (vector_store svc) q (map chunk (sort_desc scored)) model with
              | None => Raised RetrievalError
              | Some reordered => rescore q reordered
              end
          end
      end
  end.

(** Modelled from the spec: the threshold test of step 4. *)
Definition clears (cfg : RetrievalConfig) (c : ScoredChunk) : bool :=
  PrimFloat.leb (similarity_threshold cfg) (cosine c).

(** Modelled from the spec: [retrieve(query_vector, config)], steps 4 and
    5 of spec 4.3 after the ranking: filter on the cosine score, keep the
    first [top_k]. *)
Definition retrieve (svc : t) (q : EmbeddingVector) (cfg : RetrievalConfig)
  : Result (list ScoredChunk) :=
  match ranked_candidates svc q with
  | Raised e => Raised e
  | Returned ranked =>
      Returned (firstn (Z.to_nat (top_k cfg)) (List.filter (clears cfg) ranked))
  end.

End RetrievalService.

(** ** hashlib.sha256 *)

Module Sha256.

Definition add32 (x y : Z) : Z := (x + y) mod 2 ^ 32.

Definition rotr (n x : Z) : Z :=
  Z.lor (Z.shiftr x n) (Z.shiftl x (32 - n) mod 2 ^ 32).

Definition Ch (x y z : Z) : Z := Z.lxor (Z.land x y) (Z.land (Z.lnot x) z).
Definition Maj (x y z : Z) : Z :=
  Z.lxor (Z.lxor (Z.land x y) (Z.land x z)) (Z.land y z).
Definition Sigma0 (x : Z) : Z := Z.lxor (Z.lxor (rotr 2 x) (rotr 13 x)) (rotr 22 x).
Definition Sigma1 (x : Z) : Z := Z.lxor (Z.lxor (rotr 6 x) (rotr 11 x)) (rotr 25 x).
Definition sigma0 (x : Z) : Z := Z.lxor (Z.lxor (rotr 7 x) (rotr 18 x)) (Z.shiftr x 3).
Definition sigma1 (x : Z) : Z := Z.lxor (Z.lxor (rotr 17 x) (rotr 19 x)) (Z.shiftr x 10).

(** The primes below [bound], by trial division. *)
Definition is_prime (p : Z) : bool :=
  (1 <? p)%Z && forallb (fun d => negb (p mod Z.of_nat d =? 0)%Z)
                        (seq 2 (Z.to_nat p - 2)).

Definition primes_below (bound : nat) : list Z :=
  List.filter is_prime (map Z.of_nat (seq 0 bound)).

(** The largest [m] below [2 ^ bits] with [m ^ 3 <= n]. *)
Fixpoint cube_root (bits : nat) (n m : Z) : Z :=
  match bits with
  | O => m
  | S b =>
      let m' := m + 2 ^ Z.of_nat b in
      cube_root b n (if (m' * m' * m' <=? n)%Z then m' else m)
  end.

(** The round constants: the first 32 bits of the fractional parts of the
    cube roots of the first 64 primes. *)
Definition K : list Z :=
  map (fun p => cube_root 36 (p * 2 ^ 96) 0 mod 2 ^ 32) (primes_below 312).

(** The initial hash value: the first 32 bits of the fractional parts of
    the square roots of the first 8 primes. *)
Definition H0 : list Z :=
  map (fun p => Z.sqrt (p * 2 ^ 64) mod 2 ^ 32) (primes_below 20).

(** The message followed by 0x80, zero bytes up to 56 modulo 64, and the
    bit length as a 64-bit big-endian integer. *)
Definition be_bytes (n : nat) (x : Z) : list Z :=
  map (fun i => Z.shiftr x (8 * Z.of_nat i) mod 256) (rev (seq 0 n)).

Definition pad (msg : list Z) : list Z :=
  let l := Z.of_nat (length msg) in
  msg ++ [0x80] ++ repeat 0 (Z.to_nat ((55 - l) mod 64)) ++ be_bytes 8 (8 * l).

Fixpoint to_words (bs : list Z) : list Z :=
  match bs with
  | a :: b :: c :: d :: rest =>
      Z.lor (Z.lor (Z.lor (Z.shiftl a 24) (Z.shiftl b 16)) (Z.shiftl c 8)) d
        :: to_words rest
  | _ => []
  end.

Fixpoint blocks (n : nat) (ws : list Z) : list (list Z) :=
  match n with
  | O => []
  | S n' => firstn 16 ws :: blocks n' (skipn 16 ws)
  end.

(** Message schedule, kept newest word first while it grows. *)
Fixpoint extend (n : nat) (w : list Z) : list Z :=
  match n with
  | O => w
  | S n' =>
      let x := add32 (add32 (add32 (sigma1 (nth 1 w 0)) (nth 6 w 0))
                            (sigma0 (nth 14 w 0))) (nth 15 w 0) in
      extend n' (x :: w)
  end.

Definition schedule (block : list Z) : list Z := rev (extend 48 (rev block)).

Definition round (st : list Z) (kw : Z * Z) : list Z :=
  match st with
  | [a; b; c; d; e; f; g; h] =>
      let t1 := add32 (add32 (add32 (add32 h (Sigma1 e)) (Ch e f g)) (fst kw)) (snd kw) in
      let t2 := add32 (Sigma0 a) (Maj a b c) in
      [add32 t1 t2; a; b; c; add32 d t1; e; f; g]
  | _ => st
  end.

Definition compress (h : list Z) (block : list Z) : list Z :=
  map (fun p => add32 (fst p) (snd p))
      (combine h (fold_left round (combine K (schedule block)) h)).

Definition digest (msg : list Z) : list Z :=
  let ws := to_words (pad msg) in
  fold_left compress (blocks (length ws / 16) ws) H0.

Definition hex_digit (n : Z) : ascii :=
  nth (Z.to_nat n) (list_ascii_of_string "0123456789abcdef") "0"%char.

Definition hex_word (x : Z) : list ascii :=
  map (fun i => hex_digit (Z.shiftr x (4 * Z.of_nat i) mod 16)) (rev (seq 0 8)).

(** [str.encode()]: a [string] already holds the UTF-8 bytes. *)
Definition encode (s : string) : list Z :=
  map (fun c => Z.of_N (N_of_ascii c)) (list_ascii_of_string s).

(** [sha256(data).hexdigest()] *)
Definition hexdigest (data : list Z) : string :=
  string_of_list_ascii (concat (map hex_word (digest data))).

End Sha256.

(** ** The store a Streamlit script runs against *)

Definition Addr := nat.

(** Objects the application constructs; a reference is the address of the
    object in the heap. *)
Inductive Object : Type :=
| BotoSession (region_name : string)
| BotoClient (session : Addr) (service_name : string)
| OpenAIEmbeddingService (api_key : option string) (model : string)
| OpenAIGenerationService (api_key : option string) (model : string)
| RetrievalServiceObj (vector_svc s3_client : Addr) (reranker_model : string)
| PromptAugmenter (template : string)
| RetrievalConfigObj (cfg : RetrievalConfig)
| ProcessorConfigObj (retrieval_cfg : Addr)
| QueryProcessor (embedding retrieval prompt_augmenter generation config : Addr)
| ProcessTimer (marks : list string).

(** One turn of the conversation: [{"user": ..., "bot": ...}]. *)
Record Exchange : Type := {
  user : string;
  bot : string
}.

(** The dictionary [initialize_services] returns; its seven keys are
    literals of the source. *)
Record Services : Type := {
  aws_session : Addr;
  s3_client : Addr;
  vector_client : Addr;
  embedding_service : Addr;
  generation_service : Addr;
  retrieval_service : Addr;
  augmenter : Addr
}.

(** Values kept in [st.session_state]. *)
Inductive Value : Type :=
| VStr (s : string)
| VBool (b : bool)
| VHistory (h : list Exchange)
| VServices (s : Services).

(** What the run lets an observer see, besides the page. *)
Inductive Event : Type :=
| EvCall (function : string)
| EvNew (a : Addr) (o : Object)
| EvMark (timer : Addr) (name : string)
| EvProcessQuery (processor : Addr) (question : string) (outcome : Result string)
| EvAppend (e : Exchange).

(** An element rendered on the page: its kind and its text. *)
Record Element : Type := {
  kind : string;
  body : string
}.

Record World : Type := {
  session_state : gmap string Value;
  heap : list Object;
  trace : list Event;
  screen : list Element
}.

Definition empty_world : World :=
  {| session_state := ∅; heap := []; trace := []; screen := [] |}.

(** What lies outside the program: the process environment, the
    configuration file behind [helpers.load_config], the remote models
    behind the pipeline, and the constructors of the libraries:
    [constructor_error o] is what the constructor call that would build [o]
    raises, if it raises (boto3 for an unknown region, the augmenter's
    [TemplateError] of spec 4.4 for a bad template, ...). *)
Record Environment : Type := {
  getenv : string -> option string;
  load_config : string -> string;
  pipeline : Addr -> Addr -> Addr -> Addr -> RetrievalConfig -> string -> Result string;
  constructor_error : Object -> option Error
}.

(** The widgets as the browser sends them for one run of the script.
    [credentials] stands for a submission of the login form that fires the
    [on_change] callback of the password field, with the values the
    callback then finds in the two fields. *)
Record Frontend : Type := {
  credentials : option (string * string);
  clicked : option string;
  chat_input : option string;
  top_k_slider : option Z;
  threshold_slider : option float
}.

(** ** The script monad: state, and the ways a run ends early *)

Inductive Control : Type :=
| StopScript
| RerunScript
| Exception (e : Error).

Inductive Outcome (A : Type) : Type :=
| Done (a : A)
| Halt (c : Control).
Arguments Done {A} a.
Arguments Halt {A} c.

Definition App (A : Type) : Type := World -> Outcome A * World.

Definition ret {A} (a : A) : App A := fun w => (Done a, w).

Definition bind {A B} (m : App A) (f : A -> App B) : App B :=
  fun w =>
    match m w with
    | (Done a, w') => f a w'
    | (Halt c, w') => (Halt c, w')
    end.

Declare Scope app_scope.
Delimit Scope app_scope with app.
Notation "x <- m ;; k" := (bind m (fun x => k))
  (at level 100, m at next level, right associativity) : app_scope.
Notation "m ;; k" := (bind m (fun _ => k))
  (at level 100, right associativity) : app_scope.
Local Open Scope app_scope.

Definition halt {A} (c : Control) : App A := fun w => (Halt c, w).
Definition raise {A} (e : Error) : App A := halt (Exception e).

(** [st.stop()] and [st.rerun()] end the run where they stand. *)
Definition st_stop {A} : App A := halt StopScript.
Definition st_rerun {A} : App A := halt RerunScript.

Definition emit (ev : Event) : App unit :=
  fun w =>
    (Done tt, {| session_state := session_state w; heap := heap w;
                 trace := trace w ++ [ev]; screen := screen w |}).

Definition render (k b : string) : App unit :=
  fun w =>
    (Done tt, {| session_state := session_state w; heap := heap w;
                 trace := trace w;
                 screen := screen w ++ [{| kind := k; body := b |}] |}).

(** [key in st.session_state] *)
Definition contains (key : string) : App bool :=
  fun w => (Done (bool_decide (is_Some (session_state w !! key))), w).

(** [st.session_state[key]] *)
Definition get_item (key : string) : App Value :=
  fun w =>
    match session_state w !! key with
    | Some v => (Done v, w)
    | None => (Halt (Exception (KeyError key)), w)
    end.

(** [st.session_state[key] = v] *)
Definition set_item (key : string) (v : Value) : App unit :=
  fun w =>
    (Done tt, {| session_state := <[key := v]> (session_state w); heap := heap w;
                 trace := trace w; screen := screen w |}).

(** [del st.session_state[key]] *)
Definition del_item (key : string) : App unit :=
  fun w =>
    match session_state w !! key with
    | Some _ =>
        (Done tt, {| session_state := delete key (session_state w); heap := heap w;
                     trace := trace w; screen := screen w |})
    | None => (Halt (Exception (KeyError key)), w)
    end.

(** Allocation: the object is placed at the next free address.  This is
    all there is to the construction of the objects of one turn (the timer,
    the two configuration records and the processor, which only store what
    they are given).  The validation of a [RetrievalConfig] at its
    construction is not followed: [main] passes slider positions, which
    satisfy [valid_config]. *)
Definition new (o : Object) : App Addr :=
  fun w =>
    let a := length (heap w) in
    (Done a, {| session_state := session_state w; heap := heap w ++ [o];
                trace := trace w ++ [EvNew a o]; screen := screen w |}).

(** A constructor call of a library: it raises what the library raises for
    these arguments, before anything is allocated, and otherwise places the
    object at the next free address. *)
Definition construct (env : Environment) (o : Object) : App Addr :=
  fun w =>
    match constructor_error env o with
    | Some e => (Halt (Exception e), w)
    | None => new o w
    end.

(** Python truthiness of an optional string: [None] and [""] are false. *)
Definition truthy (s : option string) : bool :=
  match s with
  | Some s => negb (String.eqb s "")
  | None => false
  end.

Definition truthy_value (v : Value) : bool :=
  match v with
  | VStr s => negb (String.eqb s "")
  | VBool b => b
  | VHistory h => negb (Nat.eqb (length h) 0)
  | VServices _ => true
  end.

(** A session value used as a [str] operand. *)
Definition as_str (v : Value) : App string :=
  match v with
  | VStr s => ret s
  | _ => raise TypeError
  end.

(** [st.session_state.name] and [del st.session_state.name] *)
Definition get_attr (name : string) : App Value :=
  fun w =>
    match session_state w !! name with
    | Some v => (Done v, w)
    | None => (Halt (Exception (AttributeError name)), w)
    end.

Definition del_attr (name : string) : App unit :=
  fun w =>
    match session_state w !! name with
    | Some _ =>
        (Done tt, {| session_state := delete name (session_state w); heap := heap w;
                     trace := trace w; screen := screen w |})
    | None => (Halt (Exception (AttributeError name)), w)
    end.

(** ** rag_pipeline.QueryProcessor and log_time.ProcessTimer *)

(** What a [QueryProcessor] holds: its four services and, through its
    [ProcessorConfig], the retrieval settings. *)
Definition processor_view (h : list Object) (p : Addr)
  : option (Addr * Addr * Addr * Addr * RetrievalConfig) :=
  match h !! p with
  | Some (QueryProcessor e r a g c) =>
      match h !! c with
      | Some (ProcessorConfigObj rc) =>
          match h !! rc with
          | Some (RetrievalConfigObj cfg) => Some (e, r, a, g, cfg)
          | _ => None
          end
      | _ => None
      end
  | _ => None
  end.

(** Modelled from the spec: [rag_pipeline.QueryProcessor.process_query] is
    not part of the sources at hand.  Spec 4.6, 5 and 7: the pipeline runs
    embed, retrieve, augment, generate on the processor's services and
    configuration, returns the answer text or raises the failing stage's
    error, and writes no shared state.  The remote models stand behind
    [pipeline]. *)
Definition process_query (env : Environment) (processor : Addr) (question : string)
  : App string :=
  fun w =>
    match processor_view (heap w) processor with
    | Some (e, r, a, g, cfg) =>
        let outcome := pipeline env e r a g cfg question in
        let w' := {| session_state := session_state w; heap := heap w;
                     trace := trace w ++ [EvProcessQuery processor question outcome];
                     screen := screen w |} in
        match outcome with
        | Returned answer => (Done answer, w')
        | Raised e => (Halt (Exception e), w')
        end
    | None => (Halt (Exception (AttributeError "process_query")), w)
    end.

(** Modelled from the spec: [log_time.ProcessTimer] is not part of the
    sources at hand.  Spec 6: an instrument that records named mark events;
    the record is the timer's own. *)
Definition mark (pt : Addr) (name : string) : App unit :=
  fun w =>
    match heap w !! pt with
    | Some (ProcessTimer marks) =>
        (Done tt, {| session_state := session_state w;
                     heap := <[pt := ProcessTimer (marks ++ [name])]> (heap w);
                     trace := trace w ++ [EvMark pt name]; screen := screen w |})
    | _ => (Halt (Exception (AttributeError "mark")), w)
    end.

(** ** src/app.py *)

(** [setup_page_config] *)
Definition setup_page_config : App unit :=
  render "page_config" "CIS Benchmarks Retrieval" ;;
  render "logo" "images/jd-logo.png" ;;
  render "title" "CIS Benchmarks RAG (Demo)".

(** The dictionary [load_environment_config] returns; its keys are literals
    of the source. *)
Record Config : Type := {
  api_key : option string;
  bucket : string;
  vector_bucket : string;
  vector_region : string;
  vector_index : string;
  vector_dim : string;
  demo_username : option string;
  demo_password : option string
}.

(** [load_environment_config] *)
Definition load_environment_config (env : Environment) : Config :=
  {| api_key := getenv env "OPENAI_API_KEY";
     bucket := load_config env "AWS_S3_BUCKET";
     vector_bucket := load_config env "VECTOR_S3_BUCKET";
     vector_region := load_config env "VECTOR_REGION";
     vector_index := load_config env "VECTOR_INDEX";
     vector_dim := load_config env "VECTOR_DIMENSION";
     demo_username := getenv env "DEMO_USERNAME";
     demo_password := getenv env "DEMO_PASSWORD" |}.

(** [password_entered], the closure inside [check_authentication]; it runs
    as the [on_change] callback of the password field. *)
Definition password_entered (username password : option string) : App unit :=
  u <- get_item "username" ;;
  p <- get_item "password" ;;
  eu <- as_str u ;;
  ep <- as_str p ;;
  let entered_combo := eu ++ ep in
  match username, password with
  | Some xu, Some xp =>
      let expected_combo := xu ++ xp in
      if String.eqb (Sha256.hexdigest (Sha256.encode entered_combo))
                    (Sha256.hexdigest (Sha256.encode expected_combo))
      then set_item "password_correct" (VBool true) ;; del_item "password"
      else set_item "password_correct" (VBool false)
  | _, _ => raise TypeError
  end.

(** [st.text_input(label, key=key)]: the widget's value lives in the
    session state under its key, the empty string until something is typed. *)
Definition text_input (label key : string) : App unit :=
  present <- contains key ;;
  (if present : bool then ret tt else set_item key (VStr "")) ;;
  render "text_input" label.

(** [check_authentication] *)
Definition check_authentication (username password : option string) : App unit :=
  known <- contains "password_correct" ;;
  if known : bool then
    v <- get_item "password_correct" ;;
    if negb (truthy_value v) then
      render "error" "❌ Incorrect password" ;;
      st_stop
    else ret tt
  else
    text_input "Username" "username" ;;
    text_input "Password" "password" ;;
    st_stop.

(** [initialize_services] *)
Definition initialize_services (env : Environment) (config : Config) : App Services :=
  emit (EvCall "initialize_services") ;;
  render "spinner" "Initializing LLM..." ;;
  session <- construct env (BotoSession (vector_region config)) ;;
  s3 <- construct env (BotoClient session "s3") ;;
  vector_svc <- construct env (BotoClient session "s3vectors") ;;
  embedding <- construct env (OpenAIEmbeddingService (api_key config)
                                           (load_config env "embedding_model")) ;;
  generation <- construct env (OpenAIGenerationService (api_key config)
                                             (load_config env "inference_model")) ;;
  retrieval <- construct env (RetrievalServiceObj vector_svc s3 (load_config env "reranker_model")) ;;
  aug <- construct env (PromptAugmenter "rag_prompt.md") ;;
  render "success" ("LLM initialized: " ++ load_config env "inference_model") ;;
  ret {| aws_session := session; s3_client := s3; vector_client := vector_svc;
         embedding_service := embedding; generation_service := generation;
         retrieval_service := retrieval; augmenter := aug |}.

(** The suggestions of the sidebar, by category, in the order of the source. *)
Definition questions : list (string * list string) :=
  [ ("🖥️ System Security",
     [ "How can I verify that DHCP servers aren't installed on my systems and what should I do if they are?";
       "I want to make sure my machines aren't acting as DHCP servers to reduce attack surface." ]);
    ("☁️ Microsoft 365",
     [ "What's the recommended number of global administrators in Microsoft 365, and how do I audit it?";
       "I need to ensure that I have the right number of global administrators configured in my Microsoft 365 tenant." ]);
    ("📁 AWS Storage",
     [ "How do I implement and validate the use of Amazon EFS to improve my storage deployment process?";
       "I want to simplify file system management by using Amazon's managed EFS solution." ]);
    ("🗄️ Oracle Cloud (OCI)",
     [ "How do I check whether object storage versioning is enabled in OCI, and why is it important?";
       "I want to ensure that my object storage buckets in Oracle Cloud have versioning enabled.";
       "What steps can I take to confirm that no object storage buckets in my OCI environment are publicly accessible?";
       "I'm trying to make sure all my Oracle Cloud buckets are private and not publicly visible." ]) ].

(** [question[:60] + "..." if len(question) > 60 else question].  Lengths
    count bytes here; the questions of the source are ASCII throughout, so
    that for them bytes and Python's characters agree. *)
Definition button_label (question : string) : string :=
  if Nat.ltb 60 (String.length question)
  then String.substring 0 60 question ++ "..."
  else question.

(** [st.button(label, key=..., use_container_width=True)]: true in the run
    that follows a click on it.  The entry Streamlit keeps for the widget
    under its key [f"btn_{hash(question)}"] is the widget's own, the script
    never reads it, and it is left out of the session state here; what is
    said of the session state is said of the keys that are no button's. *)
Definition st_button (fe : Frontend) (label question : string) : App bool :=
  render "button" label ;;
  ret (bool_decide (clicked fe = Some question)).

Fixpoint question_buttons (fe : Frontend) (question_list : list string) : App unit :=
  match question_list with
  | [] => ret tt
  | question :: rest =>
      pressed <- st_button fe (button_label question) question ;;
      (if pressed : bool then
         set_item "selected_question" (VStr question) ;;
         st_rerun
       else ret tt) ;;
      question_buttons fe rest
  end.

Fixpoint question_categories (fe : Frontend) (items : list (string * list string))
  : App unit :=
  match items with
  | [] => ret tt
  | (category, question_list) :: rest =>
      render "markdown" ("**" ++ category ++ ":**") ;;
      question_buttons fe question_list ;;
      render "markdown" "" ;;
      question_categories fe rest
  end.

(** [st.sidebar.slider(label, min_value, max_value, value)]: the widget
    hands back a position between its bounds, its default until moved. *)
Definition slider {A} (label : string) (inside : A -> bool) (value : A)
                  (position : option A) : App A :=
  render "slider" label ;;
  ret (match position with
       | Some v => if inside v then v else value
       | None => value
       end).

(** [setup_sidebar] *)
Definition setup_sidebar (fe : Frontend) : App (Z * float) :=
  render "header" "💡 Query Suggestions" ;;
  render "markdown" "*Click any question/query and give it a try:*" ;;
  question_categories fe questions ;;
  render "markdown" "---" ;;
  render "subheader" "🔧 Retrieval Settings" ;;
  top_k <- slider "Top K Chunks" (fun v => Z.leb 1 v && Z.leb v 10) 3
                  (top_k_slider fe) ;;
  similarity_threshold <-
    slider "Similarity Threshold"
           (fun v => PrimFloat.leb 0%float v && PrimFloat.leb v 1%float) 0.32%float
           (threshold_slider fe) ;;
  ret (top_k, similarity_threshold).

(** [st.session_state.base_services] *)
Definition base_services : App Services :=
  v <- get_attr "base_services" ;;
  match v with
  | VServices s => ret s
  | _ => raise TypeError
  end.

(** [st.session_state.chat_history.append(e)] *)
Definition chat_history_append (e : Exchange) : App unit :=
  v <- get_attr "chat_history" ;;
  match v with
  | VHistory h =>
      set_item "chat_history" (VHistory (h ++ [e])) ;;
      emit (EvAppend e)
  | _ => raise (AttributeError "append")
  end.

(** [process_user_query] *)
Definition process_user_query (env : Environment) (user_input : string)
    (top_k : Z) (similarity_threshold : float) : App unit :=
  emit (EvCall "process_user_query") ;;
  pt <- new (ProcessTimer []) ;;
  render "spinner" "Generating response..." ;;
  rc <- new (RetrievalConfigObj {| top_k := top_k;
                                   similarity_threshold := similarity_threshold |}) ;;
  current_config <- new (ProcessorConfigObj rc) ;;
  s <- base_services ;;
  processor <- new (QueryProcessor (embedding_service s) (retrieval_service s)
                                   (augmenter s) (generation_service s)
                                   current_config) ;;
  mark pt "RAG Processing Query" ;;
  response <- process_query env processor user_input ;;
  mark pt "RAG Processing Query" ;;
  chat_history_append {| user := user_input; bot := response |}.

(** [display_chat_history] *)
Fixpoint display_exchanges (h : list Exchange) : App unit :=
  match h with
  | [] => ret tt
  | exchange :: rest =>
      render "chat_message" "user" ;;
      render "markdown" (user exchange) ;;
      render "chat_message" "assistant" ;;
      render "markdown" (bot exchange) ;;
      display_exchanges rest
  end.

Definition display_chat_history : App unit :=
  v <- get_attr "chat_history" ;;
  match v with
  | VHistory h => display_exchanges h
  | _ => raise TypeError
  end.

(** [display_footer]; the style sheet and the footer text are abbreviated. *)
Definition display_footer : App unit :=
  render "markdown" "<br><br><br>" ;;
  render "markdown" "footer".

(** [st.session_state.base_services = initialize_services(config)] *)
Definition install_services (env : Environment) (config : Config) : App unit :=
  services <- initialize_services env config ;;
  set_item "base_services" (VServices services).

(** [main] *)
Definition main (env : Environment) (fe : Frontend) : App unit :=
  setup_page_config ;;
  let config := load_environment_config env in
  check_authentication (demo_username config) (demo_password config) ;;
  has_history <- contains "chat_history" ;;
  (if has_history : bool then ret tt else set_item "chat_history" (VHistory [])) ;;
  has_services <- contains "base_services" ;;
  (if has_services : bool then ret tt else install_services env config) ;;
  settings <- setup_sidebar fe ;;
  let top_k := fst settings in
  let similarity_threshold := snd settings in
  selected <- contains "selected_question" ;;
  (if selected : bool then
     selected_question <- get_attr "selected_question" ;;
     del_attr "selected_question" ;;
     if truthy (api_key config) then
       question <- as_str selected_question ;;
       process_user_query env question top_k similarity_threshold
     else ret tt
   else ret tt) ;;
  render "chat_input" "Ask a question..." ;;
  (match chat_input fe with
   | Some user_input =>
       if negb (String.eqb user_input "") && truthy (api_key config) then
         process_user_query env user_input top_k similarity_threshold
       else ret tt
   | None => ret tt
   end) ;;
  display_chat_history ;;
  display_footer.

(** One run of the script, as Streamlit drives it: the widget values of the
    browser are stored, the [on_change] callback of the password field runs
    when that field was submitted with a changed value, then the script runs
    from the top.  However the run ends, the session state stays as the
    script leaves it; what Streamlit does to the entries of widgets a later
    run no longer shows (the two login fields once the gate is open) is not
    followed here, and nothing is said of those entries after such a run. *)
Definition deliver_credentials (env : Environment) (u p : string) : App unit :=
  let config := load_environment_config env in
  set_item "username" (VStr u) ;;
  set_item "password" (VStr p) ;;
  password_entered (demo_username config) (demo_password config).

Definition script_run (env : Environment) (fe : Frontend) (w : World) : World :=
  let w1 := match credentials fe with
            | Some (u, p) => snd (deliver_credentials env u p w)
            | None => w
            end in
  snd (main env fe w1).

(** A session: the runs that follow one another from the first page load. *)
Definition session (env : Environment) (runs : list Frontend) : World :=
  fold_left (fun w fe => script_run env fe w) runs empty_world.

(** [process_user_query] without its two [pt.mark] calls. *)
Definition process_user_query_unmarked (env : Environment) (user_input : string)
    (top_k : Z) (similarity_threshold : float) : App unit :=
  emit (EvCall "process_user_query") ;;
  pt <- new (ProcessTimer []) ;;
  render "spinner" "Generating response..." ;;
  rc <- new (RetrievalConfigObj {| top_k := top_k;
                                   similarity_threshold := similarity_threshold |}) ;;
  current_config <- new (ProcessorConfigObj rc) ;;
  s <- base_services ;;
  processor <- new (QueryProcessor (embedding_service s) (retrieval_service s)
                                   (augmenter s) (generation_service s)
                                   current_config) ;;
  response <- process_query env processor user_input ;;
  chat_history_append {| user := user_input; bot := response |}.

(** ** Ranking order *)

(** [a] ranks no lower than [b]: its cosine score is at least that of [b]. *)
Definition desc (a b : ScoredChunk) : Prop :=
  PrimFloat.leb (cosine b) (cosine a) = true.



(** ** One call of [process_user_query] in closed form *)

(** The configuration a call builds from the slider values. *)
Definition turn_config (k : Z) (t : float) : RetrievalConfig :=
  {| top_k := k; similarity_threshold := t |}.

(** What the pipeline gives for the question under that configuration. *)
Definition turn_outcome (env : Environment) (s : Services) (q : string)
    (k : Z) (t : float) : Result string :=
  pipeline env (embedding_service s) (retrieval_service s) (augmenter s)
           (generation_service s) (turn_config k t) q.

(** The objects one call of [process_user_query] leaves at addresses [n] to
    [n + 3], the timer with the marks it has received. *)
Definition turn_objects (s : Services) (n : nat) (k : Z) (t : float)
    (marks : list string) : list Object :=
  [ ProcessTimer marks;
    RetrievalConfigObj (turn_config k t);
    ProcessorConfigObj (S n);
    QueryProcessor (embedding_service s) (retrieval_service s) (augmenter s)
                   (generation_service s) (S (S n)) ].

(** The events of one call up to the return of the pipeline. *)
Definition turn_events (env : Environment) (s : Services) (n : nat) (q : string)
    (k : Z) (t : float) : list Event :=
  [ EvCall "process_user_query";
    EvNew n (ProcessTimer []);
    EvNew (S n) (RetrievalConfigObj (turn_config k t));
    EvNew (S (S n)) (ProcessorConfigObj (S n));
    EvNew (S (S (S n)))
      (QueryProcessor (embedding_service s) (retrieval_service s) (augmenter s)
                      (generation_service s) (S (S n)));
    EvMark n "RAG Processing Query";
    EvProcessQuery (S (S (S n))) q (turn_outcome env s q k t) ].

(** The spinner shown while the answer is generated. *)
Definition spinner : Element := {| kind := "spinner"; body := "Generating response..." |}.

(** ** A run as a sequence of steps *)

(** The bounds of the two sliders. *)
Definition in_range (k : Z) (t : float) : bool :=
  Z.leb 1 k && Z.leb k 10 && PrimFloat.leb 0%float t && PrimFloat.leb t 1%float.

(** The session values the script relies on have the type it gives them. *)
Definition typed (w : World) : bool :=
  match session_state w !! "chat_history" with
  | None | Some (VHistory _) => true
  | _ => false
  end
  && match session_state w !! "base_services" with
     | None | Some (VServices _) => true
     | _ => false
     end
  && match session_state w !! "selected_question" with
     | None | Some (VStr _) => true
     | _ => false
     end.

(** Services and history are in place: what [main] establishes before it
    handles a question. *)
Definition ready (w : World) : bool :=
  match session_state w !! "base_services" with
  | Some (VServices _) => true
  | _ => false
  end
  && match session_state w !! "chat_history" with
     | Some (VHistory _) => true
     | _ => false
     end.

(** The keys the widgets and the login write, with the type of their value. *)
Definition widget_value (key : string) (v : Value) : bool :=
  match v with
  | VStr _ => String.eqb key "username" || String.eqb key "password"
              || String.eqb key "selected_question"
  | VBool _ => String.eqb key "password_correct"
  | _ => false
  end.

(** The keys the script deletes. *)
Definition removable (key : string) : bool :=
  String.eqb key "password" || String.eqb key "selected_question".

(** What the script does to the world, one step at a time.  [allow] tells
    whether questions are answered at all, which is the case when an API key
    is configured. *)
Inductive step (allow : bool) (env : Environment) (w : World) : World -> Prop :=
| step_render k b :
    step allow env w (snd (render k b w))
| step_widget key v :
    widget_value key v = true ->
    step allow env w (snd (set_item key v w))
| step_history :
    session_state w !! "chat_history" = None ->
    step allow env w (snd (set_item "chat_history" (VHistory []) w))
| step_delete key :
    removable key = true ->
    step allow env w (snd (del_item key w))
| step_init :
    session_state w !! "base_services" = None ->
    step allow env w (snd (install_services env (load_environment_config env) w))
| step_turn q k t :
    allow = true -> ready w = true -> in_range k t = true ->
    step allow env w (snd (process_user_query env q k t w)).

(** Any number of steps. *)
Definition steps (allow : bool) (env : Environment) : World -> World -> Prop :=
  rtc (step allow env).

(** The services [initialize_services] creates when the heap holds [n]
    objects, and what it leaves behind. *)
Definition init_services (n : nat) : Services :=
  {| aws_session := n; s3_client := S n; vector_client := S (S n);
     embedding_service := S (S (S n)); generation_service := S (S (S (S n)));
     retrieval_service := S (S (S (S (S n)))); augmenter := S (S (S (S (S (S n))))) |}.

(** The objects of that initialisation, in the order of their construction. *)
Definition init_objects (env : Environment) (n : nat) : list Object :=
  let config := load_environment_config env in
  [ BotoSession (vector_region config);
    BotoClient n "s3";
    BotoClient n "s3vectors";
    OpenAIEmbeddingService (api_key config) (load_config env "embedding_model");
    OpenAIGenerationService (api_key config) (load_config env "inference_model");
    RetrievalServiceObj (S (S n)) (S n) (load_config env "reranker_model");
    PromptAugmenter "rag_prompt.md" ].

(** The construction events of objects placed from address [n] on. *)
Fixpoint news (n : nat) (objs : list Object) : list Event :=
  match objs with
  | [] => []
  | o :: rest => EvNew n o :: news (S n) rest
  end.

(** The events and the page elements of that initialisation. *)
Definition init_events (env : Environment) (n : nat) : list Event :=
  EvCall "initialize_services" :: news n (init_objects env n).

Definition init_screen (env : Environment) : list Element :=
  [ {| kind := "spinner"; body := "Initializing LLM..." |};
    {| kind := "success";
       body := "LLM initialized: " ++ load_config env "inference_model" |} ].

(** What an attempt at initialisation gets done: the objects constructed
    before the first constructor that raises, and what that one raises. *)
Fixpoint built (env : Environment) (objs : list Object) : list Object :=
  match objs with
  | [] => []
  | o :: rest =>
      match constructor_error env o with
      | Some _ => []
      | None => o :: built env rest
      end
  end.

Fixpoint first_error (env : Environment) (objs : list Object) : option Error :=
  match objs with
  | [] => None
  | o :: rest =>
      match constructor_error env o with
      | Some e => Some e
      | None => first_error env rest
      end
  end.

(** The error an initialisation started with [n] objects in the heap ends
    with, if it does not complete. *)
Definition init_error (env : Environment) (n : nat) : option Error :=
  first_error env (init_objects env n).

(** The services are in place, or their initialisation completes. *)
Definition initialises (env : Environment) (w : World) : Prop :=
  is_Some (session_state w !! "base_services")
  \/ init_error env (length (heap w)) = None.

(** A property of the session state. *)
Definition Assertion := gmap string Value -> Prop.

(** [m], started in a typed world that satisfies [P], moves by steps, and
    ends in [Q] when it completes. *)
Definition sound {A} (allow : bool) (env : Environment)
    (P : Assertion) (m : App A) (Q : A -> Assertion) : Prop :=
  forall w, typed w = true -> P (session_state w) ->
    steps allow env w (snd (m w))
    /\ match fst (m w) with
       | Done a => Q a (session_state (snd (m w)))
       | Halt _ => True
       end.

(** The assertions met along [main]: none, the history exists, services and
    history exist, no question is selected. *)
Definition anything : Assertion := fun _ => True.

Definition has_history : Assertion :=
  fun ss => exists h, ss !! "chat_history" = Some (VHistory h).

Definition is_ready : Assertion :=
  fun ss => (exists s, ss !! "base_services" = Some (VServices s))
            /\ exists h, ss !! "chat_history" = Some (VHistory h).

Definition unselected : Assertion := fun ss => ss !! "selected_question" = None.

(** ** Login *)

(** Whether the callback finds the digest of what was entered equal to the
    digest of what is expected. *)
Definition digest_match (eu ep xu xp : string) : bool :=
  String.eqb (Sha256.hexdigest (Sha256.encode (eu ++ ep)))
             (Sha256.hexdigest (Sha256.encode (xu ++ xp))).

(** What the password field holds: the empty string until something is
    typed. *)
Definition password_field (w : World) : string :=
  match session_state w !! "password" with
  | Some (VStr s) => s
  | _ => ""
  end.

(** A login attempt through the widgets: the username field takes what was
    entered; when the entry of the password field differs from what the
    field held, the field takes it and its [on_change] callback runs (an
    unchanged field fires nothing); then the script reaches the gate
    again. *)
Definition login (username password : option string) (eu ep : string) : App unit :=
  fun w =>
    (set_item "username" (VStr eu) ;;
     (if String.eqb ep (password_field w) then ret tt
      else set_item "password" (VStr ep) ;;
           password_entered username password) ;;
     check_authentication username password) w.

(** The gate lets the script through. *)
Definition accepts (username password : option string) (eu ep : string)
    (w : World) : bool :=
  match fst (login username password eu ep w) with
  | Done _ => true
  | Halt _ => false
  end.

(** ** Counting strings *)

(** The strings of length [n] over an alphabet, and those of length at most
    [n]. *)
Fixpoint words (alphabet : list ascii) (n : nat) : list (list ascii) :=
  match n with
  | O => [[]]
  | S n' => flat_map (fun c => map (cons c) (words alphabet n')) alphabet
  end.

Fixpoint words_upto (alphabet : list ascii) (n : nat) : list (list ascii) :=
  match n with
  | O => words alphabet 0
  | S n' => words_upto alphabet n' ++ words alphabet (S n')
  end.

(** The characters of a hexadecimal digest. *)
Definition hex_alphabet : list ascii := list_ascii_of_string "0123456789abcdef".

(** The digest of a message given by its characters, as characters. *)
Definition digest_of (message : list ascii) : list ascii :=
  list_ascii_of_string (Sha256.hexdigest (Sha256.encode (string_of_list_ascii message))).

(** ** Reading a trace and a world *)

(** The conversation so far. *)
Definition history_of (w : World) : list Exchange :=
  match session_state w !! "chat_history" with
  | Some (VHistory h) => h
  | _ => []
  end.

(** How often a function of the script was entered. *)
Definition calls (function : string) (tr : list Event) : nat :=
  length (List.filter (fun ev => match ev with
                                 | EvCall f => String.eqb f function
                                 | _ => false
                                 end) tr).

(** The invocations of the pipeline, with what each one gave. *)
Fixpoint pipeline_calls (tr : list Event) : list (Addr * string * Result string) :=
  match tr with
  | [] => []
  | EvProcessQuery p q out :: rest => (p, q, out) :: pipeline_calls rest
  | _ :: rest => pipeline_calls rest
  end.

(** The entries appended to the chat history. *)
Fixpoint appends (tr : list Event) : list Exchange :=
  match tr with
  | [] => []
  | EvAppend e :: rest => e :: appends rest
  | _ :: rest => appends rest
  end.

(** The events a computation adds to the trace of the world it starts in. *)
Definition added (w w' : World) : list Event := skipn (length (trace w)) (trace w').

(** What is left of a world when the timers' records are put aside: timers
    without their marks, the trace without its mark events. *)
Definition forget_marks (o : Object) : Object :=
  match o with
  | ProcessTimer _ => ProcessTimer []
  | _ => o
  end.

(** A mark event of a timer. *)
Definition is_mark (ev : Event) : bool :=
  match ev with
  | EvMark _ _ => true
  | _ => false
  end.

(** What can be seen of a world apart from the timers' records. *)
Definition observe (w : World)
  : gmap string Value * list Object * list Event * list Element :=
  (session_state w, map forget_marks (heap w),
   List.filter (fun ev => negb (is_mark ev)) (trace w), screen w).

(** The objects constructed, with their addresses. *)
Fixpoint constructions (tr : list Event) : list (Addr * Object) :=
  match tr with
  | [] => []
  | EvNew a o :: rest => (a, o) :: constructions rest
  | _ :: rest => constructions rest
  end.

(** A configuration event is in order when its settings lie within the
    bounds of the sliders. *)
Definition config_ok (ev : Event) : Prop :=
  match ev with
  | EvNew _ (RetrievalConfigObj cfg) =>
      in_range (top_k cfg) (similarity_threshold cfg) = true
  | _ => True
  end.

(** The long-lived services among the objects. *)
Definition is_service (o : Object) : bool :=
  match o with
  | BotoSession _ | BotoClient _ _ | OpenAIEmbeddingService _ _
  | OpenAIGenerationService _ _ | RetrievalServiceObj _ _ _ | PromptAugmenter _ => true
  | _ => false
  end.

(** The constructions of services. *)
Definition service_constructions (tr : list Event) : list (Addr * Object) :=
  List.filter (fun c => is_service (snd c)) (constructions tr).

(** The services each constructed [QueryProcessor] was given. *)
Fixpoint processors (tr : list Event) : list (Addr * Addr * Addr * Addr) :=
  match tr with
  | [] => []
  | EvNew _ (QueryProcessor e r a g _) :: rest => (e, r, a, g) :: processors rest
  | _ :: rest => processors rest
  end.

(** The processor was given the services [s]. *)
Definition served_by (s : Services) (p : Addr * Addr * Addr * Addr) : Prop :=
  p = (embedding_service s, retrieval_service s, augmenter s, generation_service s).

(** The objects [objs] lie in the heap from address [n] on. *)
Definition placed (n : nat) (objs : list Object) (h : list Object) : Prop :=
  forall i o, objs !! i = Some o -> h !! (n + i)%nat = Some o.

(** The object is a prompt augmenter: the last service
    [initialize_services] constructs, so that one is constructed exactly
    when an initialisation gets through all its constructors. *)
Definition is_augmenter (o : Object) : bool :=
  match o with
  | PromptAugmenter _ => true
  | _ => false
  end.

(** How many initialisations have run to their end. *)
Definition completions (tr : list Event) : nat :=
  length (List.filter (fun c => is_augmenter (snd c)) (constructions tr)).

(** While [base_services] is absent no initialisation has run to its end
    and no processor exists.  Once it is there, it holds the services of the
    one initialisation that did: their constructions are the last
    constructions of services in the trace (what precedes them is what
    attempts that raised got done), they are in the heap as constructed, and
    every processor was given them. *)
Definition services_inv (env : Environment) (w : World) : Prop :=
  match session_state w !! "base_services" with
  | None =>
      completions (trace w) = 0%nat
      /\ processors (trace w) = []
  | Some v =>
      exists n attempts,
        v = VServices (init_services n)
        /\ completions (trace w) = 1%nat
        /\ service_constructions (trace w)
           = (attempts ++ constructions (news n (init_objects env n)))%list
        /\ placed n (init_objects env n) (heap w)
        /\ Forall (served_by (init_services n)) (processors (trace w))
  end.

(** An augmenter is constructed on the template of the source. *)
Definition template_ok (ev : Event) : Prop :=
  match ev with
  | EvNew _ (PromptAugmenter template) => template = "rag_prompt.md"
  | _ => True
  end.

(** Services are constructed by [initialize_services] only, seven at most
    each time it is entered and every augmenter on the template of the
    source; the entries that ran to their end are among the entries, and
    when no constructor raises every entry runs to its end. *)
Definition attempts_inv (env : Environment) (w : World) : Prop :=
  (completions (trace w) <= calls "initialize_services" (trace w))%nat
  /\ (length (service_constructions (trace w))
      <= 7 * calls "initialize_services" (trace w))%nat
  /\ Forall template_ok (trace w)
  /\ ((forall o, constructor_error env o = None) ->
      calls "initialize_services" (trace w) = completions (trace w)).

(** What a run without an API key must leave as it was. *)
Definition quiet (w0 w : World) : Prop :=
  calls "process_user_query" (trace w) = calls "process_user_query" (trace w0)
  /\ pipeline_calls (trace w) = pipeline_calls (trace w0)
  /\ appends (trace w) = appends (trace w0)
  /\ history_of w = history_of w0.

(** [m] hands back only values that satisfy [P]. *)
Definition returns {A} (m : App A) (P : A -> Prop) : Prop :=
  forall w a w', m w = (Done a, w') -> P a.

(** The events of one call without the marks. *)
Definition unmarked_events (env : Environment) (s : Services) (n : nat) (q : string)
    (k : Z) (t : float) : list Event :=
  List.filter (fun ev => negb (is_mark ev)) (turn_events env s n q k t).

(** The world once both login fields hold what was entered. *)
Definition entered (eu ep : string) (w : World) : World :=
  {| session_state :=
       <["password" := VStr ep]> (<["username" := VStr eu]> (session_state w));
     heap := heap w; trace := trace w; screen := screen w |}.

(** Whether questions are answered: an API key is configured. *)
Definition answering (env : Environment) : bool :=
  truthy (api_key (load_environment_config env)).

(** ** Sample data *)

(** Sample data: an environment whose pipeline answers, one whose pipeline
    fails, and a session with services and an empty history in place. *)
Definition sample_getenv (k : string) : option string :=
  if String.eqb k "OPENAI_API_KEY" then Some "sk-test"
  else if String.eqb k "DEMO_USERNAME" then Some "a"
  else if String.eqb k "DEMO_PASSWORD" then Some "bc"
  else None.

Definition answering_env : Environment :=
  {| getenv := sample_getenv;
     load_config := fun k => k;
     pipeline := fun _ _ _ _ _ q => Returned ("answer to " ++ q);
     constructor_error := fun _ => None |}.

Definition failing_env : Environment :=
  {| getenv := sample_getenv;
     load_config := fun k => k;
     pipeline := fun _ _ _ _ _ _ => Raised GenerationError;
     constructor_error := fun _ => None |}.

Definition keyless_env : Environment :=
  {| getenv := fun k => if String.eqb k "OPENAI_API_KEY" then None else sample_getenv k;
     load_config := fun k => k;
     pipeline := fun _ _ _ _ _ q => Returned ("answer to " ++ q);
     constructor_error := fun _ => None |}.

(** An environment in which the prompt template cannot be loaded. *)
Definition templateless_env : Environment :=
  {| getenv := sample_getenv;
     load_config := fun k => k;
     pipeline := fun _ _ _ _ _ q => Returned ("answer to " ++ q);
     constructor_error := fun o => match o with
                                   | PromptAugmenter _ => Some TemplateError
                                   | _ => None
                                   end |}.

Definition ready_world : World :=
  {| session_state :=
       <["chat_history" := VHistory []]>
         (<["base_services" := VServices (init_services 0)]>
            (<["password_correct" := VBool true]> ∅));
     heap := init_objects answering_env 0;
     trace := init_events answering_env 0;
     screen := [] |}.

(** Sample runs: a page load, a login, a question typed with the sliders
    moved, and a click on a suggestion. *)
Definition page_load : Frontend :=
  {| credentials := None; clicked := None; chat_input := None;
     top_k_slider := None; threshold_slider := None |}.

Definition sample_login : Frontend :=
  {| credentials := Some ("ab", "c"); clicked := None; chat_input := None;
     top_k_slider := None; threshold_slider := None |}.

Definition sample_question : Frontend :=
  {| credentials := None; clicked := None; chat_input := Some "hello";
     top_k_slider := Some 5; threshold_slider := Some 0.5%float |}.

Definition sample_session : list Frontend :=
  [page_load; sample_login; sample_question; page_load].

(** A logged-in session in which a suggestion has just been selected. *)
Definition selected_world : World :=
  {| session_state :=
       <["selected_question" := VStr "How do I audit it?"]>
         (<["password_correct" := VBool true]> ∅);
     heap := []; trace := []; screen := [] |}.







(** ** Frames and further readings of a run *)

(** The gate lets the script through: [password_correct] is there and true. *)
Definition gate_open (w : World) : bool :=
  match session_state w !! "password_correct" with
  | Some v => truthy_value v
  | None => false
  end.

(** [m] changes the session state at the keys of [keys] at most. *)
Definition writes_only {A} (keys : list string) (m : App A) : Prop :=
  forall w key, ~ In key keys ->
    session_state (snd (m w)) !! key = session_state w !! key.

(** [m] constructs nothing and leaves no event. *)
Definition silent {A} (m : App A) : Prop :=
  forall w, heap (snd (m w)) = heap w /\ trace (snd (m w)) = trace w.

(** The questions of the sidebar, all categories together. *)
Definition all_questions : list string := flat_map snd questions.

(** What a slider hands back for a position. *)
Definition slider_value {A} (inside : A -> bool) (value : A) (position : option A) : A :=
  match position with
  | Some v => if inside v then v else value
  | None => value
  end.

(** The settings the sidebar hands back for the widgets of a run. *)
Definition chosen (fe : Frontend) : Z * float :=
  (slider_value (fun v => Z.leb 1 v && Z.leb v 10) 3 (top_k_slider fe),
   slider_value (fun v => PrimFloat.leb 0%float v && PrimFloat.leb v 1%float)
                0.32%float (threshold_slider fe)).

(** No suggestion of the sidebar was clicked. *)
Definition no_click (fe : Frontend) : Prop :=
  forall q, clicked fe = Some q -> ~ In q all_questions.

(** The questions put to the pipeline, in order. *)
Definition questions_asked (tr : list Event) : list string :=
  map (fun c => snd (fst c)) (pipeline_calls tr).

(** The exchanges the pipeline calls that returned stand for. *)
Fixpoint answered (cs : list (Addr * string * Result string)) : list Exchange :=
  match cs with
  | [] => []
  | (_, q, Returned r) :: rest => {| user := q; bot := r |} :: answered rest
  | (_, _, Raised _) :: rest => answered rest
  end.

(** The suggestion waiting in the session state, and what was typed into
    the chat field, each as the list of questions it amounts to. *)
Definition suggestion (w : World) : list string :=
  match session_state w !! "selected_question" with
  | Some (VStr q) => [q]
  | _ => []
  end.

Definition typed_in (fe : Frontend) : list string :=
  match chat_input fe with
  | Some q => if String.eqb q "" then [] else [q]
  | None => []
  end.

(** The questions a run of [main] has to handle: the selected suggestion,
    then what was typed, both only when an API key is configured. *)
Definition asked (env : Environment) (fe : Frontend) (w : World) : list string :=
  if truthy (getenv env "OPENAI_API_KEY") then (suggestion w ++ typed_in fe)%list else [].

(** The listed suggestion that was clicked, if any. *)
Definition listed_click (fe : Frontend) : option string :=
  match clicked fe with
  | Some q => if existsb (String.eqb q) all_questions then Some q else None
  | None => None
  end.

(** The credentials a run submits, if any, do not open the gate. *)
Definition rejected (env : Environment) (fe : Frontend) : bool :=
  match credentials fe with
  | Some (u, p) =>
      match getenv env "DEMO_USERNAME", getenv env "DEMO_PASSWORD" with
      | Some xu, Some xp => negb (digest_match u p xu xp)
      | _, _ => true
      end
  | None => true
  end.

(** The world without its page. *)
Definition offscreen (w : World) : World :=
  {| session_state := session_state w; heap := heap w; trace := trace w; screen := [] |}.

(** Started in a world that satisfies [P], [m] ends with an outcome and in
    a world that satisfy [Q]; the page is left out of account. *)
Definition triple {A} (P : World -> Prop) (m : App A)
    (Q : Outcome A -> World -> Prop) : Prop :=
  forall w, P (offscreen w) -> Q (fst (m w)) (offscreen (snd (m w))).

(** A configuration event carries the settings the sidebar of the run
    hands back. *)
Definition configured (fe : Frontend) (ev : Event) : Prop :=
  match ev with
  | EvNew _ (RetrievalConfigObj cfg) =>
      cfg = turn_config (fst (chosen fe)) (snd (chosen fe))
  | _ => True
  end.

(** Seen from the world [w0] a run started in: the questions [qs] were put
    to the pipeline since, those of [done] came back with an answer, the
    chat history has grown by exactly these exchanges, and every retrieval
    configuration constructed since carries the settings of the sidebar. *)
Definition progress (fe : Frontend) (w0 : World) (qs done : list string)
    (w : World) : Prop :=
  exists evs,
    trace w = (trace w0 ++ evs)%list
    /\ questions_asked evs = qs
    /\ history_of w = (history_of w0 ++ answered (pipeline_calls evs))%list
    /\ map user (answered (pipeline_calls evs)) = done
    /\ Forall (configured fe) evs.

(** Apart from chat history, services and selected question the session
    state is as it was in [w0]. *)
Definition kept (w0 w : World) : Prop :=
  forall key, ~ In key ["chat_history"; "base_services"; "selected_question"] ->
    session_state w !! key = session_state w0 !! key.

(** A point of the run at which every question asked so far was answered;
    [selected] is what the session state holds as selected question. *)
Definition stage (fe : Frontend) (w0 : World) (qs : list string)
    (selected : option Value) (w : World) : Prop :=
  is_ready (session_state w)
  /\ session_state w !! "selected_question" = selected
  /\ progress fe w0 qs qs w
  /\ kept w0 w.

(** The pipeline raised [err] on the last of the questions [qs]. *)
Definition broken (env : Environment) (fe : Frontend) (w0 : World)
    (qs : list string) (err : Error) (w : World) : Prop :=
  is_ready (session_state w)
  /\ session_state w !! "selected_question" = None
  /\ kept w0 w
  /\ exists before q,
       qs = (before ++ [q])%list
       /\ progress fe w0 qs before w
       /\ exists e r a g cfg, pipeline env e r a g cfg q = Raised err.

(** How a run of [main] that passed the gate in [w0] and has its services,
    or gets them, can end. *)
Definition main_post (env : Environment) (fe : Frontend) (w0 : World)
    (o : Outcome unit) (w : World) : Prop :=
  match listed_click fe with
  | Some q =>
      o = Halt RerunScript /\ stage fe w0 [] (Some (VStr q)) w
  | None =>
      match o with
      | Done _ => stage fe w0 (asked env fe w0) None w
      | Halt (Exception err) =>
          exists qs, qs `prefix_of` asked env fe w0 /\ broken env fe w0 qs err w
      | Halt _ => False
      end
  end.

(** What a run whose initialisation raises leaves of the world [w] it
    started in: the history is in place, the services are not, the trace and
    the heap have grown by what the attempt got done, and the page shows
    its head and the spinner of the initialisation. *)
Definition stalled (env : Environment) (w : World) : World :=
  {| session_state := <["chat_history" := VHistory (history_of w)]> (session_state w);
     heap := (heap w ++ built env (init_objects env (length (heap w))))%list;
     trace := (trace w ++ EvCall "initialize_services"
                 :: news (length (heap w))
                         (built env (init_objects env (length (heap w)))))%list;
     screen := (screen w ++ [ {| kind := "page_config"; body := "CIS Benchmarks Retrieval" |};
                              {| kind := "logo"; body := "images/jd-logo.png" |};
                              {| kind := "title"; body := "CIS Benchmarks RAG (Demo)" |};
                              {| kind := "spinner"; body := "Initializing LLM..." |} ])%list |}.

(** An element of that kind is on the pages the session has shown. *)
Definition shown (k : string) (w : World) : Prop := In k (map kind (screen w)).

(** What holds the services whenever there can be a question: a question
    is selected, or the chat field has been shown. *)
Definition question_needs_services (w : World) : Prop :=
  is_Some (session_state w !! "selected_question") \/ shown "chat_input" w ->
  is_Some (session_state w !! "base_services").

(** Nothing behind the gate has happened yet. *)
Definition untouched (w : World) : Prop :=
  gate_open w = false /\ heap w = [] /\ trace w = []
  /\ session_state w !! "chat_history" = None
  /\ session_state w !! "base_services" = None
  /\ session_state w !! "selected_question" = None.

(** The addresses a service dictionary holds, in the order of its keys. *)
Definition addresses (s : Services) : list Addr :=
  [ aws_session s; s3_client s; vector_client s; embedding_service s;
    generation_service s; retrieval_service s; augmenter s ].

(** The heap holds the services of the dictionary as [initialize_services]
    builds them from [config]: both clients come from the session of the
    dictionary, the retrieval service works on its two clients, and both
    OpenAI services hold the configured key. *)
Definition wired (env : Environment) (config : Config) (h : list Object)
    (s : Services) : Prop :=
  h !! aws_session s = Some (BotoSession (vector_region config))
  /\ h !! s3_client s = Some (BotoClient (aws_session s) "s3")
  /\ h !! vector_client s = Some (BotoClient (aws_session s) "s3vectors")
  /\ h !! embedding_service s
     = Some (OpenAIEmbeddingService (api_key config) (load_config env "embedding_model"))
  /\ h !! generation_service s
     = Some (OpenAIGenerationService (api_key config) (load_config env "inference_model"))
  /\ h !! retrieval_service s
     = Some (RetrievalServiceObj (vector_client s) (s3_client s)
                                 (load_config env "reranker_model"))
  /\ h !! augmenter s = Some (PromptAugmenter "rag_prompt.md").

(** The page elements [display_chat_history] shows for one exchange. *)
Definition bubbles (e : Exchange) : list Element :=
  [ {| kind := "chat_message"; body := "user" |};
    {| kind := "markdown"; body := user e |};
    {| kind := "chat_message"; body := "assistant" |};
    {| kind := "markdown"; body := bot e |} ].

(** The keys of the session state that [main] may write. *)
Definition main_keys : list string :=
  ["username"; "password"; "chat_history"; "base_services"; "selected_question"].

(** How handling the questions [qs] can end: all were answered, or the
    pipeline raised on the last of them. *)
Definition handled (env : Environment) (fe : Frontend) (w0 : World)
    (qs : list string) (o : Outcome unit) (w : World) : Prop :=
  match o with
  | Done _ => stage fe w0 qs None w
  | Halt (Exception err) => broken env fe w0 qs err w
  | Halt _ => False
  end.

(** The services [initialize_services] constructs from [config] when the
    heap holds [n] objects, in the order of their construction. *)
Definition service_objects (env : Environment) (config : Config) (n : nat)
  : list Object :=
  [ BotoSession (vector_region config);
    BotoClient n "s3";
    BotoClient n "s3vectors";
    OpenAIEmbeddingService (api_key config) (load_config env "embedding_model");
    OpenAIGenerationService (api_key config) (load_config env "inference_model");
    RetrievalServiceObj (S (S n)) (S n) (load_config env "reranker_model");
    PromptAugmenter "rag_prompt.md" ].

(** A key under which Streamlit keeps the state of a suggestion button:
    [f"btn_{hash(question)}"]. *)
Definition button_key (key : string) : bool := String.prefix "btn_" key.

(** * Facts

    From here on: lemmas about the definitions above, the properties C1 to
    C10 of the specification, and further properties X1 to X24 of the
    application. *)

(** ** Order of binary64 *)

Section FloatOrder.

Ltac cmp_cases :=
  repeat match goal with
  | |- context [Z.compare ?a ?b] => destruct (Z.compare_spec a b)
  | |- context [Pos.compare_cont Eq ?a ?b] =>
      change (Pos.compare_cont Eq a b) with (Pos.compare a b)
  | |- context [Pos.compare ?a ?b] => destruct (Pos.compare_spec a b)
  end.

Ltac by_cases :=
  repeat match goal with s : bool |- _ => destruct s end;
  try (intros; congruence); try easy;
  cmp_cases; simpl; try easy; try lia.

Lemma SFleb_trans x y z :
  SFleb x y = true -> SFleb y z = true -> SFleb x z = true.
Proof.
  unfold SFleb, SFcompare.
  destruct x as [sx|sx| |sx mx ex], y as [sy|sy| |sy my ey],
           z as [sz|sz| |sz mz ez]; by_cases.
Qed.



Lemma SFeqb_refl x : x <> S754_nan -> SFeqb x x = true.
Proof.
  unfold SFeqb, SFcompare. destruct x as [sx|sx| |sx mx ex]; by_cases.
Qed.

Lemma SFeqb_nan x : SFeqb x x = true -> x <> S754_nan.
Proof. intros H ->. discriminate H. Qed.

Lemma SFleb_not_nan x y :
  SFleb x y = true -> x <> S754_nan /\ y <> S754_nan.
Proof.
  unfold SFleb, SFcompare.
  destruct x as [sx|sx| |sx mx ex], y as [sy|sy| |sy my ey]; by_cases.
Qed.

Lemma is_nan_false x : is_nan x = false <-> Prim2SF x <> S754_nan.
Proof.
  unfold is_nan. rewrite FloatAxioms.eqb_spec, negb_false_iff. split.
  - apply SFeqb_nan.
  - apply SFeqb_refl.
Qed.

Lemma leb_trans x y z :
  PrimFloat.leb x y = true -> PrimFloat.leb y z = true -> PrimFloat.leb x z = true.
Proof. rewrite !FloatAxioms.leb_spec. apply SFleb_trans. Qed.



Lemma leb_not_nan x y :
  PrimFloat.leb x y = true -> is_nan x = false /\ is_nan y = false.
Proof. rewrite FloatAxioms.leb_spec, !is_nan_false. apply SFleb_not_nan. Qed.

(** A float that compares equal to zero is one of the two zeros. *)
Lemma eqb_zero x : PrimFloat.eqb x 0%float = true -> x = 0%float \/ x = (-0)%float.
Proof.
  rewrite FloatAxioms.eqb_spec. intros H.
  assert (exists s, Prim2SF x = S754_zero s) as [s Hs].
  { revert H. unfold SFeqb, SFcompare.
    change (Prim2SF 0) with (S754_zero false).
    destruct (Prim2SF x) as [s|s| |s m e]; try easy; eauto.
    all: destruct s; easy. }
  destruct s; [right | left]; apply Prim2SF_inj; rewrite Hs; reflexivity.
Qed.

End FloatOrder.

(** ** Cosine similarity *)

Section Cosine.
Import CosineSimilarity.

Lemma dot_zero_acc (a : EmbeddingVector) :
  Forall (fun x => x = 0%float \/ x = (-0)%float) a ->
  fold_left (fun acc p => PrimFloat.add acc (PrimFloat.mul (fst p) (snd p)))
            (combine a a) 0%float = 0%float.
Proof.
  induction 1 as [|x a Hx _ IH]; [reflexivity|].
  simpl. destruct Hx as [-> | ->]; exact IH.
Qed.

(** A vector whose components are all zero has a computed norm of zero. *)
Lemma zero_vector_zero_norm (a : EmbeddingVector) :
  Forall (fun x => PrimFloat.eqb x 0%float = true) a -> zero_norm a = true.
Proof.
  intros H. unfold zero_norm, norm, dot. rewrite dot_zero_acc; [reflexivity|].
  eapply List.Forall_impl; [|exact H]. intros x. apply eqb_zero.
Qed.

End Cosine.

(** C2. For vectors of equal length of which one has a zero norm, the cosine
    score is returned (no error is raised), it is exactly 0.0, and it is not
    NaN. *)
Theorem score_zero_norm (a b : EmbeddingVector) :
  length a = length b ->
  CosineSimilarity.zero_norm a = true \/ CosineSimilarity.zero_norm b = true ->
  exists r, CosineSimilarity.score a b = Returned r
            /\ r = 0%float /\ is_nan r = false.
Proof.
  intros Hlen Hz. exists 0%float. split; [|split; reflexivity].
  unfold CosineSimilarity.score.
  rewrite Hlen, Nat.eqb_refl.
  destruct Hz as [-> | ->]; [reflexivity|].
  now rewrite orb_true_r.
Qed.

Lemma score_zero_norm_witness :
  length [0; 0; 0]%float = length [1; 2; 3]%float
  /\ (CosineSimilarity.zero_norm [0; 0; 0]%float = true
      \/ CosineSimilarity.zero_norm [1; 2; 3]%float = true)
  /\ exists r, CosineSimilarity.score [0; 0; 0]%float [1; 2; 3]%float = Returned r
               /\ r = 0%float /\ is_nan r = false.
Proof.
  split; [reflexivity|]. split; [left; reflexivity|].
  apply (score_zero_norm [0; 0; 0]%float [1; 2; 3]%float);
    [reflexivity | left; reflexivity].
Defined.

(** ** Retrieval *)

Section Retrieval.
Import RetrievalService.

#[local] Instance desc_trans : Transitive desc.
Proof. intros a b c Hab Hbc. unfold desc in *. eapply leb_trans; eauto. Qed.










(** The retrieval returns whenever the store answers with chunks of the
    query's dimension and no reranker is configured. *)
Lemma rescore_returns q cands :
  Forall (fun c => length (chunk_embedding c) = length q) cands ->
  exists scored, rescore q cands = Returned scored.
Proof.
  induction 1 as [|c cands Hc _ [scored IH]]; simpl; [eauto|].
  unfold CosineSimilarity.score. rewrite Hc, Nat.eqb_refl, IH.
  destruct (_ || _); eauto.
Qed.

Lemma retrieve_returns svc q cfg cands :
  nearest (vector_store svc) q (candidate_limit svc) = Some cands ->
  Forall (fun c => length (chunk_embedding c) = length q) cands ->
  reranker_model svc = None ->
  exists result, retrieve svc q cfg = Returned result.
Proof.
  intros Hn Hd Hr. destruct (rescore_returns q cands Hd) as [scored Hs].
  unfold retrieve, ranked_candidates. rewrite Hn, Hs, Hr. eauto.
Qed.



End Retrieval.




(** ** Running the script *)

Section Run.

Lemma bind_done {A B} (m : App A) (f : A -> App B) w a w' :
  m w = (Done a, w') -> bind m f w = f a w'.
Proof. unfold bind. now intros ->. Qed.

Lemma bind_halt {A B} (m : App A) (f : A -> App B) w c w' :
  m w = (Halt c, w') -> bind m f w = (Halt c, w').
Proof. unfold bind. now intros ->. Qed.

Lemma heap_lookup_new (h l : list Object) (i : nat) :
  ((h ++ l)%list) !! (i + length h)%nat = l !! i.
Proof. rewrite lookup_app_r by lia. f_equal. lia. Qed.

Lemma new_run o ss h tr sc :
  new o {| session_state := ss; heap := h; trace := tr; screen := sc |} =
    (Done (length h),
     {| session_state := ss; heap := (h ++ [o])%list;
        trace := (tr ++ [EvNew (length h) o])%list; screen := sc |}).
Proof. reflexivity. Qed.

Lemma mark_run name ss (h : list Object) marks rest tr sc :
  mark (length h) name
       {| session_state := ss; heap := (h ++ ProcessTimer marks :: rest)%list;
          trace := tr; screen := sc |} =
    (Done tt,
     {| session_state := ss;
        heap := (h ++ ProcessTimer (marks ++ [name]) :: rest)%list;
        trace := (tr ++ [EvMark (length h) name])%list; screen := sc |}).
Proof.
  unfold mark. cbn [heap session_state trace screen].
  rewrite list_lookup_middle by reflexivity.
  rewrite insert_app_r_alt by lia. rewrite Nat.sub_diag. reflexivity.
Qed.

Lemma processor_view_new (h : list Object) s k t marks :
  processor_view (h ++ turn_objects s (length h) k t marks)%list
                 (S (S (S (length h))))
  = Some (embedding_service s, retrieval_service s, augmenter s,
          generation_service s, turn_config k t).
Proof.
  unfold processor_view, turn_objects.
  rewrite (heap_lookup_new h _ 3). cbn [lookup list_lookup].
  rewrite (heap_lookup_new h _ 2). cbn [lookup list_lookup].
  rewrite (heap_lookup_new h _ 1). reflexivity.
Qed.

Lemma process_query_run env (h : list Object) s k t marks q ss tr sc :
  process_query env (S (S (S (length h)))) q
    {| session_state := ss; heap := (h ++ turn_objects s (length h) k t marks)%list;
       trace := tr; screen := sc |} =
    ((match turn_outcome env s q k t with
      | Returned r => Done r
      | Raised e => Halt (Exception e)
      end),
     {| session_state := ss; heap := (h ++ turn_objects s (length h) k t marks)%list;
        trace := (tr ++ [EvProcessQuery (S (S (S (length h)))) q
                                        (turn_outcome env s q k t)])%list;
        screen := sc |}).
Proof.
  unfold process_query. cbn [heap session_state trace screen].
  rewrite processor_view_new. fold (turn_outcome env s q k t).
  destruct (turn_outcome env s q k t); reflexivity.
Qed.

Lemma length_snoc {A} (l : list A) (x : A) : length (l ++ [x]) = S (length l).
Proof. rewrite length_app. simpl. lia. Qed.

End Run.

Ltac norm_world :=
  cbn [session_state heap trace screen];
  rewrite ?length_snoc; rewrite <- ?app_assoc; cbn [app].

(** ** One turn *)

Section Turn.
Variable env : Environment.

Lemma added_app w evs h sc ss :
  added w {| session_state := ss; heap := h; trace := (trace w ++ evs)%list;
             screen := sc |} = evs.
Proof. unfold added. cbn [trace]. apply drop_app_length. Qed.

Lemma base_services_run s w :
  session_state w !! "base_services" = Some (VServices s) ->
  base_services w = (Done s, w).
Proof.
  intros H. unfold base_services, get_attr, bind. rewrite H. reflexivity.
Qed.

Lemma base_services_halt w :
  (forall s, session_state w !! "base_services" <> Some (VServices s)) ->
  exists c, base_services w = (Halt c, w).
Proof.
  intros H. unfold base_services, get_attr, bind.
  destruct (session_state w !! "base_services") as [[]|]; eauto.
  exfalso. eapply H. reflexivity.
Qed.

(** Up to the return of the pipeline, with the marks. *)
Lemma process_user_query_prefix q k t w s :
  session_state w !! "base_services" = Some (VServices s) ->
  process_user_query env q k t w =
    let n := length (heap w) in
    let m := "RAG Processing Query" in
    match turn_outcome env s q k t with
    | Returned r =>
        chat_history_append {| user := q; bot := r |}
          {| session_state := session_state w;
             heap := (heap w ++ turn_objects s n k t [m; m])%list;
             trace := (trace w ++ turn_events env s n q k t ++ [EvMark n m])%list;
             screen := (screen w ++ [spinner])%list |}
    | Raised e =>
        (Halt (Exception e),
         {| session_state := session_state w;
            heap := (heap w ++ turn_objects s n k t [m])%list;
            trace := (trace w ++ turn_events env s n q k t)%list;
            screen := (screen w ++ [spinner])%list |})
    end.
Proof.
  intros Hs. destruct w as [ss hp tr sc].
  cbn [session_state heap trace screen] in *.
  unfold process_user_query.
  erewrite bind_done by reflexivity.
  erewrite bind_done by apply new_run.
  erewrite bind_done by reflexivity.
  erewrite bind_done by apply new_run.
  erewrite bind_done by apply new_run.
  erewrite bind_done by (apply base_services_run; exact Hs).
  erewrite bind_done by apply new_run.
  norm_world.
  erewrite bind_done by apply mark_run.
  unfold bind at 1.
  rewrite (process_query_run env hp s k t ["RAG Processing Query"]).
  cbv zeta. unfold turn_events, spinner.
  destruct (turn_outcome env s q k t) as [r|e];
    [|rewrite <- !app_assoc; reflexivity].
  unfold turn_objects at 1.
  erewrite bind_done by apply mark_run.
  unfold turn_objects. rewrite <- !app_assoc. reflexivity.
Qed.

(** The same without the marks. *)
Lemma process_user_query_unmarked_prefix q k t w s :
  session_state w !! "base_services" = Some (VServices s) ->
  process_user_query_unmarked env q k t w =
    let n := length (heap w) in
    match turn_outcome env s q k t with
    | Returned r =>
        chat_history_append {| user := q; bot := r |}
          {| session_state := session_state w;
             heap := (heap w ++ turn_objects s n k t [])%list;
             trace := (trace w ++ unmarked_events env s n q k t)%list;
             screen := (screen w ++ [spinner])%list |}
    | Raised e =>
        (Halt (Exception e),
         {| session_state := session_state w;
            heap := (heap w ++ turn_objects s n k t [])%list;
            trace := (trace w ++ unmarked_events env s n q k t)%list;
            screen := (screen w ++ [spinner])%list |})
    end.
Proof.
  intros Hs. destruct w as [ss hp tr sc].
  cbn [session_state heap trace screen] in *.
  unfold process_user_query_unmarked.
  erewrite bind_done by reflexivity.
  erewrite bind_done by apply new_run.
  erewrite bind_done by reflexivity.
  erewrite bind_done by apply new_run.
  erewrite bind_done by apply new_run.
  erewrite bind_done by (apply base_services_run; exact Hs).
  erewrite bind_done by apply new_run.
  norm_world.
  unfold bind at 1.
  rewrite (process_query_run env hp s k t []).
  cbv zeta. unfold unmarked_events, turn_events, spinner.
  cbn [List.filter is_mark negb].
  destruct (turn_outcome env s q k t) as [r|e]; rewrite <- !app_assoc; reflexivity.
Qed.

(** Without usable services both variants stop at the same point. *)
Lemma process_user_query_no_services q k t w :
  (forall s, session_state w !! "base_services" <> Some (VServices s)) ->
  process_user_query env q k t w = process_user_query_unmarked env q k t w.
Proof.
  intros H. destruct w as [ss hp tr sc].
  unfold process_user_query, process_user_query_unmarked.
  do 2 (erewrite bind_done by reflexivity;
        erewrite bind_done by apply new_run;
        erewrite bind_done by reflexivity;
        erewrite bind_done by apply new_run;
        erewrite bind_done by apply new_run;
        symmetry).
  match goal with
  | |- bind base_services _ ?w1 = _ =>
      destruct (base_services_halt w1) as [c Hc]; [exact H|]
  end.
  erewrite !bind_halt by exact Hc. reflexivity.
Qed.

Lemma chat_history_append_run e ss hp tr sc :
  chat_history_append e {| session_state := ss; heap := hp; trace := tr; screen := sc |} =
    match ss !! "chat_history" with
    | Some (VHistory h) =>
        (Done tt, {| session_state := <["chat_history" := VHistory (h ++ [e])]> ss;
                     heap := hp; trace := (tr ++ [EvAppend e])%list; screen := sc |})
    | Some _ =>
        (Halt (Exception (AttributeError "append")),
         {| session_state := ss; heap := hp; trace := tr; screen := sc |})
    | None =>
        (Halt (Exception (AttributeError "chat_history")),
         {| session_state := ss; heap := hp; trace := tr; screen := sc |})
    end.
Proof.
  unfold chat_history_append, get_attr, bind. cbn [session_state].
  destruct (ss !! "chat_history") as [[]|]; reflexivity.
Qed.

Lemma pipeline_calls_app tr1 tr2 :
  pipeline_calls (tr1 ++ tr2) = (pipeline_calls tr1 ++ pipeline_calls tr2)%list.
Proof.
  induction tr1 as [|[] tr1 IH]; cbn [pipeline_calls app]; congruence.
Qed.

Lemma appends_app tr1 tr2 : appends (tr1 ++ tr2) = (appends tr1 ++ appends tr2)%list.
Proof. induction tr1 as [|[] tr1 IH]; cbn [appends app]; congruence. Qed.

Lemma constructions_app tr1 tr2 :
  constructions (tr1 ++ tr2) = (constructions tr1 ++ constructions tr2)%list.
Proof. induction tr1 as [|[] tr1 IH]; cbn [constructions app]; congruence. Qed.

Lemma pipeline_calls_unmarked tr :
  pipeline_calls (List.filter (fun ev => negb (is_mark ev)) tr) = pipeline_calls tr.
Proof.
  induction tr as [|[] tr IH]; cbn [pipeline_calls List.filter is_mark negb];
    congruence.
Qed.

(** The pipeline itself writes neither the session state nor an entry. *)
Lemma process_query_frame p q w :
  session_state (snd (process_query env p q w)) = session_state w
  /\ heap (snd (process_query env p q w)) = heap w
  /\ appends (added w (snd (process_query env p q w))) = [].
Proof.
  unfold process_query. destruct (processor_view (heap w) p) as [[[[[e r] a] g] cfg]|].
  - destruct (pipeline env e r a g cfg q); cbn [snd session_state heap];
      rewrite added_app; auto.
  - cbn [snd]. unfold added. rewrite drop_all. auto.
Qed.

(** The whole call, when services and history are in place. *)
Lemma process_user_query_run q k t w s h :
  session_state w !! "base_services" = Some (VServices s) ->
  session_state w !! "chat_history" = Some (VHistory h) ->
  process_user_query env q k t w =
    let n := length (heap w) in
    let m := "RAG Processing Query" in
    match turn_outcome env s q k t with
    | Returned r =>
        (Done tt,
         {| session_state :=
              <["chat_history" := VHistory (h ++ [{| user := q; bot := r |}])]>
                (session_state w);
            heap := (heap w ++ turn_objects s n k t [m; m])%list;
            trace := (trace w ++ turn_events env s n q k t
                       ++ [EvMark n m; EvAppend {| user := q; bot := r |}])%list;
            screen := (screen w ++ [spinner])%list |})
    | Raised e =>
        (Halt (Exception e),
         {| session_state := session_state w;
            heap := (heap w ++ turn_objects s n k t [m])%list;
            trace := (trace w ++ turn_events env s n q k t)%list;
            screen := (screen w ++ [spinner])%list |})
    end.
Proof.
  intros Hs Hh. rewrite (process_user_query_prefix q k t w s Hs). cbv zeta.
  destruct (turn_outcome env s q k t) as [r|e]; [|reflexivity].
  rewrite chat_history_append_run, Hh. rewrite <- !app_assoc. reflexivity.
Qed.

End Turn.

Lemma construct_done env o w :
  constructor_error env o = None -> construct env o w = new o w.
Proof. intros H. unfold construct. rewrite H. reflexivity. Qed.

Lemma construct_halt env o e w :
  constructor_error env o = Some e -> construct env o w = (Halt (Exception e), w).
Proof. intros H. unfold construct. rewrite H. reflexivity. Qed.

(** One constructor call of [initialize_services], in both its outcomes. *)
Ltac construct_step :=
  rewrite ?length_snoc;
  lazymatch goal with
  | |- context [bind (construct ?env ?o) _ _] =>
      let E := fresh "E" in
      destruct (constructor_error env o) eqn:E;
      [ erewrite bind_halt by (apply construct_halt; exact E)
      | erewrite bind_done by (rewrite (construct_done _ _ _ E); apply new_run) ]
  end.

(** An attempt at initialisation: it constructs the services one after the
    other until a constructor raises, and completes when none does. *)
Lemma initialize_services_attempt env w :
  initialize_services env (load_environment_config env) w =
    (match init_error env (length (heap w)) with
     | None => Done (init_services (length (heap w)))
     | Some e => Halt (Exception e)
     end,
     {| session_state := session_state w;
        heap := (heap w ++ built env (init_objects env (length (heap w))))%list;
        trace := (trace w ++ EvCall "initialize_services"
                    :: news (length (heap w))
                            (built env (init_objects env (length (heap w)))))%list;
        screen := (screen w ++ {| kind := "spinner"; body := "Initializing LLM..." |}
                    :: match init_error env (length (heap w)) with
                       | None => [{| kind := "success";
                                     body := "LLM initialized: "
                                             ++ load_config env "inference_model" |}]
                       | Some _ => []
                       end)%list |}).
Proof.
  destruct w as [ss hp tr sc]. unfold initialize_services, init_error, init_objects.
  cbv zeta. cbn [session_state heap trace screen built first_error].
  erewrite bind_done by reflexivity.
  erewrite bind_done by reflexivity.
  cbn [session_state heap trace screen].
  do 7 (construct_step;
        [cbn [news]; rewrite <- ?app_assoc, ?app_nil_r; cbn [app]; reflexivity|]).
  erewrite bind_done by reflexivity.
  unfold ret. norm_world. reflexivity.
Qed.

Lemma initialize_services_run env w :
  init_error env (length (heap w)) = None ->
  initialize_services env (load_environment_config env) w =
    (Done (init_services (length (heap w))),
     {| session_state := session_state w;
        heap := (heap w ++ init_objects env (length (heap w)))%list;
        trace := (trace w ++ init_events env (length (heap w)))%list;
        screen := (screen w ++ init_screen env)%list |}).
Proof.
  intros H. rewrite initialize_services_attempt, H.
  assert (forall objs, first_error env objs = None -> built env objs = objs) as Hall.
  { induction objs as [|o objs IH]; cbn [first_error built]; [reflexivity|].
    destruct (constructor_error env o); [discriminate|]. intros E. rewrite IH; auto. }
  rewrite (Hall _ H). reflexivity.
Qed.

Lemma install_services_attempt env w :
  install_services env (load_environment_config env) w =
    (match init_error env (length (heap w)) with
     | None => Done tt
     | Some e => Halt (Exception e)
     end,
     {| session_state :=
          match init_error env (length (heap w)) with
          | None => <["base_services" := VServices (init_services (length (heap w)))]>
                      (session_state w)
          | Some _ => session_state w
          end;
        heap := (heap w ++ built env (init_objects env (length (heap w))))%list;
        trace := (trace w ++ EvCall "initialize_services"
                    :: news (length (heap w))
                            (built env (init_objects env (length (heap w)))))%list;
        screen := (screen w ++ {| kind := "spinner"; body := "Initializing LLM..." |}
                    :: match init_error env (length (heap w)) with
                       | None => [{| kind := "success";
                                     body := "LLM initialized: "
                                             ++ load_config env "inference_model" |}]
                       | Some _ => []
                       end)%list |}).
Proof.
  unfold install_services.
  destruct (init_error env (length (heap w))) as [e|] eqn:E.
  - erewrite bind_halt by (rewrite initialize_services_attempt, E; reflexivity).
    reflexivity.
  - erewrite bind_done by (rewrite initialize_services_attempt, E; reflexivity).
    reflexivity.
Qed.

Lemma install_services_run env w :
  init_error env (length (heap w)) = None ->
  install_services env (load_environment_config env) w =
    (Done tt,
     {| session_state :=
          <["base_services" := VServices (init_services (length (heap w)))]>
            (session_state w);
        heap := (heap w ++ init_objects env (length (heap w)))%list;
        trace := (trace w ++ init_events env (length (heap w)))%list;
        screen := (screen w ++ init_screen env)%list |}).
Proof.
  intros H. unfold install_services.
  erewrite bind_done by (apply initialize_services_run, H).
  reflexivity.
Qed.

Section Stability.
Variable allow : bool.
Variable env : Environment.

Lemma steps_trans w1 w2 w3 :
  steps allow env w1 w2 -> steps allow env w2 w3 -> steps allow env w1 w3.
Proof. apply rtc_trans. Qed.

Lemma steps_one w w' : step allow env w w' -> steps allow env w w'.
Proof. apply rtc_once. Qed.

(** An invariant of the steps is an invariant of the runs. *)
Lemma steps_invariant (I : World -> Prop) :
  (forall w w', I w -> step allow env w w' -> I w') ->
  forall w w', steps allow env w w' -> I w -> I w'.
Proof. intros Hstep w w'. induction 1; eauto. Qed.

Lemma ready_lookup w :
  ready w = true <->
  exists s h, session_state w !! "base_services" = Some (VServices s)
              /\ session_state w !! "chat_history" = Some (VHistory h).
Proof.
  unfold ready. split.
  - destruct (session_state w !! "base_services") as [[]|]; try discriminate.
    destruct (session_state w !! "chat_history") as [[]|]; try discriminate.
    eauto.
  - intros (s & h & -> & ->). reflexivity.
Qed.

Lemma turn_session q k t w :
  ready w = true ->
  exists s h,
    session_state w !! "base_services" = Some (VServices s)
    /\ session_state w !! "chat_history" = Some (VHistory h)
    /\ (session_state (snd (process_user_query env q k t w)) = session_state w
        \/ exists r,
             turn_outcome env s q k t = Returned r /\
             session_state (snd (process_user_query env q k t w)) =
               <["chat_history" := VHistory (h ++ [{| user := q; bot := r |}])]>
                 (session_state w)).
Proof.
  intros Hr. apply ready_lookup in Hr as (s & h & Hs & Hh).
  exists s, h. split; [exact Hs|]. split; [exact Hh|].
  rewrite (process_user_query_run env q k t w s h Hs Hh). cbv zeta.
  destruct (turn_outcome env s q k t) as [r|e]; [right; eauto | left; reflexivity].
Qed.

Ltac key_cases H :=
  repeat (apply orb_prop in H as [H | H]);
  apply String.eqb_eq in H; subst.

Lemma step_typed w w' :
  typed w = true -> step allow env w w' -> typed w' = true.
Proof.
  intros Ht Hstep.
  destruct Hstep as [k b|key v Hk|Hh|key Hk|Hs|q k t _ Hr _].
  - exact Ht.
  - unfold typed in *. cbn [set_item snd session_state].
    destruct v; try discriminate; cbn [widget_value] in Hk; key_cases Hk;
      rewrite !lookup_insert_ne by discriminate; try exact Ht.
    rewrite lookup_insert_eq.
    rewrite andb_true_r. apply andb_prop in Ht as [Ht _]. exact Ht.
  - unfold typed in *. cbn [set_item snd session_state].
    rewrite lookup_insert_eq, !lookup_insert_ne by discriminate.
    apply andb_prop in Ht as [Ht H3]. apply andb_prop in Ht as [_ H2].
    rewrite H2, H3. reflexivity.
  - unfold del_item. destruct (session_state w !! key) eqn:E; [|exact Ht].
    unfold typed in *. cbn [snd session_state]. unfold removable in Hk.
    key_cases Hk; rewrite ?lookup_delete_eq, !lookup_delete_ne by discriminate.
    + exact Ht.
    + apply andb_prop in Ht as [Ht _]. rewrite Ht. reflexivity.
  - rewrite install_services_attempt. unfold typed in *. cbn [snd session_state].
    destruct (init_error env (length (heap w))); [exact Ht|].
    rewrite lookup_insert_eq, !lookup_insert_ne by discriminate.
    apply andb_prop in Ht as [Ht H3]. apply andb_prop in Ht as [H1 _].
    rewrite H1, H3. reflexivity.
  - unfold typed in *.
    destruct (turn_session q k t w Hr) as (s & h & Hs & Hh & [-> | (r & _ & ->)]);
      [exact Ht|].
    rewrite lookup_insert_eq, !lookup_insert_ne by discriminate.
    apply andb_prop in Ht as [Ht H3]. apply andb_prop in Ht as [_ H2].
    rewrite H2, H3. reflexivity.
Qed.

Lemma steps_typed w w' : steps allow env w w' -> typed w = true -> typed w' = true.
Proof. apply (steps_invariant (fun w => typed w = true)), step_typed. Qed.

End Stability.

(** ** The script moves by steps only *)

Section Sound.
Variable allow : bool.
Variable env : Environment.
Local Abbreviation sound := (sound allow env).

Lemma sound_bind {A B} P Q R (m : App A) (f : A -> App B) :
  sound P m Q -> (forall a, sound (Q a) (f a) R) -> sound P (bind m f) R.
Proof.
  intros Hm Hf w Ht HP. destruct (Hm w Ht HP) as [Hs Hq].
  unfold bind. destruct (m w) as [[a|c] w1]; cbn [fst snd] in *.
  - assert (typed w1 = true) as Ht1 by (eapply steps_typed; eauto).
    destruct (Hf a w1 Ht1 Hq) as [Hs2 Hr].
    split; [eapply steps_trans; eauto | exact Hr].
  - split; [exact Hs | exact Hq].
Qed.

Lemma sound_weaken {A} (P P' : Assertion) (Q Q' : A -> Assertion) (m : App A) :
  sound P m Q -> (forall ss, P' ss -> P ss) -> (forall a ss, Q a ss -> Q' a ss) ->
  sound P' m Q'.
Proof.
  intros Hm HP HQ w Ht Hp. destruct (Hm w Ht (HP _ Hp)) as [Hs Hq].
  split; [exact Hs|]. destruct (fst (m w)) as [a|[]]; auto.
Qed.

Lemma sound_ret {A} (P : Assertion) (Q : A -> Assertion) (a : A) :
  (forall ss, P ss -> Q a ss) -> sound P (ret a) Q.
Proof. intros HQ w _ HP. split; [apply rtc_refl | apply HQ, HP]. Qed.

Lemma sound_stop {A} (P : Assertion) (Q : A -> Assertion) : sound P st_stop Q.
Proof. intros w _ _. split; [apply rtc_refl | exact I]. Qed.

Lemma sound_rerun {A} (P : Assertion) (Q : A -> Assertion) : sound P st_rerun Q.
Proof. intros w _ _. split; [apply rtc_refl | exact I]. Qed.

Lemma sound_render (P : Assertion) k b : sound P (render k b) (fun _ => P).
Proof.
  intros w _ HP. split; [|exact HP].
  apply steps_one, step_render.
Qed.

Lemma sound_contains (P : Assertion) key :
  sound P (contains key)
        (fun b ss => P ss /\ b = bool_decide (is_Some (ss !! key))).
Proof. intros w _ HP. split; [apply rtc_refl | split; [exact HP | reflexivity]]. Qed.

Lemma sound_get_item (P : Assertion) key :
  (forall ss, P ss -> is_Some (ss !! key)) ->
  sound P (get_item key) (fun v ss => P ss /\ ss !! key = Some v).
Proof.
  intros Hk w _ HP. destruct (Hk _ HP) as [v Hv].
  unfold get_item. rewrite Hv. split; [apply rtc_refl | split; assumption].
Qed.

Lemma sound_get_attr (P : Assertion) key :
  (forall ss, P ss -> is_Some (ss !! key)) ->
  sound P (get_attr key) (fun v ss => P ss /\ ss !! key = Some v).
Proof.
  intros Hk w _ HP. destruct (Hk _ HP) as [v Hv].
  unfold get_attr. rewrite Hv. split; [apply rtc_refl | split; assumption].
Qed.

Lemma sound_set_item (P : Assertion) key v :
  widget_value key v = true ->
  sound P (set_item key v) (fun _ ss' => exists ss, P ss /\ ss' = <[key := v]> ss).
Proof.
  intros Hk w _ HP. split; [|cbn; eauto].
  apply steps_one, step_widget, Hk.
Qed.

Lemma sound_del_attr (P : Assertion) key :
  removable key = true ->
  (forall ss, P ss -> is_Some (ss !! key)) ->
  sound P (del_attr key) (fun _ ss' => exists ss, P ss /\ ss' = delete key ss).
Proof.
  intros Hk Hp w _ HP. destruct (Hp _ HP) as [v Hv].
  pose proof (steps_one allow env _ _ (step_delete allow env w key Hk)) as Hs.
  unfold del_item in Hs. unfold del_attr. rewrite Hv in *.
  split; [exact Hs | cbn; eauto].
Qed.

Lemma sound_if {A} (P : Assertion) (Q : A -> Assertion) (b : bool) (m1 m2 : App A) :
  (b = true -> sound P m1 Q) -> (b = false -> sound P m2 Q) ->
  sound P (if b then m1 else m2) Q.
Proof. destruct b; auto. Qed.

End Sound.

(** ** The blocks of [main] *)

Section Blocks.
Variable allow : bool.
Variable env : Environment.
Local Abbreviation sound := (sound allow env).

Lemma sound_any {A} (P : Assertion) (Q : A -> Assertion) (m : App A) :
  sound P m Q -> sound P m (fun _ => anything).
Proof. intros H. eapply sound_weaken; [exact H | auto | intros; exact I]. Qed.

Lemma sound_assume {A} (P : Assertion) (Q : A -> Assertion) (m : App A) (fact : Prop) :
  (fact -> sound P m Q) -> sound (fun ss => P ss /\ fact) m Q.
Proof. intros H w Ht [HP Hf]. exact (H Hf w Ht HP). Qed.

Lemma bind_assoc {A B C} (m : App A) (f : A -> App B) (g : B -> App C) w :
  bind (bind m f) g w = bind m (fun x => bind (f x) g) w.
Proof. unfold bind. destruct (m w) as [[a|c] w1]; reflexivity. Qed.

Lemma sound_assoc {A B C} P (Q : C -> Assertion)
    (m : App A) (f : A -> App B) (g : B -> App C) :
  sound P (bind (bind m f) g) Q -> sound P (bind m (fun x => bind (f x) g)) Q.
Proof. intros H w Ht HP. rewrite <- bind_assoc. exact (H w Ht HP). Qed.

Lemma sound_setup_page_config (P : Assertion) :
  sound P setup_page_config (fun _ => P).
Proof.
  unfold setup_page_config.
  eapply sound_bind; [apply sound_render | intros ?].
  eapply sound_bind; [apply sound_render | intros ?].
  apply sound_render.
Qed.

Lemma sound_display_footer (P : Assertion) : sound P display_footer (fun _ => P).
Proof.
  unfold display_footer.
  eapply sound_bind; [apply sound_render | intros ?]. apply sound_render.
Qed.

Lemma sound_display_exchanges (P : Assertion) h :
  sound P (display_exchanges h) (fun _ => P).
Proof.
  induction h as [|e h IH]; cbn [display_exchanges]; [apply sound_ret; auto|].
  do 4 (eapply sound_bind; [apply sound_render | intros ?]). exact IH.
Qed.

Lemma sound_text_input (P : Assertion) label key :
  widget_value key (VStr "") = true ->
  sound P (text_input label key) (fun _ => anything).
Proof.
  intros Hk. unfold text_input.
  eapply sound_bind; [apply sound_contains | intros present].
  eapply sound_bind; [|intros ?; apply sound_render].
  apply sound_if; intros _.
  - apply sound_ret. intros; exact I.
  - eapply sound_any, sound_set_item, Hk.
Qed.

Lemma sound_check_authentication (P : Assertion) u p :
  sound P (check_authentication u p) (fun _ => P).
Proof.
  unfold check_authentication.
  eapply sound_bind; [apply sound_contains | intros known].
  apply sound_if; intros Hk.
  - eapply sound_bind.
    + apply sound_get_item. intros ss [_ H]. rewrite Hk in H. symmetry in H.
      apply bool_decide_eq_true in H. exact H.
    + intros v. apply sound_if; intros _.
      * eapply sound_bind; [apply sound_render | intros ?; apply sound_stop].
      * apply sound_ret. intros ss [[H _] _]. exact H.
  - eapply sound_bind; [apply sound_text_input; reflexivity | intros ?].
    eapply sound_bind; [apply sound_text_input; reflexivity | intros ?].
    apply sound_stop.
Qed.

Lemma typed_history w v :
  typed w = true -> session_state w !! "chat_history" = Some v ->
  exists h, v = VHistory h.
Proof.
  unfold typed. intros H E. rewrite E in H. destruct v; try discriminate. eauto.
Qed.

Lemma typed_services w v :
  typed w = true -> session_state w !! "base_services" = Some v ->
  exists s, v = VServices s.
Proof.
  unfold typed. intros H E. rewrite E in H. destruct v; try discriminate.
  - rewrite andb_false_r in H. discriminate.
  - rewrite andb_false_r in H. discriminate.
  - rewrite andb_false_r in H. discriminate.
  - eauto.
Qed.

Lemma typed_selected w v :
  typed w = true -> session_state w !! "selected_question" = Some v ->
  exists q, v = VStr q.
Proof.
  unfold typed. intros H E. rewrite E in H. destruct v; try (rewrite andb_false_r in H; discriminate). eauto.
Qed.

Lemma absent_key (ss : gmap string Value) key :
  false = bool_decide (is_Some (ss !! key)) -> ss !! key = None.
Proof.
  intros H. symmetry in H. apply bool_decide_eq_false in H.
  destruct (ss !! key); [exfalso; eauto | reflexivity].
Qed.

Lemma present_key (ss : gmap string Value) key :
  true = bool_decide (is_Some (ss !! key)) -> is_Some (ss !! key).
Proof. intros H. symmetry in H. apply bool_decide_eq_true in H. exact H. Qed.

(** [if "chat_history" not in st.session_state: ...] *)
Lemma sound_history_block :
  sound anything
    (has <- contains "chat_history" ;;
     if has : bool then ret tt else set_item "chat_history" (VHistory []))%app
    (fun _ => has_history).
Proof.
  eapply sound_bind; [apply sound_contains | intros has].
  apply sound_if; intros ->; intros w Ht [_ H];
    unfold ret, set_item; cbn [fst snd session_state].
  - apply present_key in H as [v E].
    split; [apply rtc_refl|].
    destruct (typed_history w v Ht E) as [h ->]. exists h. exact E.
  - apply absent_key in H. split.
    + apply steps_one, step_history, H.
    + exists []. apply lookup_insert_eq.
Qed.

(** [if "base_services" not in st.session_state: ...] *)
Lemma sound_services_block :
  sound has_history
    (has <- contains "base_services" ;;
     if has : bool then ret tt
     else install_services env (load_environment_config env))%app
    (fun _ => is_ready).
Proof.
  eapply sound_bind; [apply sound_contains | intros has].
  apply sound_if; intros ->; intros w Ht [[h Hh] H].
  - apply present_key in H as [v E]. unfold ret. cbn [fst snd session_state].
    split; [apply rtc_refl|].
    destruct (typed_services w v Ht E) as [s ->]. split; eauto.
  - apply absent_key in H. split; [apply steps_one, step_init, H|].
    rewrite install_services_attempt. cbn [fst snd session_state].
    destruct (init_error env (length (heap w))); [exact I|].
    split; [eexists; apply lookup_insert_eq|].
    exists h. rewrite lookup_insert_ne by discriminate. exact Hh.
Qed.

Lemma sound_question_buttons (P : Assertion) fe question_list :
  sound P (question_buttons fe question_list) (fun _ => P).
Proof.
  induction question_list as [|question rest IH]; cbn [question_buttons].
  - apply sound_ret. auto.
  - eapply sound_bind; [|intros pressed; eapply sound_bind; [|intros ?; exact IH]].
    + unfold st_button. eapply sound_bind; [apply sound_render | intros ?].
      apply (sound_ret allow env P (fun _ => P)). auto.
    + apply sound_if; intros _.
      * eapply sound_bind; [apply sound_set_item; reflexivity | intros ?].
        apply sound_rerun.
      * apply sound_ret. auto.
Qed.

Lemma sound_question_categories (P : Assertion) fe items :
  sound P (question_categories fe items) (fun _ => P).
Proof.
  induction items as [|[category question_list] rest IH];
    cbn [question_categories].
  - apply sound_ret. auto.
  - eapply sound_bind; [apply sound_render | intros ?].
    eapply sound_bind; [apply sound_question_buttons | intros ?].
    eapply sound_bind; [apply sound_render | intros ?]. exact IH.
Qed.

Lemma sound_slider {A} (P : Assertion) label (inside : A -> bool) value position :
  inside value = true ->
  sound P (slider label inside value position)
        (fun v ss => P ss /\ inside v = true).
Proof.
  intros Hv. unfold slider. eapply sound_bind; [apply sound_render | intros ?].
  apply sound_ret. intros ss HP. split; [exact HP|].
  destruct position as [v|]; [|exact Hv].
  destruct (inside v) eqn:E; [exact E | exact Hv].
Qed.

Lemma sound_setup_sidebar (P : Assertion) fe :
  sound P (setup_sidebar fe)
        (fun settings ss => P ss /\ in_range (fst settings) (snd settings) = true).
Proof.
  unfold setup_sidebar.
  eapply sound_bind; [apply sound_render | intros ?].
  eapply sound_bind; [apply sound_render | intros ?].
  eapply sound_bind; [apply sound_question_categories | intros ?].
  eapply sound_bind; [apply sound_render | intros ?].
  eapply sound_bind; [apply sound_render | intros ?].
  eapply sound_bind; [apply sound_slider; reflexivity | intros top_k].
  eapply sound_bind; [apply sound_slider; reflexivity | intros threshold].
  apply sound_ret. intros ss [[HP Hk] Ht]. split; [exact HP|].
  unfold in_range. cbn [fst snd]. cbv beta in Hk, Ht.
  apply andb_prop in Hk as [-> ->]. exact Ht.
Qed.

Lemma sound_display_chat_history (P : Assertion) :
  (forall ss, P ss -> is_ready ss) ->
  sound P display_chat_history (fun _ => P).
Proof.
  intros Hr. unfold display_chat_history.
  eapply sound_bind.
  - apply sound_get_attr. intros ss HP. destruct (Hr ss HP) as [_ [h ->]]. eauto.
  - intros v w Ht [HP Hv]. destruct (typed_history w v Ht Hv) as [h ->].
    apply sound_display_exchanges; assumption.
Qed.

(** A turn is an action when questions are answered. *)
Lemma sound_turn q k t :
  allow = true -> in_range k t = true ->
  sound (fun ss => is_ready ss /\ unselected ss)
        (process_user_query env q k t)
        (fun _ ss => is_ready ss /\ unselected ss).
Proof.
  intros Ha Hk w Ht [[[s Hs] [h Hh]] Hu].
  assert (ready w = true) as Hr by (apply ready_lookup; eauto).
  split; [apply steps_one, step_turn; assumption|].
  rewrite (process_user_query_run env q k t w s h Hs Hh). cbv zeta.
  destruct (turn_outcome env s q k t) as [r|e]; cbn [fst snd session_state];
    [|exact I].
  unfold is_ready, unselected.
  rewrite lookup_insert_eq, !lookup_insert_ne by discriminate. eauto.
Qed.

Hypothesis Hallow : allow = truthy (api_key (load_environment_config env)).

(** [if "selected_question" in st.session_state: ...] *)
Lemma sound_selection_block k t :
  in_range k t = true ->
  sound is_ready
    (selected <- contains "selected_question" ;;
     if selected : bool then
       selected_question <- get_attr "selected_question" ;;
       del_attr "selected_question" ;;
       if truthy (api_key (load_environment_config env)) then
         question <- as_str selected_question ;;
         process_user_query env question k t
       else ret tt
     else ret tt)%app
    (fun _ ss => is_ready ss /\ unselected ss).
Proof.
  intros Hk.
  eapply sound_bind; [apply sound_contains | intros selected].
  apply sound_if; intros ->.
  - eapply sound_bind with
      (Q := fun v ss => is_ready ss /\ (exists q, v = VStr q)
                        /\ is_Some (ss !! "selected_question")).
    + intros w Ht [Hr H]. apply present_key in H as [v E].
      unfold get_attr. rewrite E. cbn [fst snd].
      split; [apply rtc_refl|].
      split; [exact Hr|]. split; [eapply typed_selected; eauto | eauto].
    + intros v. eapply sound_bind.
      * apply sound_del_attr; [reflexivity|]. intros ss (_ & _ & H). exact H.
      * intros ?.
        eapply sound_weaken with
          (P := fun ss => (is_ready ss /\ unselected ss) /\ exists q, v = VStr q);
          [|intros ss' (ss & (Hr & Hq & _) & ->) | intros ? ss H; exact H].
        -- apply sound_assume. intros [q ->].
           apply sound_if; intros Ek.
           ++ cbn [as_str].
              eapply sound_bind;
                [apply (sound_ret allow env _
                          (fun _ ss => is_ready ss /\ unselected ss)); auto
                | intros question].
              apply sound_turn; [congruence | exact Hk].
           ++ apply sound_ret. auto.
        -- split; [|exact Hq].
           unfold is_ready, unselected in *.
           rewrite lookup_delete_eq, !lookup_delete_ne by discriminate.
           split; [exact Hr | reflexivity].
  - apply sound_ret. intros ss [Hr H]. apply absent_key in H. split; assumption.
Qed.

(** [if user_input and config["api_key"]: ...] *)
Lemma sound_chat_block fe k t :
  in_range k t = true ->
  sound (fun ss => is_ready ss /\ unselected ss)
    (match chat_input fe with
     | Some user_input =>
         if negb (String.eqb user_input "")
            && truthy (api_key (load_environment_config env)) then
           process_user_query env user_input k t
         else ret tt
     | None => ret tt
     end)
    (fun _ ss => is_ready ss /\ unselected ss).
Proof.
  intros Hk. destruct (chat_input fe) as [user_input|]; [|apply sound_ret; auto].
  apply sound_if; intros H; [|apply sound_ret; auto].
  apply andb_prop in H as [_ H]. apply sound_turn; [congruence | exact Hk].
Qed.

(** The whole script. *)
Lemma sound_main fe :
  sound anything (main env fe) (fun _ => unselected).
Proof.
  unfold main. cbv zeta.
  eapply sound_bind; [apply sound_setup_page_config | intros ?].
  eapply sound_bind; [apply sound_check_authentication | intros ?].
  apply sound_assoc.
  eapply sound_bind; [apply sound_history_block | intros ?].
  apply sound_assoc.
  eapply sound_bind; [apply sound_services_block | intros ?].
  eapply sound_bind; [apply sound_setup_sidebar | intros settings].
  apply sound_assume. intros Hk.
  apply sound_assoc.
  eapply sound_bind; [apply sound_selection_block, Hk | intros ?].
  eapply sound_bind; [apply sound_render | intros ?].
  eapply sound_bind; [apply sound_chat_block, Hk | intros ?].
  eapply sound_bind;
    [apply (sound_display_chat_history (fun ss => is_ready ss /\ unselected ss));
     intros ss [H _]; exact H
    | intros ?].
  apply (sound_weaken allow env (fun ss => is_ready ss /\ unselected ss) _
           (fun _ ss => is_ready ss /\ unselected ss) (fun _ => unselected));
    [apply sound_display_footer | auto | intros _ ss [_ H]; exact H].
Qed.

End Blocks.

(** ** The login callback *)

Section Login.

Lemma get_item_run key v w :
  session_state w !! key = Some v -> get_item key w = (Done v, w).
Proof. intros H. unfold get_item. rewrite H. reflexivity. Qed.

Lemma password_entered_run xu xp eu ep w :
  session_state w !! "username" = Some (VStr eu) ->
  session_state w !! "password" = Some (VStr ep) ->
  password_entered (Some xu) (Some xp) w =
    (Done tt,
     {| session_state :=
          if digest_match eu ep xu xp
          then delete "password" (<["password_correct" := VBool true]> (session_state w))
          else <["password_correct" := VBool false]> (session_state w);
        heap := heap w; trace := trace w; screen := screen w |}).
Proof.
  intros Hu Hp. unfold password_entered.
  erewrite bind_done by (apply get_item_run, Hu).
  erewrite bind_done by (apply get_item_run, Hp).
  erewrite bind_done by reflexivity.
  erewrite bind_done by reflexivity.
  cbv zeta. fold (digest_match eu ep xu xp).
  destruct (digest_match eu ep xu xp).
  - erewrite bind_done by reflexivity.
    unfold del_item. cbn [session_state heap trace screen].
    rewrite lookup_insert_ne by discriminate. rewrite Hp. reflexivity.
  - reflexivity.
Qed.

Lemma password_entered_unset username password eu ep w :
  session_state w !! "username" = Some (VStr eu) ->
  session_state w !! "password" = Some (VStr ep) ->
  username = None \/ password = None ->
  password_entered username password w = (Halt (Exception TypeError), w).
Proof.
  intros Hu Hp Hn. unfold password_entered.
  erewrite bind_done by (apply get_item_run, Hu).
  erewrite bind_done by (apply get_item_run, Hp).
  erewrite bind_done by reflexivity.
  erewrite bind_done by reflexivity.
  destruct Hn as [-> | ->]; [reflexivity|]. destruct username; reflexivity.
Qed.

Lemma entered_username eu ep w :
  session_state (entered eu ep w) !! "username" = Some (VStr eu).
Proof.
  cbn [entered session_state]. rewrite lookup_insert_ne by discriminate.
  apply lookup_insert_eq.
Qed.

Lemma entered_password eu ep w :
  session_state (entered eu ep w) !! "password" = Some (VStr ep).
Proof. cbn [entered session_state]. apply lookup_insert_eq. Qed.

Lemma callback_run username password eu ep w :
  (set_item "username" (VStr eu) ;; set_item "password" (VStr ep) ;;
   password_entered username password) w
  = password_entered username password (entered eu ep w).
Proof.
  erewrite bind_done by reflexivity. erewrite bind_done by reflexivity.
  reflexivity.
Qed.

Lemma steps_entered allow env eu ep w : steps allow env w (entered eu ep w).
Proof.
  eapply rtc_l; [apply (step_widget allow env w "username" (VStr eu)); reflexivity|].
  eapply rtc_l; [apply (step_widget allow env _ "password" (VStr ep)); reflexivity|].
  apply rtc_refl.
Qed.

Lemma deliver_credentials_steps allow env u p w :
  steps allow env w (snd (deliver_credentials env u p w)).
Proof.
  unfold deliver_credentials. cbv zeta. rewrite callback_run.
  eapply steps_trans; [apply steps_entered|].
  pose proof (entered_username u p w) as Hu.
  pose proof (entered_password u p w) as Hp.
  destruct (demo_username (load_environment_config env)) as [xu|] eqn:Exu;
    [destruct (demo_password (load_environment_config env)) as [xp|] eqn:Exp|].
  - rewrite (password_entered_run xu xp u p _ Hu Hp). cbn [snd].
    destruct (digest_match u p xu xp).
    + eapply rtc_l;
        [apply (step_widget allow env _ "password_correct" (VBool true)); reflexivity|].
      eapply rtc_l; [apply (step_delete allow env _ "password"); reflexivity|].
      unfold del_item, set_item. cbn [snd session_state heap trace screen].
      rewrite lookup_insert_ne by discriminate. rewrite Hp.
      apply rtc_refl.
    + apply steps_one.
      apply (step_widget allow env _ "password_correct" (VBool false)). reflexivity.
  - rewrite (password_entered_unset _ _ u p _ Hu Hp) by auto. apply rtc_refl.
  - rewrite (password_entered_unset _ _ u p _ Hu Hp) by auto. apply rtc_refl.
Qed.

End Login.

(** ** Sessions *)

Section Sessions.
Variable env : Environment.

Lemma script_run_steps fe w :
  typed w = true -> steps (answering env) env w (script_run env fe w).
Proof.
  intros Ht. unfold script_run.
  assert (exists w1, w1 = match credentials fe with
                          | Some (u, p) => snd (deliver_credentials env u p w)
                          | None => w
                          end /\ steps (answering env) env w w1) as (w1 & <- & Hs1).
  { eexists. split; [reflexivity|].
    destruct (credentials fe) as [[u p]|];
      [apply deliver_credentials_steps | apply rtc_refl]. }
  eapply steps_trans; [exact Hs1|].
  apply (sound_main (answering env) env eq_refl fe w1);
    [eapply steps_typed; eauto | exact I].
Qed.

Lemma session_snoc runs fe :
  session env (runs ++ [fe]) = script_run env fe (session env runs).
Proof. unfold session. rewrite fold_left_app. reflexivity. Qed.

Lemma session_steps runs :
  steps (answering env) env empty_world (session env runs)
  /\ typed (session env runs) = true.
Proof.
  induction runs as [|fe runs IH] using rev_ind.
  - split; [apply rtc_refl | reflexivity].
  - destruct IH as [Hs Ht]. rewrite session_snoc.
    assert (steps (answering env) env empty_world (script_run env fe (session env runs))) as H.
    { eapply steps_trans; [exact Hs | apply script_run_steps, Ht]. }
    split; [exact H | eapply steps_typed; [exact H | reflexivity]].
Qed.

End Sessions.

(** ** The login gate *)

(** C10. When the check succeeds, [password_correct] is True and the
    [password] key is gone from the session state; when it fails,
    [password_correct] is False and the entered password is still there. *)
Theorem password_kept_only_on_failure (xu xp eu ep : string) (w : World) :
  session_state w !! "username" = Some (VStr eu) ->
  session_state w !! "password" = Some (VStr ep) ->
  let w' := snd (password_entered (Some xu) (Some xp) w) in
  (session_state w' !! "password_correct" = Some (VBool true) ->
   session_state w' !! "password" = None)
  /\ (digest_match eu ep xu xp = true ->
      session_state w' !! "password_correct" = Some (VBool true)
      /\ session_state w' !! "password" = None)
  /\ (digest_match eu ep xu xp = false ->
      session_state w' !! "password_correct" = Some (VBool false)
      /\ session_state w' !! "password" = Some (VStr ep)).
Proof.
  intros Hu Hp. cbv zeta. rewrite (password_entered_run xu xp eu ep w Hu Hp).
  cbn [snd session_state].
  destruct (digest_match eu ep xu xp).
  - rewrite lookup_delete_eq, lookup_delete_ne, lookup_insert_eq by discriminate.
    repeat split; auto; discriminate.
  - rewrite lookup_insert_eq, lookup_insert_ne, Hp by discriminate.
    repeat split; auto; discriminate.
Qed.

Lemma password_kept_only_on_failure_witness :
  let w := entered "ab" "c" empty_world in
  session_state w !! "username" = Some (VStr "ab")
  /\ session_state w !! "password" = Some (VStr "c")
  /\ session_state (snd (password_entered (Some "a") (Some "bc") w)) !! "password" = None
  /\ session_state (snd (password_entered (Some "a") (Some "zz") w)) !! "password"
     = Some (VStr "c").
Proof.
  cbv zeta.
  pose proof (entered_username "ab" "c" empty_world) as Hu.
  pose proof (entered_password "ab" "c" empty_world) as Hp.
  split; [exact Hu|]. split; [exact Hp|]. split.
  - apply (password_kept_only_on_failure "a" "bc" "ab" "c" _ Hu Hp).
    vm_compute. reflexivity.
  - apply (password_kept_only_on_failure "a" "zz" "ab" "c" _ Hu Hp).
    vm_compute. reflexivity.
Defined.

Section Gate.

Lemma check_authentication_known username password b w :
  session_state w !! "password_correct" = Some (VBool b) ->
  fst (check_authentication username password w)
  = if b then Done tt else Halt StopScript.
Proof.
  intros H. unfold check_authentication.
  erewrite bind_done;
    [|unfold contains; rewrite H, bool_decide_eq_true_2 by eauto; reflexivity].
  cbv beta iota.
  erewrite bind_done by (apply get_item_run, H).
  destruct b; reflexivity.
Qed.

(** When the password field has changed, the callback decides. *)
Lemma accepts_fired xu xp eu ep w :
  String.eqb ep (password_field w) = false ->
  accepts (Some xu) (Some xp) eu ep w = digest_match eu ep xu xp.
Proof.
  intros Hfire. unfold accepts, login. rewrite Hfire.
  erewrite bind_done by reflexivity.
  erewrite bind_done.
  2: { erewrite bind_done by reflexivity.
       apply password_entered_run; [apply (entered_username eu ep w)
                                   | apply (entered_password eu ep w)]. }
  destruct (digest_match eu ep xu xp).
  - rewrite (check_authentication_known _ _ true); [reflexivity|].
    cbn [session_state]. rewrite lookup_delete_ne by discriminate.
    apply lookup_insert_eq.
  - rewrite (check_authentication_known _ _ false); [reflexivity|].
    cbn [session_state]. apply lookup_insert_eq.
Qed.

(** When it has not, nothing runs, and the gate of a fresh form stays
    closed. *)
Lemma accepts_unfired username password eu ep w :
  String.eqb ep (password_field w) = true ->
  session_state w !! "password_correct" = None ->
  accepts username password eu ep w = false.
Proof.
  intros Hsame Hnone. unfold accepts, login. rewrite Hsame.
  erewrite bind_done by reflexivity.
  erewrite bind_done by reflexivity.
  unfold check_authentication.
  erewrite bind_done.
  2: { unfold contains. cbn [set_item snd session_state].
       rewrite lookup_insert_ne, Hnone, bool_decide_eq_false_2 by
         (discriminate || (intros [? ?]; discriminate)).
       reflexivity. }
  cbv beta iota. unfold bind.
  destruct (text_input "Username" "username" _) as [[[]|c] w1] eqn:E1;
    [|reflexivity].
  destruct (text_input "Password" "password" w1) as [[[]|c] w2] eqn:E2; reflexivity.
Qed.

End Gate.

(** ** SHA-256 collides *)

Section Collisions.
Import Sha256.

Lemma words_length alphabet n :
  length (words alphabet n) = (length alphabet ^ n)%nat.
Proof.
  induction n as [|n IH]; [reflexivity|].
  cbn [words]. rewrite Nat.pow_succ_r', <- IH. clear IH.
  generalize (words alphabet n). intros ws.
  induction alphabet as [|c rest IHa]; [reflexivity|].
  cbn [flat_map length]. rewrite length_app, length_map, IHa. lia.
Qed.

Lemma words_In alphabet n (w : list ascii) :
  length w = n -> List.Forall (fun c => List.In c alphabet) w ->
  List.In w (words alphabet n).
Proof.
  revert w. induction n as [|n IH]; intros [|c w] Hlen Hall; try discriminate Hlen.
  - left. reflexivity.
  - apply List.Forall_cons_iff in Hall as [Hc Hw].
    cbn [words]. apply in_flat_map. exists c. split; [exact Hc|].
    apply in_map, IH; [|exact Hw]. cbn in Hlen. lia.
Qed.

Lemma words_nonempty alphabet n (w : list ascii) :
  List.In w (words alphabet (S n)) -> w <> [].
Proof.
  cbn [words]. rewrite in_flat_map. intros (c & _ & H).
  apply in_map_iff in H as (rest & <- & _). discriminate.
Qed.

Lemma words_NoDup alphabet n : List.NoDup alphabet -> List.NoDup (words alphabet n).
Proof.
  intros Ha. induction n as [|n IH]; [repeat constructor; intros []|].
  cbn [words]. revert IH. generalize (words alphabet n). intros ws Hws.
  induction Ha as [|c rest Hc Hrest IHa]; [constructor|].
  cbn [flat_map]. apply List.NoDup_app.
  - apply List.NoDup_map_NoDup_ForallPairs; [|exact Hws].
    intros x y _ _ [= ->]. reflexivity.
  - exact IHa.
  - intros w Hw Hw'. apply in_map_iff in Hw as (x & <- & _).
    apply in_flat_map in Hw' as (c' & Hc' & Hw').
    apply in_map_iff in Hw' as (y & [= -> _] & _). contradiction.
Qed.

Lemma words_upto_In alphabet n (w : list ascii) :
  (length w <= n)%nat -> List.Forall (fun c => List.In c alphabet) w ->
  List.In w (words_upto alphabet n).
Proof.
  induction n as [|n IH]; intros Hlen Hall; cbn [words_upto].
  - apply words_In; [lia | exact Hall].
  - apply in_or_app. destruct (Nat.eq_dec (length w) (S n)) as [E|E].
    + right. apply words_In; assumption.
    + left. apply IH; [lia | exact Hall].
Qed.

Lemma words_upto_length alphabet n :
  (2 <= length alphabet)%nat ->
  (length (words_upto alphabet n) < length alphabet ^ S n)%nat.
Proof.
  intros Ha. induction n as [|n IH]; cbn [words_upto].
  - rewrite words_length, Nat.pow_0_r, Nat.pow_1_r. lia.
  - rewrite length_app, words_length.
    rewrite (Nat.pow_succ_r' _ (S n)).
    set (p := (length alphabet ^ S n)%nat) in *. nia.
Qed.

(** A function is one-to-one on a list without repetitions, or two of its
    members have the same image. *)
Lemma collision_or_NoDup {X} (f : X -> list ascii) (l : list X) :
  List.NoDup l ->
  (exists x y, List.In x l /\ List.In y l /\ x <> y /\ f x = f y)
  \/ List.NoDup (map f l).
Proof.
  induction 1 as [|x l Hx Hl IH]; [right; constructor|].
  destruct IH as [(a & b & Ha & Hb & Hab & Hf)|IH].
  { left. exists a, b. cbn. auto. }
  destruct (List.in_dec (List.list_eq_dec ascii_dec) (f x) (map f l)) as [Hin|Hout].
  - left. apply in_map_iff in Hin as (y & Hy & Hin).
    exists x, y. cbn. repeat split; auto. intros ->. contradiction.
  - right. constructor; assumption.
Qed.

(** Pigeonhole: a function that maps strings to strings of at most [n]
    characters over the alphabet sends two different strings of [n + 1]
    characters to the same one. *)
Lemma two_words_collide alphabet n (f : list ascii -> list ascii) :
  List.NoDup alphabet -> (2 <= length alphabet)%nat ->
  (forall w, (length (f w) <= n)%nat
             /\ List.Forall (fun c => List.In c alphabet) (f w)) ->
  exists x y,
    List.In x (words alphabet (S n)) /\ List.In y (words alphabet (S n))
    /\ x <> y /\ f x = f y.
Proof.
  intros Hnd Hsize Hrange.
  destruct (collision_or_NoDup f (words alphabet (S n)) (words_NoDup _ _ Hnd))
    as [H|H]; [exact H|].
  exfalso.
  assert (List.incl (map f (words alphabet (S n))) (words_upto alphabet n)) as Hincl.
  { intros w Hw. apply in_map_iff in Hw as (x & <- & _).
    destruct (Hrange x). apply words_upto_In; assumption. }
  pose proof (List.NoDup_incl_length H Hincl) as Hlen.
  rewrite length_map, words_length in Hlen.
  pose proof (words_upto_length alphabet n Hsize). lia.
Qed.

Lemma compress_length h block : (length (compress h block) <= length h)%nat.
Proof. unfold compress. rewrite length_map, length_combine. lia. Qed.

Lemma digest_length msg : (length (digest msg) <= 8)%nat.
Proof.
  unfold digest. cbv zeta. generalize (blocks (length (to_words (pad msg)) / 16)
                                               (to_words (pad msg))).
  assert (length H0 <= 8)%nat as H.
  { assert (length H0 = 8%nat) as -> by (vm_compute; reflexivity). lia. }
  revert H. generalize H0. intros h H bs. revert h H.
  induction bs as [|b bs IH]; intros h H; cbn [fold_left]; [exact H|].
  apply IH. pose proof (compress_length h b). lia.
Qed.

Lemma hex_digit_In n : List.In (hex_digit (n mod 16)) hex_alphabet.
Proof.
  unfold hex_digit. apply nth_In.
  pose proof (Z.mod_pos_bound n 16 ltac:(lia)).
  change (length hex_alphabet) with 16%nat. lia.
Qed.

Lemma hex_word_range x :
  length (hex_word x) = 8%nat
  /\ List.Forall (fun c => List.In c hex_alphabet) (hex_word x).
Proof.
  unfold hex_word. split; [rewrite length_map, length_rev, length_seq; reflexivity|].
  apply List.Forall_forall. intros c Hc.
  apply in_map_iff in Hc as (i & <- & _). apply hex_digit_In.
Qed.

(** A hexadecimal digest has at most 64 characters, all of them
    hexadecimal digits. *)
Lemma digest_of_range message :
  (length (digest_of message) <= 64)%nat
  /\ List.Forall (fun c => List.In c hex_alphabet) (digest_of message).
Proof.
  unfold digest_of, hexdigest. rewrite list_ascii_of_string_of_list_ascii.
  pose proof (digest_length (encode (string_of_list_ascii message))) as Hlen.
  revert Hlen. generalize (digest (encode (string_of_list_ascii message))).
  intros ws Hlen.
  assert (length (concat (map hex_word ws)) = (8 * length ws)%nat
          /\ List.Forall (fun c => List.In c hex_alphabet) (concat (map hex_word ws)))
    as [H1 H2].
  { clear Hlen. induction ws as [|x ws [IH1 IH2]]; [split; [reflexivity | constructor]|].
    cbn [map concat]. destruct (hex_word_range x) as [Hx1 Hx2].
    rewrite length_app, Hx1, IH1. split; [cbn [length]; lia|].
    apply List.Forall_app. split; assumption. }
  split; [lia | exact H2].
Qed.

Lemma hex_alphabet_NoDup : List.NoDup hex_alphabet.
Proof.
  unfold hex_alphabet. cbn [list_ascii_of_string].
  repeat (constructor; [cbn [List.In]; intuition discriminate|]). constructor.
Qed.

(** Two different messages with the same SHA-256 digest exist. *)
Lemma sha256_collides :
  exists a b : string,
    a <> "" /\ a <> b
    /\ hexdigest (encode a) = hexdigest (encode b).
Proof.
  destruct (two_words_collide hex_alphabet 64 digest_of hex_alphabet_NoDup)
    as (x & y & Hx & _ & Hxy & Hf).
  - change (length hex_alphabet) with 16%nat. lia.
  - apply digest_of_range.
  - exists (string_of_list_ascii x), (string_of_list_ascii y).
    split; [|split].
    + intros H. apply (words_nonempty _ _ _ Hx).
      apply (f_equal list_ascii_of_string) in H.
      rewrite list_ascii_of_string_of_list_ascii in H. exact H.
    + intros H. apply Hxy.
      apply (f_equal list_ascii_of_string) in H.
      rewrite !list_ascii_of_string_of_list_ascii in H. exact H.
    + unfold digest_of in Hf.
      apply (f_equal string_of_list_ascii) in Hf.
      rewrite !string_of_list_ascii_of_string in Hf. exact Hf.
Qed.

End Collisions.

(** C8 (as amended). While the login form is shown, the gate accepts an
    entered pair exactly when the entry of the password field differs from
    what the field held (so that its callback fires) and the SHA-256 digest
    of entered username followed by entered password equals that of expected
    username followed by expected password.  Hence every entry with a
    changed password that spells the expected concatenation is accepted,
    however it is split, as ('ab', 'c') is against ('a', 'bc'). *)
Theorem gate_compares_digests (xu xp eu ep : string) (w : World) :
  session_state w !! "password_correct" = None ->
  (accepts (Some xu) (Some xp) eu ep w = true
   <-> ep <> password_field w
       /\ Sha256.hexdigest (Sha256.encode (eu ++ ep))
          = Sha256.hexdigest (Sha256.encode (xu ++ xp)))
  /\ (ep <> password_field w -> (eu ++ ep)%string = (xu ++ xp)%string ->
      accepts (Some xu) (Some xp) eu ep w = true)
  /\ (password_field w = "" -> accepts (Some "a") (Some "bc") "ab" "c" w = true)
  /\ ("ab", "c") <> ("a", "bc").
Proof.
  intros Hform.
  assert (ep <> password_field w ->
          accepts (Some xu) (Some xp) eu ep w = digest_match eu ep xu xp) as Hfired.
  { intros Hne. apply accepts_fired. apply String.eqb_neq, Hne. }
  split; [split|split; [|split]].
  - intros Hacc. destruct (String.eqb_spec ep (password_field w)) as [Heq|Hne].
    + rewrite accepts_unfired in Hacc; [discriminate Hacc| |exact Hform].
      apply String.eqb_eq, Heq.
    + split; [exact Hne|]. rewrite (Hfired Hne) in Hacc.
      apply String.eqb_eq, Hacc.
  - intros [Hne Hdig]. rewrite (Hfired Hne). apply String.eqb_eq, Hdig.
  - intros Hne Heq. rewrite (Hfired Hne). unfold digest_match. rewrite Heq.
    apply String.eqb_refl.
  - intros Hempty. rewrite accepts_fired; [reflexivity|].
    rewrite Hempty. reflexivity.
  - discriminate.
Qed.

Lemma gate_compares_digests_witness :
  session_state empty_world !! "password_correct" = None
  /\ "d" <> password_field empty_world
  /\ accepts (Some "a") (Some "bc") "ab" "d" empty_world = false
  /\ accepts (Some "a") (Some "bc") "ab" "c" empty_world = true.
Proof.
  assert (session_state empty_world !! "password_correct" = None) as Hform
    by reflexivity.
  assert ("d" <> password_field empty_world) as Hne by discriminate.
  destruct (gate_compares_digests "a" "bc" "ab" "d" empty_world Hform)
    as (Hiff & _ & Hsplit & _).
  split; [exact Hform|]. split; [exact Hne|]. split; [|apply Hsplit; reflexivity].
  destruct (accepts (Some "a") (Some "bc") "ab" "d" empty_world) eqn:E;
    [|reflexivity].
  destruct Hiff as [Hto _]. destruct (Hto eq_refl) as [_ Hdig].
  vm_compute in Hdig. discriminate Hdig.
Defined.

(** C8 as stated fails in both directions.  The re-split ('abc', '') of the
    expected ('a', 'bc') spells the same string and is not accepted: the
    password field of the fresh form is empty already, so its callback does
    not fire.  And two entries with different concatenations are accepted
    against one another, since the gate compares digests of 64 characters
    and there are more strings than that. *)
Lemma gate_is_not_string_equality :
  (accepts (Some "a") (Some "bc") "abc" "" empty_world = false
   /\ ("abc" ++ "")%string = ("a" ++ "bc")%string)
  /\ exists eu ep xu xp,
       accepts (Some xu) (Some xp) eu ep empty_world = true
       /\ (eu ++ ep)%string <> (xu ++ xp)%string.
Proof.
  split; [split; [vm_compute; reflexivity | reflexivity]|].
  destruct sha256_collides as (a & b & Ha & Hab & Hdig).
  exists "", a, "", b. split; [|exact Hab].
  rewrite accepts_fired.
  - unfold digest_match.
    change ("" ++ a)%string with a. change ("" ++ b)%string with b.
    rewrite Hdig. apply String.eqb_refl.
  - apply String.eqb_neq. exact Ha.
Qed.

(** C3 (as amended). A call of [process_user_query] invokes the pipeline
    exactly once.  When the pipeline returns an answer, exactly one
    {user, bot} entry is appended to the chat history, by the caller and
    after the return; when the pipeline raises, the error propagates and
    nothing is appended.  The pipeline itself writes no entry. *)
Theorem one_call_then_one_entry (env : Environment) (q : string) (k : Z)
    (t : float) (w : World) (s : Services) (h : list Exchange) :
  session_state w !! "base_services" = Some (VServices s) ->
  session_state w !! "chat_history" = Some (VHistory h) ->
  let r := process_user_query env q k t w in
  let new := added w (snd r) in
  let p := S (S (S (length (heap w)))) in
  pipeline_calls new = [(p, q, turn_outcome env s q k t)]
  /\ match turn_outcome env s q k t with
     | Returned answer =>
         fst r = Done tt
         /\ history_of (snd r) = (h ++ [{| user := q; bot := answer |}])%list
         /\ exists before after,
              new = (before ++ EvProcessQuery p q (Returned answer) :: after)%list
              /\ appends before = []
              /\ appends after = [{| user := q; bot := answer |}]
     | Raised e =>
         fst r = Halt (Exception e)
         /\ history_of (snd r) = h
         /\ appends new = []
     end
  /\ forall p0 q0 w0,
       session_state (snd (process_query env p0 q0 w0)) = session_state w0
       /\ appends (added w0 (snd (process_query env p0 q0 w0))) = [].
Proof.
  intros Hs Hh. cbv zeta.
  rewrite (process_user_query_run env q k t w s h Hs Hh). cbv zeta.
  split; [|split].
  - destruct (turn_outcome env s q k t) as [answer|e] eqn:E; cbn [snd];
      rewrite added_app; unfold turn_events; rewrite E; reflexivity.
  - destruct (turn_outcome env s q k t) as [answer|e] eqn:E; cbn [fst snd];
      rewrite added_app; unfold history_of; cbn [session_state].
    + split; [reflexivity|]. split; [rewrite lookup_insert_eq; reflexivity|].
      unfold turn_events. rewrite E.
      eexists (firstn 6 (turn_events env s (length (heap w)) q k t)), _.
      split; [reflexivity|]. split; reflexivity.
    + split; [reflexivity|]. split; [rewrite Hh; reflexivity|].
      unfold turn_events. reflexivity.
  - intros p0 q0 w0. destruct (process_query_frame env p0 q0 w0) as (H1 & _ & H2).
    split; assumption.
Qed.

Lemma one_call_then_one_entry_witness :
  let r := process_user_query answering_env "q" 3 0.32 ready_world in
  session_state ready_world !! "base_services" = Some (VServices (init_services 0))
  /\ session_state ready_world !! "chat_history" = Some (VHistory [])
  /\ length (pipeline_calls (added ready_world (snd r))) = 1%nat
  /\ history_of (snd r) = [{| user := "q"; bot := "answer to q" |}].
Proof.
  cbv zeta.
  assert (session_state ready_world !! "base_services"
          = Some (VServices (init_services 0))) as Hs by (vm_compute; reflexivity).
  assert (session_state ready_world !! "chat_history" = Some (VHistory []))
    as Hh by (vm_compute; reflexivity).
  split; [exact Hs|]. split; [exact Hh|].
  destruct (one_call_then_one_entry answering_env "q" 3 0.32 ready_world _ _ Hs Hh)
    as (Hcalls & Hturn & _).
  split; [rewrite Hcalls; reflexivity|].
  cbv zeta in Hturn. apply Hturn.
Defined.

(** C3 as stated fails when the pipeline raises: the pipeline is invoked
    once and no entry is appended. *)
Lemma failed_turn_appends_nothing :
  let r := process_user_query failing_env "q" 3 0.32 ready_world in
  fst r = Halt (Exception GenerationError)
  /\ length (pipeline_calls (added ready_world (snd r))) = 1%nat
  /\ appends (added ready_world (snd r)) = []
  /\ history_of (snd r) = history_of ready_world.
Proof. vm_compute. repeat split; reflexivity. Qed.

(** C6. With and without its two [pt.mark] calls, [process_user_query] ends
    the same way and leaves the same world up to what the timer recorded:
    the same session state (chat history included), the same pipeline
    invocations with the same responses, the same page. *)
Theorem marks_do_not_interfere (env : Environment) (q : string) (k : Z)
    (t : float) (w : World) :
  let marked := process_user_query env q k t w in
  let unmarked := process_user_query_unmarked env q k t w in
  fst marked = fst unmarked
  /\ observe (snd marked) = observe (snd unmarked)
  /\ pipeline_calls (trace (snd marked)) = pipeline_calls (trace (snd unmarked))
  /\ history_of (snd marked) = history_of (snd unmarked).
Proof.
  cbv zeta.
  assert (fst (process_user_query env q k t w)
          = fst (process_user_query_unmarked env q k t w)
          /\ observe (snd (process_user_query env q k t w))
             = observe (snd (process_user_query_unmarked env q k t w))) as [Ho Hobs].
  { destruct (session_state w !! "base_services") as [v|] eqn:E.
    2: { rewrite process_user_query_no_services; [split; reflexivity|].
         intros s. rewrite E. discriminate. }
    destruct v as [x|x|x|s].
    1-3: rewrite process_user_query_no_services; [split; reflexivity|];
         intros s0; rewrite E; discriminate.
    rewrite (process_user_query_prefix env q k t w s E).
    rewrite (process_user_query_unmarked_prefix env q k t w s E).
    cbv zeta. unfold unmarked_events.
    destruct (turn_outcome env s q k t) as [r|e].
    - rewrite !chat_history_append_run.
      destruct (session_state w !! "chat_history") as [[]|];
        (split; [reflexivity|]); unfold observe;
        cbn [snd session_state heap trace screen];
        rewrite !map_app, !List.filter_app;
        cbn [List.filter is_mark negb map forget_marks turn_events turn_objects app];
        rewrite ?app_nil_r; reflexivity.
    - split; [reflexivity|]. unfold observe.
      cbn [snd session_state heap trace screen].
      rewrite !map_app, !List.filter_app;
        cbn [List.filter is_mark negb map forget_marks turn_events turn_objects app].
      reflexivity. }
  split; [exact Ho|]. split; [exact Hobs|].
  unfold observe in Hobs. injection Hobs as Hss _ Htr _. split.
  - rewrite <- (pipeline_calls_unmarked (trace (snd (process_user_query env q k t w)))).
    rewrite Htr. apply pipeline_calls_unmarked.
  - unfold history_of. rewrite Hss. reflexivity.
Qed.

(** C7. A call of [process_user_query] constructs, at addresses that were
    free, its own timer, a [RetrievalConfig] holding the settings it was
    called with, a [ProcessorConfig] wrapping that configuration and a
    [QueryProcessor] over the cached services; the pipeline is invoked on
    that processor.  Nothing that existed is changed, and of the session
    state only the chat history is. *)
Theorem turn_constructs_afresh (env : Environment) (q : string) (k : Z)
    (t : float) (w : World) (s : Services) (h : list Exchange) :
  session_state w !! "base_services" = Some (VServices s) ->
  session_state w !! "chat_history" = Some (VHistory h) ->
  let r := process_user_query env q k t w in
  let n := length (heap w) in
  let new := added w (snd r) in
  constructions new =
    [ (n, ProcessTimer []);
      (S n, RetrievalConfigObj {| top_k := k; similarity_threshold := t |});
      (S (S n), ProcessorConfigObj (S n));
      (S (S (S n)),
       QueryProcessor (embedding_service s) (retrieval_service s) (augmenter s)
                      (generation_service s) (S (S n))) ]
  /\ (forall a, (n <= a)%nat -> heap w !! a = None)
  /\ processor_view (heap (snd r)) (S (S (S n)))
     = Some (embedding_service s, retrieval_service s, augmenter s,
             generation_service s, {| top_k := k; similarity_threshold := t |})
  /\ map (fun c => fst (fst c)) (pipeline_calls new) = [S (S (S n))]
  /\ (forall a o, heap w !! a = Some o -> heap (snd r) !! a = Some o)
  /\ (forall key, key <> "chat_history" ->
                  session_state (snd r) !! key = session_state w !! key).
Proof.
  intros Hs Hh. cbv zeta.
  rewrite (process_user_query_run env q k t w s h Hs Hh). cbv zeta.
  assert (forall a, (length (heap w) <= a)%nat -> heap w !! a = None) as Hfree
    by (intros a Ha; apply lookup_ge_None_2, Ha).
  destruct (turn_outcome env s q k t) as [answer|e] eqn:E;
    cbn [snd session_state heap]; rewrite added_app;
    (split; [unfold turn_events; rewrite ?constructions_app; reflexivity|]);
    (split; [exact Hfree|]);
    (split; [apply processor_view_new|]);
    (split; [unfold turn_events; rewrite ?pipeline_calls_app; reflexivity|]);
    (split; [intros a o Ha; apply lookup_app_l_Some, Ha|]);
    intros key Hkey; [rewrite lookup_insert_ne by congruence|]; reflexivity.
Qed.

Lemma turn_constructs_afresh_witness :
  let r := process_user_query answering_env "q" 5 0.5 ready_world in
  session_state ready_world !! "base_services" = Some (VServices (init_services 0))
  /\ session_state ready_world !! "chat_history" = Some (VHistory [])
  /\ processor_view (heap (snd r)) 10%nat
     = Some (3%nat, 5%nat, 6%nat, 4%nat, {| top_k := 5; similarity_threshold := 0.5 |})
  /\ heap ready_world !! 10%nat = None.
Proof.
  cbv zeta.
  assert (session_state ready_world !! "base_services"
          = Some (VServices (init_services 0))) as Hs by (vm_compute; reflexivity).
  assert (session_state ready_world !! "chat_history" = Some (VHistory []))
    as Hh by (vm_compute; reflexivity).
  split; [exact Hs|]. split; [exact Hh|].
  destruct (turn_constructs_afresh answering_env "q" 5 0.5 ready_world _ _ Hs Hh)
    as (_ & Hfree & Hview & _).
  split; [exact Hview | apply Hfree; vm_compute; lia].
Defined.

(** ** What an attempt at initialisation leaves in the trace *)

(** The constructor calls of an attempt, case by case. *)
Ltac attempt_cases env :=
  unfold init_error, init_objects; cbv zeta; cbn [built first_error];
  repeat (match goal with
          | |- context [constructor_error env ?o] =>
              destruct (constructor_error env o); cbn [built first_error]
          end).

Section Attempts.
Variable env : Environment.

Lemma built_all objs : first_error env objs = None -> built env objs = objs.
Proof.
  induction objs as [|o objs IH]; cbn [first_error built]; [reflexivity|].
  destruct (constructor_error env o); [discriminate|]. intros E. rewrite IH; auto.
Qed.

Lemma first_error_none objs :
  (forall o, constructor_error env o = None) -> first_error env objs = None.
Proof.
  intros H. induction objs as [|o objs IH]; cbn [first_error]; [reflexivity|].
  rewrite H. exact IH.
Qed.

(** Whatever the constructors do, an attempt enters [initialize_services]
    once and constructs services only, the augmenter when it completes. *)
Lemma attempt_trace n :
  let evs := EvCall "initialize_services"
               :: news n (built env (init_objects env n)) in
  pipeline_calls evs = []
  /\ appends evs = []
  /\ processors evs = []
  /\ calls "initialize_services" evs = 1%nat
  /\ calls "process_user_query" evs = 0%nat
  /\ Forall config_ok evs
  /\ (forall fe, Forall (configured fe) evs)
  /\ service_constructions evs = constructions evs
  /\ completions evs = match init_error env n with
                       | None => 1%nat
                       | Some _ => 0%nat
                       end
  /\ (length (service_constructions evs) <= 7)%nat
  /\ Forall template_ok evs.
Proof.
  cbv zeta. attempt_cases env;
    (repeat split; try reflexivity; try (intros fe); try (cbn; lia);
     repeat constructor).
Qed.

End Attempts.

(** ** Invariants of the steps *)

Section Invariants.
Variable env : Environment.

Lemma calls_app f tr1 tr2 : calls f (tr1 ++ tr2) = (calls f tr1 + calls f tr2)%nat.
Proof. unfold calls. rewrite List.filter_app, length_app. reflexivity. Qed.

Lemma processors_app tr1 tr2 :
  processors (tr1 ++ tr2) = (processors tr1 ++ processors tr2)%list.
Proof.
  induction tr1 as [|[| ? []| | |] tr1 IH]; cbn [processors app]; congruence.
Qed.

Lemma service_constructions_app tr1 tr2 :
  service_constructions (tr1 ++ tr2)
  = (service_constructions tr1 ++ service_constructions tr2)%list.
Proof.
  unfold service_constructions. rewrite constructions_app. apply List.filter_app.
Qed.

(** The trace, heap and session state after a turn. *)
Lemma turn_effect q k t w :
  ready w = true ->
  exists s h evs objs,
    session_state w !! "base_services" = Some (VServices s)
    /\ session_state w !! "chat_history" = Some (VHistory h)
    /\ trace (snd (process_user_query env q k t w))
       = (trace w ++ turn_events env s (length (heap w)) q k t ++ evs)%list
    /\ (evs = [] \/ exists e, evs = [EvMark (length (heap w)) "RAG Processing Query";
                                     EvAppend e])
    /\ heap (snd (process_user_query env q k t w)) = (heap w ++ objs)%list
    /\ (session_state (snd (process_user_query env q k t w)) = session_state w
        \/ exists h', session_state (snd (process_user_query env q k t w))
                      = <["chat_history" := VHistory h']> (session_state w)).
Proof.
  intros Hr. apply ready_lookup in Hr as (s & h & Hs & Hh).
  exists s, h. rewrite (process_user_query_run env q k t w s h Hs Hh). cbv zeta.
  destruct (turn_outcome env s q k t) as [r|e]; cbn [snd trace heap session_state].
  - eexists _, _. repeat split; eauto.
  - exists [], (turn_objects s (length (heap w)) k t ["RAG Processing Query"]).
    rewrite app_nil_r. repeat split; eauto.
Qed.

Lemma widget_key key v other :
  widget_value key v = true ->
  other = "chat_history" \/ other = "base_services" -> key <> other.
Proof.
  intros Hk Ho ->. destruct v; try discriminate; cbn [widget_value] in Hk;
    destruct Ho as [-> | ->]; discriminate.
Qed.

Lemma removable_key key other :
  removable key = true ->
  other = "chat_history" \/ other = "base_services" -> key <> other.
Proof. intros Hk Ho ->. destruct Ho as [-> | ->]; discriminate. Qed.

(** Every configuration constructed lies within the sliders' bounds. *)
Lemma step_configs allow w w' :
  Forall config_ok (trace w) -> step allow env w w' -> Forall config_ok (trace w').
Proof.
  intros HI Hstep.
  destruct Hstep as [kd b|key v Hk|Hh|key Hk|Hs|q k t _ Hr Hk]; try exact HI.
  - unfold del_item. destruct (session_state w !! key); exact HI.
  - rewrite install_services_attempt. cbn [snd trace].
    apply Forall_app. split; [exact HI|]. apply attempt_trace.
  - destruct (turn_effect q k t w Hr) as (s & h & evs & objs & _ & _ & -> & Hevs & _).
    apply Forall_app. split; [exact HI|]. apply Forall_app. split.
    + unfold turn_events. repeat constructor. exact Hk.
    + destruct Hevs as [-> | [e ->]]; repeat constructor.
Qed.

(** Without an API key nothing is asked and nothing is answered. *)
Lemma step_quiet w0 w w' : quiet w0 w -> step false env w w' -> quiet w0 w'.
Proof.
  intros HI Hstep.
  destruct Hstep as [kd b|key v Hk|Hh|key Hk|Hs|q k t Ha _ _];
    try discriminate; try exact HI.
  - destruct HI as (H1 & H2 & H3 & H4). repeat split; try assumption.
    unfold history_of in *. cbn [snd set_item session_state].
    rewrite lookup_insert_ne by (eapply widget_key; eauto). exact H4.
  - destruct HI as (H1 & H2 & H3 & H4). repeat split; try assumption.
    unfold history_of in *. cbn [snd set_item session_state].
    rewrite lookup_insert_eq. rewrite Hh in H4. exact H4.
  - unfold del_item. destruct (session_state w !! key) eqn:E; [|exact HI].
    destruct HI as (H1 & H2 & H3 & H4). repeat split; try assumption.
    unfold history_of in *. cbn [snd session_state].
    rewrite lookup_delete_ne by (eapply removable_key; eauto). exact H4.
  - rewrite install_services_attempt.
    destruct (attempt_trace env (length (heap w))) as (E1 & E2 & _ & _ & E3 & _).
    destruct HI as (H1 & H2 & H3 & H4). unfold quiet. cbn [snd trace].
    rewrite calls_app, pipeline_calls_app, appends_app, E1, E2, E3.
    unfold history_of in *. cbn [session_state].
    assert (match init_error env (length (heap w)) with
            | None => <["base_services" := VServices (init_services (length (heap w)))]>
                        (session_state w)
            | Some _ => session_state w
            end !! "chat_history" = session_state w !! "chat_history") as ->.
    { destruct (init_error env (length (heap w))); [reflexivity|].
      apply lookup_insert_ne. discriminate. }
    rewrite H1, H2, H3, H4. rewrite Nat.add_0_r, !app_nil_r. auto.
Qed.

Lemma completions_app tr1 tr2 :
  completions (tr1 ++ tr2) = (completions tr1 + completions tr2)%nat.
Proof.
  unfold completions. rewrite constructions_app, List.filter_app, length_app.
  reflexivity.
Qed.

Lemma placed_new (h objs : list Object) : placed (length h) objs (h ++ objs).
Proof.
  intros i o Hi. rewrite lookup_app_r by lia.
  replace (length h + i - length h)%nat with i by lia. exact Hi.
Qed.

Lemma placed_app n objs (h more : list Object) :
  placed n objs h -> placed n objs (h ++ more).
Proof. intros H i o Hi. apply lookup_app_l_Some, H, Hi. Qed.

(** The services are initialised once and handed to every processor. *)
Lemma step_services allow w w' :
  services_inv env w -> step allow env w w' -> services_inv env w'.
Proof.
  intros HI Hstep. unfold services_inv in *.
  destruct Hstep as [kd b|key v Hk|Hh|key Hk|Hs|q k t _ Hr _].
  - exact HI.
  - cbn [snd set_item session_state trace heap].
    rewrite lookup_insert_ne by (eapply widget_key; eauto). exact HI.
  - cbn [snd set_item session_state trace heap].
    rewrite lookup_insert_ne by discriminate. exact HI.
  - unfold del_item. destruct (session_state w !! key) eqn:E; [|exact HI].
    cbn [snd session_state trace heap].
    rewrite lookup_delete_ne by (eapply removable_key; eauto). exact HI.
  - rewrite install_services_attempt. rewrite Hs in HI. destruct HI as (H1 & H2).
    destruct (attempt_trace env (length (heap w)))
      as (_ & _ & E1 & _ & _ & _ & _ & E2 & E3 & _).
    cbn [snd session_state trace heap].
    destruct (init_error env (length (heap w))) as [e|] eqn:E.
    + rewrite Hs, completions_app, processors_app, H1, H2, E1, E3. auto.
    + rewrite lookup_insert_eq.
      exists (length (heap w)), (service_constructions (trace w)).
      split; [reflexivity|].
      rewrite completions_app, service_constructions_app, processors_app, H1, H2, E1, E3.
      split; [reflexivity|]. rewrite (built_all env _ E) in *.
      split; [rewrite E2; reflexivity|].
      split; [apply placed_new | constructor].
  - destruct (turn_effect q k t w Hr)
      as (s & h & evs & objs & Hs & Hh & Htr & Hevs & Hhp & Hss).
    rewrite Hs in HI. destruct HI as (n & attempts & Hv & H1 & H2 & H3 & H4).
    injection Hv as ->.
    assert (session_state (snd (process_user_query env q k t w)) !! "base_services"
            = Some (VServices (init_services n))) as ->.
    { destruct Hss as [-> | [h' ->]]; [exact Hs|].
      rewrite lookup_insert_ne by discriminate. exact Hs. }
    exists n, attempts. split; [reflexivity|]. rewrite Htr, Hhp.
    rewrite !completions_app, !service_constructions_app, !processors_app, H1, H2.
    assert (completions evs = 0%nat
            /\ service_constructions evs = [] /\ processors evs = [])
      as (-> & -> & ->) by (destruct Hevs as [-> | [e ->]]; auto).
    split; [reflexivity|]. split; [rewrite !app_nil_r; reflexivity|].
    split; [apply placed_app, H3|].
    rewrite app_nil_r. apply Forall_app. split; [exact H4|].
    repeat constructor.
Qed.

(** Entries into [initialize_services] and those that ran to their end. *)
Lemma step_attempts allow w w' :
  attempts_inv env w -> step allow env w w' -> attempts_inv env w'.
Proof.
  intros HI Hstep.
  destruct Hstep as [kd b|key v Hk|Hh|key Hk|Hs|q k t _ Hr _]; try exact HI.
  - unfold del_item. destruct (session_state w !! key); exact HI.
  - rewrite install_services_attempt.
    destruct (attempt_trace env (length (heap w)))
      as (_ & _ & _ & E1 & _ & _ & _ & _ & E2 & E3 & E4).
    destruct HI as (H1 & H2 & H3 & H4). unfold attempts_inv. cbn [snd trace].
    rewrite completions_app, calls_app, service_constructions_app, length_app, E1, E2.
    split; [destruct (init_error env (length (heap w))); lia|].
    split; [lia|]. split; [apply Forall_app; split; assumption|].
    intros Hall. rewrite (H4 Hall).
    unfold init_error. rewrite (first_error_none env _ Hall). reflexivity.
  - destruct (turn_effect q k t w Hr) as (s & h & evs & objs & _ & _ & Htr & Hevs & _).
    destruct HI as (H1 & H2 & H3 & H4). unfold attempts_inv. rewrite Htr.
    rewrite !completions_app, !calls_app, !service_constructions_app, !length_app.
    assert (completions evs = 0%nat /\ calls "initialize_services" evs = 0%nat
            /\ service_constructions evs = [] /\ Forall template_ok evs)
      as (-> & -> & -> & Hevs')
      by (destruct Hevs as [-> | [e ->]]; repeat split; repeat constructor).
    assert (completions (turn_events env s (length (heap w)) q k t) = 0%nat
            /\ calls "initialize_services" (turn_events env s (length (heap w)) q k t)
               = 0%nat
            /\ service_constructions (turn_events env s (length (heap w)) q k t) = []
            /\ Forall template_ok (turn_events env s (length (heap w)) q k t))
      as (-> & -> & -> & Hturn)
      by (repeat split; unfold turn_events; repeat constructor).
    cbn [length]. split; [lia|]. split; [lia|].
    split; [repeat (apply Forall_app; split); assumption|].
    intros Hall. rewrite (H4 Hall). lia.
Qed.

(** Once set, [base_services] stays what it is: [initialize_services] is
    not entered again and no further service is constructed. *)
Lemma step_services_stable allow v c sc w w' :
  session_state w !! "base_services" = Some v
  /\ calls "initialize_services" (trace w) = c
  /\ service_constructions (trace w) = sc ->
  step allow env w w' ->
  session_state w' !! "base_services" = Some v
  /\ calls "initialize_services" (trace w') = c
  /\ service_constructions (trace w') = sc.
Proof.
  intros HI Hstep.
  destruct Hstep as [kd b|key v' Hk|Hh|key Hk|Hs|q k t _ Hr _].
  - exact HI.
  - cbn [snd set_item session_state trace].
    rewrite lookup_insert_ne by (eapply widget_key; eauto). exact HI.
  - cbn [snd set_item session_state trace].
    rewrite lookup_insert_ne by discriminate. exact HI.
  - unfold del_item. destruct (session_state w !! key) eqn:E; [|exact HI].
    cbn [snd session_state trace].
    rewrite lookup_delete_ne by (eapply removable_key; eauto). exact HI.
  - destruct HI as [HI _]. congruence.
  - destruct (turn_effect q k t w Hr)
      as (s & h & evs & objs & _ & _ & Htr & Hevs & _ & Hss).
    destruct HI as (H1 & H2 & H3). rewrite Htr.
    rewrite !calls_app, !service_constructions_app, H2, H3.
    assert (calls "initialize_services" evs = 0%nat /\ service_constructions evs = [])
      as (-> & ->) by (destruct Hevs as [-> | [e ->]]; auto).
    split; [|split; [unfold turn_events; cbn; lia | rewrite !app_nil_r; reflexivity]].
    destruct Hss as [-> | [h' ->]]; [exact H1|].
    rewrite lookup_insert_ne by discriminate. exact H1.
Qed.

Lemma services_inv_empty : services_inv env empty_world.
Proof.
  unfold services_inv, empty_world. cbn [session_state trace].
  rewrite lookup_empty. repeat split; reflexivity.
Qed.

Lemma attempts_inv_empty : attempts_inv env empty_world.
Proof.
  split; [cbn; lia|]. split; [cbn; lia|]. split; [constructor | intros _; reflexivity].
Qed.

End Invariants.

(** * Further properties of the application *)

(** ** Frames *)

Section Frames.

Lemma writes_only_bind {A B} keys (m : App A) (f : A -> App B) :
  writes_only keys m -> (forall a, writes_only keys (f a)) ->
  writes_only keys (bind m f).
Proof.
  intros Hm Hf w key Hk. unfold bind. specialize (Hm w key Hk).
  destruct (m w) as [[a|c] w1]; cbn [snd] in *; [|exact Hm].
  rewrite (Hf a w1 key Hk). exact Hm.
Qed.

Lemma writes_only_more {A} keys keys' (m : App A) :
  writes_only keys m -> (forall k, In k keys -> In k keys') -> writes_only keys' m.
Proof. intros Hm Hsub w key Hk. apply Hm. intros H. apply Hk, Hsub, H. Qed.

Lemma writes_only_same {A} keys (m : App A) :
  (forall w, session_state (snd (m w)) = session_state w) -> writes_only keys m.
Proof. intros H w key _. rewrite H. reflexivity. Qed.

Lemma writes_only_set keys key v :
  In key keys -> writes_only keys (set_item key v).
Proof.
  intros Hin w k Hk. cbn [set_item snd session_state].
  apply lookup_insert_ne. intros ->. exact (Hk Hin).
Qed.

Lemma writes_only_del_attr keys key :
  In key keys -> writes_only keys (del_attr key).
Proof.
  intros Hin w k Hk. unfold del_attr.
  destruct (session_state w !! key); [|reflexivity].
  cbn [snd session_state]. apply lookup_delete_ne. intros ->. exact (Hk Hin).
Qed.

Lemma writes_only_del_item keys key :
  In key keys -> writes_only keys (del_item key).
Proof.
  intros Hin w k Hk. unfold del_item.
  destruct (session_state w !! key); [|reflexivity].
  cbn [snd session_state]. apply lookup_delete_ne. intros ->. exact (Hk Hin).
Qed.

Lemma writes_only_if {A} keys (b : bool) (m1 m2 : App A) :
  writes_only keys m1 -> writes_only keys m2 ->
  writes_only keys (if b then m1 else m2).
Proof. destruct b; auto. Qed.

Lemma silent_bind {A B} (m : App A) (f : A -> App B) :
  silent m -> (forall a, silent (f a)) -> silent (bind m f).
Proof.
  intros Hm Hf w. unfold bind. specialize (Hm w).
  destruct (m w) as [[a|c] w1]; cbn [snd] in *; [|exact Hm].
  destruct (Hf a w1) as [H1 H2]. destruct Hm as [H3 H4]. split; congruence.
Qed.

Lemma silent_same {A} (m : App A) :
  (forall w, heap (snd (m w)) = heap w /\ trace (snd (m w)) = trace w) -> silent m.
Proof. intros H. exact H. Qed.

Lemma silent_if {A} (b : bool) (m1 m2 : App A) :
  silent m1 -> silent m2 -> silent (if b then m1 else m2).
Proof. destruct b; auto. Qed.

Lemma silent_del_attr key : silent (del_attr key).
Proof.
  intros w. unfold del_attr. destruct (session_state w !! key); split; reflexivity.
Qed.

Lemma silent_get_attr key : silent (get_attr key).
Proof.
  intros w. unfold get_attr. destruct (session_state w !! key); split; reflexivity.
Qed.

Lemma silent_get_item key : silent (get_item key).
Proof.
  intros w. unfold get_item. destruct (session_state w !! key); split; reflexivity.
Qed.

End Frames.

(** The primitives that leave the session state, or heap and trace, alone. *)
Ltac frame_leaf :=
  lazymatch goal with
  | |- writes_only _ (set_item _ _) => apply writes_only_set; cbn; tauto
  | |- writes_only _ (del_attr _) => apply writes_only_del_attr; cbn; tauto
  | |- writes_only _ (del_item _) => apply writes_only_del_item; cbn; tauto
  | |- writes_only _ _ => apply writes_only_same; intros ?; reflexivity
  | |- silent (del_attr _) => apply silent_del_attr
  | |- silent (get_attr _) => apply silent_get_attr
  | |- silent (get_item _) => apply silent_get_item
  | |- silent _ => apply silent_same; intros ?; split; reflexivity
  end.

Section FrameOfBlocks.

Lemma writes_only_get_attr keys key : writes_only keys (get_attr key).
Proof.
  intros w k _. unfold get_attr. destruct (session_state w !! key); reflexivity.
Qed.

Lemma writes_only_get_item keys key : writes_only keys (get_item key).
Proof.
  intros w k _. unfold get_item. destruct (session_state w !! key); reflexivity.
Qed.

Lemma writes_only_as_str keys v : writes_only keys (as_str v).
Proof. destruct v; frame_leaf. Qed.

Lemma silent_as_str v : silent (as_str v).
Proof. destruct v; frame_leaf. Qed.

Lemma writes_only_text_input keys label key :
  In key keys -> writes_only keys (text_input label key).
Proof.
  intros Hin. unfold text_input.
  apply writes_only_bind; [frame_leaf | intros present].
  apply writes_only_bind; [|intros ?; frame_leaf].
  apply writes_only_if; [frame_leaf | apply writes_only_set, Hin].
Qed.

Lemma silent_text_input label key : silent (text_input label key).
Proof.
  unfold text_input.
  apply silent_bind; [frame_leaf | intros present].
  apply silent_bind; [|intros ?; frame_leaf].
  apply silent_if; frame_leaf.
Qed.

Lemma writes_only_check_authentication username password :
  writes_only ["username"; "password"] (check_authentication username password).
Proof.
  unfold check_authentication.
  apply writes_only_bind; [frame_leaf | intros known].
  apply writes_only_if.
  - apply writes_only_bind; [apply writes_only_get_item | intros v].
    apply writes_only_if; [|frame_leaf].
    apply writes_only_bind; [frame_leaf | intros ?; frame_leaf].
  - apply writes_only_bind; [apply writes_only_text_input; cbn; tauto | intros ?].
    apply writes_only_bind; [apply writes_only_text_input; cbn; tauto | intros ?].
    frame_leaf.
Qed.

Lemma silent_check_authentication username password :
  silent (check_authentication username password).
Proof.
  unfold check_authentication.
  apply silent_bind; [frame_leaf | intros known].
  apply silent_if.
  - apply silent_bind; [frame_leaf | intros v].
    apply silent_if; [|frame_leaf].
    apply silent_bind; [frame_leaf | intros ?; frame_leaf].
  - apply silent_bind; [apply silent_text_input | intros ?].
    apply silent_bind; [apply silent_text_input | intros ?].
    frame_leaf.
Qed.

End FrameOfBlocks.

(** ** The gate *)

Section GateOpen.

Lemma check_authentication_open username password w :
  gate_open w = true -> check_authentication username password w = (Done tt, w).
Proof.
  unfold gate_open. intros H.
  destruct (session_state w !! "password_correct") as [v|] eqn:E; [|discriminate].
  unfold check_authentication.
  erewrite bind_done;
    [|unfold contains; rewrite E, bool_decide_eq_true_2 by eauto; reflexivity].
  cbv beta iota.
  erewrite bind_done by (apply get_item_run, E).
  rewrite H. reflexivity.
Qed.

Lemma check_authentication_closed username password w :
  gate_open w = false ->
  fst (check_authentication username password w) = Halt StopScript.
Proof.
  unfold gate_open. intros H. unfold check_authentication.
  destruct (session_state w !! "password_correct") as [v|] eqn:E.
  - erewrite bind_done;
      [|unfold contains; rewrite E, bool_decide_eq_true_2 by eauto; reflexivity].
    cbv beta iota.
    erewrite bind_done by (apply get_item_run, E).
    rewrite H. reflexivity.
  - erewrite bind_done;
      [|unfold contains; rewrite E, bool_decide_eq_false_2;
        [reflexivity | intros [? ?]; discriminate]].
    cbv beta iota. unfold bind.
    destruct (text_input "Username" "username" w) as [[[]|c] w1] eqn:E1.
    + destruct (text_input "Password" "password" w1) as [[[]|c] w2] eqn:E2.
      * reflexivity.
      * unfold text_input, bind, contains in E2.
        destruct (bool_decide _) in E2; discriminate E2.
    + unfold text_input, bind, contains in E1.
      destruct (bool_decide _) in E1; discriminate E1.
Qed.

Lemma setup_page_config_run w :
  setup_page_config w =
    (Done tt,
     {| session_state := session_state w; heap := heap w; trace := trace w;
        screen := (screen w ++ [ {| kind := "page_config"; body := "CIS Benchmarks Retrieval" |};
                                 {| kind := "logo"; body := "images/jd-logo.png" |};
                                 {| kind := "title"; body := "CIS Benchmarks RAG (Demo)" |} ])%list |}).
Proof.
  unfold setup_page_config, bind, render. cbn [session_state heap trace screen].
  rewrite <- !app_assoc. reflexivity.
Qed.

Lemma main_closed env fe w :
  gate_open w = false ->
  exists w', main env fe w = (Halt StopScript, w')
    /\ heap w' = heap w /\ trace w' = trace w
    /\ forall key, key <> "username" -> key <> "password" ->
         session_state w' !! key = session_state w !! key.
Proof.
  intros Hg. unfold main.
  erewrite bind_done by apply setup_page_config_run.
  set (w1 := {| session_state := session_state w; heap := heap w; trace := trace w;
                screen := _ |}).
  set (u := demo_username _). set (p := demo_password _).
  pose proof (check_authentication_closed u p w1 Hg) as Hc.
  pose proof (silent_check_authentication u p w1) as [Hh Ht].
  pose proof (writes_only_check_authentication u p w1) as Hw.
  destruct (check_authentication u p w1) as [o w2] eqn:E.
  cbn [fst snd] in *. subst o.
  exists w2. split; [apply (bind_halt _ _ _ _ _ E)|].
  split; [exact Hh|]. split; [exact Ht|].
  intros key H1 H2. rewrite Hw; [reflexivity|].
  cbn. intros [H|[H|[]]]; congruence.
Qed.

End GateOpen.

(** X1. [check_authentication] lets the script pass, leaving the world as it
    is, exactly when [password_correct] is present and true; otherwise it
    stops the script.  Either way it constructs nothing, leaves no event,
    and writes at most the two login fields. *)
Theorem gate_passes_or_stops (username password : option string) (w : World) :
  let r := check_authentication username password w in
  (if gate_open w then r = (Done tt, w) else fst r = Halt StopScript)
  /\ heap (snd r) = heap w /\ trace (snd r) = trace w
  /\ writes_only ["username"; "password"] (check_authentication username password).
Proof.
  cbv zeta. split; [|split; [|split]].
  - destruct (gate_open w) eqn:E.
    + apply check_authentication_open, E.
    + apply check_authentication_closed, E.
  - apply silent_check_authentication.
  - apply silent_check_authentication.
  - apply writes_only_check_authentication.
Qed.

(** X2. While the gate is closed, [main] stops at it: the run ends with
    [st.stop()], nothing is constructed, no function behind the gate is
    entered, and of the session state at most the two login fields change. *)
Theorem main_stops_at_closed_gate (env : Environment) (fe : Frontend) (w : World) :
  gate_open w = false ->
  let r := main env fe w in
  fst r = Halt StopScript
  /\ heap (snd r) = heap w /\ trace (snd r) = trace w
  /\ forall key, key <> "username" -> key <> "password" ->
       session_state (snd r) !! key = session_state w !! key.
Proof.
  intros Hg. cbv zeta.
  destruct (main_closed env fe w Hg) as (w' & -> & H). split; [reflexivity | exact H].
Qed.

Lemma main_stops_at_closed_gate_witness :
  gate_open empty_world = false
  /\ fst (main answering_env sample_question empty_world) = Halt StopScript
  /\ trace (snd (main answering_env sample_question empty_world)) = [].
Proof.
  assert (gate_open empty_world = false) as Hg by reflexivity.
  destruct (main_stops_at_closed_gate answering_env sample_question empty_world Hg)
    as (H1 & _ & H2 & _).
  split; [exact Hg|]. split; [exact H1 | exact H2].
Defined.

(** ** A session nobody has logged in to *)

Section Locked.
Variable env : Environment.

Lemma gate_open_entered eu ep w : gate_open (entered eu ep w) = gate_open w.
Proof.
  unfold gate_open, entered. cbn [session_state].
  rewrite !lookup_insert_ne by discriminate. reflexivity.
Qed.

Lemma deliver_credentials_rejected fe u p w :
  credentials fe = Some (u, p) -> rejected env fe = true ->
  untouched w -> untouched (snd (deliver_credentials env u p w)).
Proof.
  intros Hc Hr (Hg & Hh & Ht & H1 & H2 & H3).
  unfold rejected in Hr. rewrite Hc in Hr.
  unfold deliver_credentials. rewrite callback_run.
  cbn [load_environment_config demo_username demo_password].
  destruct (getenv env "DEMO_USERNAME") as [xu|] eqn:Eu;
    [destruct (getenv env "DEMO_PASSWORD") as [xp|] eqn:Ep|].
  - rewrite (password_entered_run xu xp u p)
      by (apply entered_username || apply entered_password).
    apply negb_true_iff in Hr. rewrite Hr. cbn [snd].
    unfold untouched, gate_open, entered.
    cbn [session_state heap trace].
    rewrite lookup_insert_eq, !lookup_insert_ne by discriminate. repeat split; auto.
  - rewrite (password_entered_unset (Some xu) None u p)
      by (apply entered_username || apply entered_password || (right; reflexivity)).
    cbn [snd]. unfold untouched. rewrite gate_open_entered.
    unfold entered. cbn [session_state heap trace].
    rewrite !lookup_insert_ne by discriminate. repeat split; auto.
  - rewrite (password_entered_unset None _ u p)
      by (apply entered_username || apply entered_password || (left; reflexivity)).
    cbn [snd]. unfold untouched. rewrite gate_open_entered.
    unfold entered. cbn [session_state heap trace].
    rewrite !lookup_insert_ne by discriminate. repeat split; auto.
Qed.

Lemma script_run_rejected fe w :
  rejected env fe = true -> untouched w -> untouched (script_run env fe w).
Proof.
  intros Hr Hu. unfold script_run.
  set (w1 := match credentials fe with Some (u, p) => _ | None => w end).
  assert (untouched w1) as (Hg & Hh & Ht & H1 & H2 & H3).
  { subst w1. destruct (credentials fe) as [[u p]|] eqn:Ec; [|exact Hu].
    eapply deliver_credentials_rejected; eauto. }
  destruct (main_closed env fe w1 Hg) as (w' & -> & Hh' & Ht' & Hk).
  cbn [snd]. unfold untouched, gate_open.
  rewrite !Hk by discriminate. rewrite Hh', Ht'. repeat split; auto.
Qed.

Lemma session_rejected runs :
  forallb (rejected env) runs = true -> untouched (session env runs).
Proof.
  induction runs as [|fe runs IH] using rev_ind.
  - intros _. unfold untouched. cbn. rewrite !lookup_empty. repeat split; auto.
  - rewrite forallb_app. cbn [forallb]. rewrite andb_true_r.
    intros [H1 H2]%andb_prop. rewrite session_snoc.
    apply script_run_rejected; auto.
Qed.

Lemma rejected_without_credentials fe :
  getenv env "DEMO_USERNAME" = None \/ getenv env "DEMO_PASSWORD" = None ->
  rejected env fe = true.
Proof.
  intros H. unfold rejected. destruct (credentials fe) as [[u p]|]; [|reflexivity].
  destruct H as [-> | ->]; [reflexivity|].
  destruct (getenv env "DEMO_USERNAME"); reflexivity.
Qed.

End Locked.

(** X3. As long as no run of a session submits credentials whose digest
    matches, the session has done nothing behind the gate: the gate is
    closed, no object was constructed, no function was entered, and neither
    chat history nor services nor a selected question exist. *)
Theorem rejected_session_stays_locked (env : Environment) (runs : list Frontend) :
  forallb (rejected env) runs = true ->
  let w := session env runs in
  gate_open w = false /\ heap w = [] /\ trace w = []
  /\ session_state w !! "chat_history" = None
  /\ session_state w !! "base_services" = None
  /\ session_state w !! "selected_question" = None.
Proof.
  cbv zeta. induction runs as [|fe runs IH] using rev_ind; intros H.
  - cbn. rewrite !lookup_empty. repeat split; reflexivity.
  - rewrite forallb_app in H. apply andb_prop in H as [Hruns Hfe].
    cbn [forallb] in Hfe. rewrite andb_true_r in Hfe.
    rewrite session_snoc. apply (script_run_rejected env fe _ Hfe), IH, Hruns.
Qed.

Lemma rejected_session_stays_locked_witness :
  let runs := [page_load; {| credentials := Some ("ab", "d"); clicked := None;
                             chat_input := Some "hello"; top_k_slider := None;
                             threshold_slider := None |}; sample_question] in
  forallb (rejected answering_env) runs = true
  /\ trace (session answering_env runs) = []
  /\ gate_open (session answering_env runs) = false.
Proof.
  cbv zeta.
  match goal with |- forallb _ ?r = true /\ _ =>
    assert (forallb (rejected answering_env) r = true) as H by (vm_compute; reflexivity);
    destruct (rejected_session_stays_locked answering_env r H) as (Hg & _ & Ht & _)
  end.
  split; [exact H|]. split; [exact Ht | exact Hg].
Defined.

(** X4. When [DEMO_USERNAME] or [DEMO_PASSWORD] is not set, nothing that is
    entered opens the gate: [username + password] raises in the callback, and
    every session stays locked with nothing constructed and nothing asked. *)
Theorem unset_credentials_lock_every_session (env : Environment) (runs : list Frontend) :
  getenv env "DEMO_USERNAME" = None \/ getenv env "DEMO_PASSWORD" = None ->
  (forall eu ep w,
     fst (deliver_credentials env eu ep w) = Halt (Exception TypeError))
  /\ gate_open (session env runs) = false
  /\ heap (session env runs) = [] /\ trace (session env runs) = [].
Proof.
  intros H. split.
  - intros eu ep w. unfold deliver_credentials. rewrite callback_run.
    rewrite (password_entered_unset _ _ eu ep);
      [reflexivity | apply entered_username | apply entered_password | exact H].
  - assert (forallb (rejected env) runs = true) as Hr.
    { apply forallb_forall. intros fe _. apply rejected_without_credentials, H. }
    destruct (session_rejected env runs Hr) as (Hg & Hh & Ht & _). auto.
Qed.

Lemma unset_credentials_lock_every_session_witness :
  let env := {| getenv := fun _ => None; load_config := fun k => k;
                pipeline := fun _ _ _ _ _ q => Returned q;
                constructor_error := fun _ => None |} in
  (getenv env "DEMO_USERNAME" = None \/ getenv env "DEMO_PASSWORD" = None)
  /\ gate_open (session env sample_session) = false
  /\ trace (session env sample_session) = [].
Proof.
  cbv zeta.
  match goal with |- (getenv ?e _ = None \/ _) /\ _ =>
    assert (getenv e "DEMO_USERNAME" = None \/ getenv e "DEMO_PASSWORD" = None) as H
      by (left; reflexivity);
    destruct (unset_credentials_lock_every_session e sample_session H)
      as (_ & Hg & _ & Ht)
  end.
  split; [exact H|]. split; [exact Hg | exact Ht].
Defined.

(** ** The callback of the password field *)

(** X5. [password_entered] reads both login fields before anything else: a
    missing [username] raises [KeyError] for it, a missing [password] (with
    [username] present) raises [KeyError] for that, and in both cases the
    session state is left as it was, without [password_correct] being set. *)
Theorem password_entered_needs_both_fields (username password : option string)
    (w : World) :
  (session_state w !! "username" = None ->
   password_entered username password w = (Halt (Exception (KeyError "username")), w))
  /\ (is_Some (session_state w !! "username") ->
      session_state w !! "password" = None ->
      password_entered username password w
      = (Halt (Exception (KeyError "password")), w)).
Proof.
  split.
  - intros H. unfold password_entered.
    apply bind_halt. unfold get_item. rewrite H. reflexivity.
  - intros [v Hv] H. unfold password_entered.
    erewrite bind_done by (apply get_item_run, Hv).
    apply bind_halt. unfold get_item. rewrite H. reflexivity.
Qed.

(** ** The sidebar *)

Section Labels.

Lemma length_append (a b : string) :
  String.length (a ++ b) = (String.length a + String.length b)%nat.
Proof. induction a as [|c a IH]; simpl; [reflexivity | rewrite IH; reflexivity]. Qed.

Lemma length_prefix (n : nat) (s : string) :
  String.length (substring 0 n s) = Nat.min n (String.length s).
Proof.
  revert s. induction n as [|n IH]; intros [|c s]; simpl; try reflexivity.
  rewrite IH. reflexivity.
Qed.

Lemma substring_whole (s : string) : substring 0 (String.length s) s = s.
Proof. induction s as [|c s IH]; simpl; [reflexivity | rewrite IH; reflexivity]. Qed.

Lemma prefix_and_rest (n : nat) (s : string) :
  s = (substring 0 n s ++ substring n (String.length s - n) s)%string.
Proof.
  revert s. induction n as [|n IH]; intros s.
  - rewrite Nat.sub_0_r, substring_whole. destruct s; reflexivity.
  - destruct s as [|c s]; [reflexivity|].
    simpl. change (String c s = String c (substring 0 n s
                                          ++ substring n (String.length s - n) s)).
    f_equal. apply IH.
Qed.

End Labels.

(** X6. A button label is never longer than 63 characters.  A question of at
    most 60 characters is its own label; a longer one is labelled by its
    first 60 characters followed by three dots, so the label is a proper
    abbreviation of the question. *)
Theorem button_label_abbreviates (question : string) :
  (String.length (button_label question) <= 63)%nat
  /\ ((String.length question <= 60)%nat -> button_label question = question)
  /\ ((60 < String.length question)%nat ->
      exists head rest,
        String.length head = 60%nat /\ question = (head ++ rest)%string
        /\ rest <> ""
        /\ button_label question = (head ++ "...")%string).
Proof.
  unfold button_label.
  destruct (Nat.ltb_spec 60 (String.length question)) as [H|H].
  - split; [|split].
    + rewrite length_append, length_prefix. cbn [String.length]. lia.
    + lia.
    + intros _. exists (substring 0 60 question),
        (substring 60 (String.length question - 60) question).
      split; [rewrite length_prefix; lia|].
      split; [apply prefix_and_rest|].
      split; [|reflexivity].
      intros E. pose proof (prefix_and_rest 60 question) as Hq.
      rewrite E in Hq. apply (f_equal String.length) in Hq.
      rewrite length_append, length_prefix in Hq. cbn [String.length] in Hq. lia.
  - split; [lia|]. split; [reflexivity | lia].
Qed.

Section Suggestions.
Variable fe : Frontend.

Lemma st_button_run label question w :
  st_button fe label question w =
    (Done (bool_decide (clicked fe = Some question)),
     {| session_state := session_state w; heap := heap w; trace := trace w;
        screen := (screen w ++ [{| kind := "button"; body := label |}])%list |}).
Proof. reflexivity. Qed.

Lemma question_buttons_miss question_list w :
  (forall q, clicked fe = Some q -> ~ In q question_list) ->
  exists sc, question_buttons fe question_list w = (Done tt, {| session_state := session_state w; heap := heap w; trace := trace w;
         screen := sc |}).
Proof.
  revert w. induction question_list as [|question rest IH]; intros w Hmiss.
  - exists (screen w). destruct w; reflexivity.
  - cbn [question_buttons].
    erewrite bind_done by apply st_button_run.
    rewrite bool_decide_eq_false_2
      by (intros H; apply (Hmiss question H); left; reflexivity).
    erewrite bind_done by reflexivity.
    edestruct IH as [sc ->].
    { intros q H Hin. apply (Hmiss q H). right. exact Hin. }
    exists sc. reflexivity.
Qed.

Lemma question_buttons_hit q question_list w :
  clicked fe = Some q -> In q question_list ->
  exists sc,
    question_buttons fe question_list w =
      (Halt RerunScript,
       {| session_state := <["selected_question" := VStr q]> (session_state w);
          heap := heap w; trace := trace w; screen := sc |}).
Proof.
  intros Hc. revert w. induction question_list as [|question rest IH]; intros w Hin.
  - destruct Hin.
  - cbn [question_buttons].
    erewrite bind_done by apply st_button_run.
    destruct (decide (q = question)) as [->|Hne].
    + rewrite bool_decide_eq_true_2 by exact Hc.
      eexists. erewrite bind_halt; reflexivity.
    + rewrite bool_decide_eq_false_2 by (rewrite Hc; congruence).
      erewrite bind_done by reflexivity.
      destruct Hin as [Hin|Hin]; [congruence|].
      edestruct IH as [sc ->]; [exact Hin|].
      exists sc. reflexivity.
Qed.

Lemma question_categories_miss items w :
  (forall q, clicked fe = Some q -> ~ In q (flat_map snd items)) ->
  exists sc, question_categories fe items w = (Done tt, {| session_state := session_state w; heap := heap w; trace := trace w;
         screen := sc |}).
Proof.
  revert w. induction items as [|[category question_list] rest IH]; intros w Hmiss.
  - exists (screen w). destruct w; reflexivity.
  - cbn [question_categories].
    erewrite bind_done by reflexivity.
    edestruct (question_buttons_miss question_list) as [sc1 E1];
      [|erewrite bind_done by apply E1].
    { intros q H Hin. apply (Hmiss q H). cbn [flat_map snd].
      apply in_or_app. left. exact Hin. }
    erewrite bind_done by reflexivity.
    edestruct IH as [sc ->].
    { intros q H Hin. apply (Hmiss q H). cbn [flat_map snd].
      apply in_or_app. right. exact Hin. }
    exists sc. reflexivity.
Qed.

Lemma question_categories_hit q items w :
  clicked fe = Some q -> In q (flat_map snd items) ->
  exists sc,
    question_categories fe items w =
      (Halt RerunScript,
       {| session_state := <["selected_question" := VStr q]> (session_state w);
          heap := heap w; trace := trace w; screen := sc |}).
Proof.
  intros Hc. revert w.
  induction items as [|[category question_list] rest IH]; intros w Hin.
  - destruct Hin.
  - cbn [question_categories].
    erewrite bind_done by reflexivity.
    destruct (in_dec string_dec q question_list) as [Hq|Hq].
    + edestruct (question_buttons_hit q question_list) as [sc E]; [exact Hc|exact Hq|].
      exists sc. erewrite bind_halt by apply E. reflexivity.
    + edestruct (question_buttons_miss question_list) as [sc1 E1];
        [|erewrite bind_done by apply E1].
      { intros q' H. rewrite Hc in H. injection H as <-. exact Hq. }
      erewrite bind_done by reflexivity.
      cbn [flat_map snd] in Hin. apply in_app_or in Hin as [Hin|Hin]; [contradiction|].
      edestruct IH as [sc ->]; [exact Hin|].
      exists sc. reflexivity.
Qed.

Lemma slider_run {A} label (inside : A -> bool) value position w :
  slider label inside value position w =
    (Done (slider_value inside value position),
     {| session_state := session_state w; heap := heap w; trace := trace w;
        screen := (screen w ++ [{| kind := "slider"; body := label |}])%list |}).
Proof. reflexivity. Qed.

Lemma setup_sidebar_miss w :
  no_click fe ->
  exists sc, setup_sidebar fe w = (Done (chosen fe), {| session_state := session_state w; heap := heap w; trace := trace w;
         screen := sc |}).
Proof.
  intros Hmiss. unfold setup_sidebar.
  erewrite bind_done by reflexivity. erewrite bind_done by reflexivity.
  edestruct (question_categories_miss questions) as [sc E];
    [exact Hmiss | erewrite bind_done by apply E].
  erewrite bind_done by reflexivity. erewrite bind_done by reflexivity.
  erewrite bind_done by apply slider_run.
  erewrite bind_done by apply slider_run.
  eexists. reflexivity.
Qed.

Lemma setup_sidebar_hit q w :
  clicked fe = Some q -> In q all_questions ->
  exists sc,
    setup_sidebar fe w =
      (Halt RerunScript,
       {| session_state := <["selected_question" := VStr q]> (session_state w);
          heap := heap w; trace := trace w; screen := sc |}).
Proof.
  intros Hc Hin. unfold setup_sidebar.
  erewrite bind_done by reflexivity. erewrite bind_done by reflexivity.
  edestruct (question_categories_hit q questions) as [sc E]; [exact Hc|exact Hin|].
  exists sc. erewrite bind_halt by apply E. reflexivity.
Qed.

End Suggestions.

(** X7. A click on one of the listed suggestions makes [setup_sidebar] store
    that question as [selected_question] and rerun the script at once:
    nothing is handed back to [main], nothing is constructed or asked, and
    nothing else in the session state changes. *)
Theorem sidebar_click_selects_and_reruns (fe : Frontend) (q : string) (w : World) :
  clicked fe = Some q -> In q all_questions ->
  let r := setup_sidebar fe w in
  fst r = Halt RerunScript
  /\ session_state (snd r) = <["selected_question" := VStr q]> (session_state w)
  /\ heap (snd r) = heap w /\ trace (snd r) = trace w.
Proof.
  intros Hc Hin. cbv zeta.
  destruct (setup_sidebar_hit fe q w Hc Hin) as [sc ->].
  repeat split; reflexivity.
Qed.

Lemma sidebar_click_selects_and_reruns_witness :
  let q := "I want to simplify file system management by using Amazon's managed EFS solution." in
  let fe := {| credentials := None; clicked := Some q; chat_input := Some "hello";
               top_k_slider := None; threshold_slider := None |} in
  In q all_questions
  /\ fst (setup_sidebar fe ready_world) = Halt RerunScript
  /\ session_state (snd (setup_sidebar fe ready_world)) !! "selected_question"
     = Some (VStr q).
Proof.
  cbv zeta.
  match goal with |- In ?q _ /\ fst (setup_sidebar ?fe _) = _ /\ _ =>
    assert (In q all_questions) as Hin by (cbn; tauto);
    destruct (sidebar_click_selects_and_reruns fe q ready_world eq_refl Hin)
      as (H1 & H2 & _)
  end.
  split; [exact Hin|]. split; [exact H1|].
  rewrite H2. apply lookup_insert_eq.
Defined.

(** X8. Without a click on a listed suggestion, [setup_sidebar] runs to its
    end, hands back the positions of the two sliders (the defaults 3 and
    0.32 where a slider was not moved or is out of its bounds), and leaves
    heap and trace as they were, and the session state at every key that is
    not a button's. *)
Theorem sidebar_without_click_returns_settings (fe : Frontend) (w : World) :
  no_click fe ->
  let r := setup_sidebar fe w in
  fst r = Done (chosen fe)
  /\ (forall key, button_key key = false ->
        session_state (snd r) !! key = session_state w !! key)
  /\ heap (snd r) = heap w /\ trace (snd r) = trace w
  /\ in_range (fst (chosen fe)) (snd (chosen fe)) = true.
Proof.
  intros Hmiss. cbv zeta.
  destruct (setup_sidebar_miss fe w Hmiss) as [sc ->].
  split; [reflexivity|]. split; [intros key _; reflexivity|].
  do 2 (split; [reflexivity|]).
  unfold chosen, in_range. cbn [fst snd].
  set (k := slider_value _ 3 _). set (t := slider_value _ 0.32%float _).
  assert (Z.leb 1 k && Z.leb k 10 = true) as Hk.
  { subst k. unfold slider_value. destruct (top_k_slider fe) as [v|]; [|reflexivity].
    destruct (Z.leb 1 v && Z.leb v 10) eqn:E; [exact E | reflexivity]. }
  assert (PrimFloat.leb 0 t && PrimFloat.leb t 1 = true) as Ht.
  { subst t. unfold slider_value.
    destruct (threshold_slider fe) as [v|]; [|reflexivity].
    destruct (PrimFloat.leb 0 v && PrimFloat.leb v 1) eqn:E; [exact E | reflexivity]. }
  rewrite Hk. exact Ht.
Qed.

Lemma sidebar_without_click_returns_settings_witness :
  no_click sample_question
  /\ fst (setup_sidebar sample_question ready_world) = Done (5, 0.5%float)
  /\ trace (snd (setup_sidebar sample_question ready_world)) = trace ready_world.
Proof.
  assert (no_click sample_question) as Hmiss by (intros q H; discriminate H).
  destruct (sidebar_without_click_returns_settings sample_question ready_world Hmiss)
    as (H1 & _ & _ & H2 & _).
  split; [exact Hmiss|]. split; [exact H1 | exact H2].
Defined.

(** ** Construction of the services *)

Section Wiring.
Variable env : Environment.

(** An attempt at initialisation, for any configuration. *)
Lemma initialize_services_any config w :
  initialize_services env config w =
    (match first_error env (service_objects env config (length (heap w))) with
     | None => Done (init_services (length (heap w)))
     | Some e => Halt (Exception e)
     end,
     {| session_state := session_state w;
        heap := (heap w ++ built env (service_objects env config (length (heap w))))%list;
        trace := (trace w ++ EvCall "initialize_services"
                    :: news (length (heap w))
                            (built env (service_objects env config (length (heap w)))))%list;
        screen := (screen w ++ {| kind := "spinner"; body := "Initializing LLM..." |}
                    :: match first_error env
                               (service_objects env config (length (heap w))) with
                       | None => [{| kind := "success";
                                     body := "LLM initialized: "
                                             ++ load_config env "inference_model" |}]
                       | Some _ => []
                       end)%list |}).
Proof.
  destruct w as [ss hp tr sc]. unfold initialize_services, service_objects.
  cbn [session_state heap trace screen built first_error].
  erewrite bind_done by reflexivity.
  erewrite bind_done by reflexivity.
  cbn [session_state heap trace screen].
  do 7 (construct_step;
        [cbn [news]; rewrite <- ?app_assoc, ?app_nil_r; cbn [app]; reflexivity|]).
  erewrite bind_done by reflexivity.
  unfold ret. norm_world. reflexivity.
Qed.

Lemma lookup_fresh (h l : list Object) (i : nat) (o : Object) :
  l !! i = Some o -> ((h ++ l)%list) !! (i + length h)%nat = Some o.
Proof. intros H. rewrite heap_lookup_new. exact H. Qed.

End Wiring.

(** X9. For any configuration and any world, [initialize_services] is
    entered once and either runs to its end, when none of its seven
    constructor calls raises, or ends with what the first constructor that
    raises has raised, the services before that one constructed and no
    others.  When it runs to its end it returns a dictionary of seven
    distinct addresses that were free before, and there the heap holds the
    services wired to one another: both clients come from the session of
    the same dictionary, the retrieval service works on its vector client
    and its S3 client, both OpenAI services hold the configured key, and
    the augmenter reads 'rag_prompt.md'.  Either way the objects that
    existed keep their place and the session state is not touched. *)
Theorem initialize_services_wires_fresh_objects
    (env : Environment) (config : Config) (w : World) :
  let n := length (heap w) in
  let r := initialize_services env config w in
  session_state (snd r) = session_state w
  /\ heap (snd r) = (heap w ++ built env (service_objects env config n))%list
  /\ calls "initialize_services" (added w (snd r)) = 1%nat
  /\ match first_error env (service_objects env config n) with
     | None =>
         exists s,
           fst r = Done s
           /\ wired env config (heap (snd r)) s
           /\ NoDup (addresses s)
           /\ Forall (fun a => (n <= a < length (heap (snd r)))%nat) (addresses s)
     | Some e => fst r = Halt (Exception e)
     end.
Proof.
  cbv zeta. rewrite initialize_services_any. cbn [fst snd heap session_state trace].
  split; [reflexivity|]. split; [reflexivity|]. split.
  - rewrite added_app. unfold service_objects. cbn [built].
    repeat (match goal with
            | |- context [constructor_error env ?o] =>
                destruct (constructor_error env o); cbn [built]
            end); reflexivity.
  - destruct (first_error env (service_objects env config (length (heap w)))) eqn:E;
      [reflexivity|].
    rewrite (built_all env _ E).
    exists (init_services (length (heap w))). split; [reflexivity|].
    split; [|split].
    + unfold wired, init_services, service_objects.
      cbn [aws_session s3_client vector_client
           embedding_service generation_service retrieval_service augmenter].
      repeat split.
      * apply (lookup_fresh _ _ 0). reflexivity.
      * apply (lookup_fresh _ _ 1). reflexivity.
      * apply (lookup_fresh _ _ 2). reflexivity.
      * apply (lookup_fresh _ _ 3). reflexivity.
      * apply (lookup_fresh _ _ 4). reflexivity.
      * apply (lookup_fresh _ _ 5). reflexivity.
      * apply (lookup_fresh _ _ 6). reflexivity.
    + unfold addresses, init_services. cbn [aws_session s3_client vector_client
        embedding_service generation_service retrieval_service augmenter].
      repeat (apply NoDup_cons; split;
              [rewrite ?elem_of_cons, elem_of_nil; lia|]).
      apply NoDup_nil_2.
    + unfold addresses, init_services. cbn [aws_session s3_client vector_client
        embedding_service generation_service retrieval_service augmenter].
      rewrite length_app. cbn [length service_objects].
      repeat (apply Forall_cons; split; [lia|]). apply Forall_nil_2.
Qed.

Lemma initialize_services_wires_fresh_objects_witness :
  first_error templateless_env
    (service_objects templateless_env (load_environment_config templateless_env) 0)
  = Some TemplateError
  /\ fst (initialize_services templateless_env
            (load_environment_config templateless_env) empty_world)
     = Halt (Exception TemplateError)
  /\ length (heap (snd (initialize_services templateless_env
                          (load_environment_config templateless_env) empty_world)))
     = 6%nat.
Proof.
  pose proof (initialize_services_wires_fresh_objects templateless_env
                (load_environment_config templateless_env) empty_world) as H.
  cbv zeta in H. destruct H as (_ & Hh & _ & H).
  split; [reflexivity|]. split; [exact H|]. rewrite Hh. reflexivity.
Defined.

(** ** A turn without its prerequisites *)

Section Prerequisites.
Variable env : Environment.

Lemma process_user_query_without_services q k t w :
  session_state w !! "base_services" = None ->
  process_user_query env q k t w =
    (Halt (Exception (AttributeError "base_services")),
     {| session_state := session_state w;
        heap := (heap w ++ [ ProcessTimer [];
                             RetrievalConfigObj (turn_config k t);
                             ProcessorConfigObj (S (length (heap w))) ])%list;
        trace := (trace w ++ [ EvCall "process_user_query";
                               EvNew (length (heap w)) (ProcessTimer []);
                               EvNew (S (length (heap w)))
                                     (RetrievalConfigObj (turn_config k t));
                               EvNew (S (S (length (heap w))))
                                     (ProcessorConfigObj (S (length (heap w)))) ])%list;
        screen := (screen w ++ [spinner])%list |}).
Proof.
  destruct w as [ss hp tr sc]. cbn [session_state heap trace screen]. intros H.
  unfold process_user_query.
  erewrite bind_done by reflexivity.
  erewrite bind_done by apply new_run.
  erewrite bind_done by reflexivity.
  erewrite bind_done by apply new_run.
  erewrite bind_done by apply new_run.
  erewrite bind_halt;
    [|unfold base_services; apply bind_halt; unfold get_attr;
      cbn [session_state]; rewrite H; reflexivity].
  norm_world. reflexivity.
Qed.

End Prerequisites.

(** X10. Called while [base_services] is missing, [process_user_query]
    raises [AttributeError] for it before a processor exists: the pipeline is
    not invoked, nothing is appended, and the session state is as before;
    what remains are the timer and the two configurations already built. *)
Theorem turn_without_services_asks_nothing
    (env : Environment) (q : string) (k : Z) (t : float) (w : World) :
  session_state w !! "base_services" = None ->
  let r := process_user_query env q k t w in
  fst r = Halt (Exception (AttributeError "base_services"))
  /\ session_state (snd r) = session_state w
  /\ pipeline_calls (added w (snd r)) = []
  /\ appends (added w (snd r)) = []
  /\ processors (added w (snd r)) = []
  /\ length (heap (snd r)) = (length (heap w) + 3)%nat.
Proof.
  intros H. cbv zeta. rewrite (process_user_query_without_services env q k t w H).
  cbn [fst snd session_state heap]. rewrite added_app, length_app.
  repeat split; reflexivity.
Qed.

Lemma turn_without_services_asks_nothing_witness :
  session_state selected_world !! "base_services" = None
  /\ fst (process_user_query answering_env "hello" 3 0.32%float selected_world)
     = Halt (Exception (AttributeError "base_services"))
  /\ pipeline_calls
       (added selected_world
          (snd (process_user_query answering_env "hello" 3 0.32%float selected_world)))
     = [].
Proof.
  assert (session_state selected_world !! "base_services" = None) as H by reflexivity.
  destruct (turn_without_services_asks_nothing answering_env "hello" 3 0.32%float
              selected_world H) as (H1 & _ & H2 & _).
  split; [exact H|]. split; [exact H1 | exact H2].
Defined.

(** X11. Called with services in place but without a [chat_history], the
    function still invokes the pipeline, once and on the question given;
    when the pipeline returns, the answer is lost: appending raises
    [AttributeError] and the session state is as before. *)
Theorem turn_without_history_loses_the_answer
    (env : Environment) (q : string) (k : Z) (t : float) (w : World) (s : Services) :
  session_state w !! "base_services" = Some (VServices s) ->
  session_state w !! "chat_history" = None ->
  let r := process_user_query env q k t w in
  fst r = match turn_outcome env s q k t with
          | Returned _ => Halt (Exception (AttributeError "chat_history"))
          | Raised e => Halt (Exception e)
          end
  /\ session_state (snd r) = session_state w
  /\ pipeline_calls (added w (snd r))
     = [(S (S (S (length (heap w)))), q, turn_outcome env s q k t)]
  /\ appends (added w (snd r)) = [].
Proof.
  intros Hs Hh. cbv zeta. rewrite (process_user_query_prefix env q k t w s Hs).
  cbv zeta. unfold turn_events.
  destruct (turn_outcome env s q k t) as [r|e].
  - rewrite chat_history_append_run. cbn [session_state]. rewrite Hh.
    cbn [fst snd session_state trace]. rewrite added_app.
    repeat split; reflexivity.
  - cbn [fst snd session_state trace]. rewrite added_app.
    repeat split; reflexivity.
Qed.

Lemma turn_without_history_loses_the_answer_witness :
  let w := {| session_state := <["base_services" := VServices (init_services 0)]> ∅;
              heap := init_objects answering_env 0;
              trace := []; screen := [] |} in
  let r := process_user_query answering_env "hello" 3 0.32%float w in
  session_state w !! "base_services" = Some (VServices (init_services 0))
  /\ session_state w !! "chat_history" = None
  /\ fst r = Halt (Exception (AttributeError "chat_history"))
  /\ pipeline_calls (added w (snd r)) = [(10%nat, "hello", Returned "answer to hello")].
Proof.
  cbv zeta.
  match goal with |- session_state ?w !! _ = _ /\ _ =>
    assert (session_state w !! "base_services" = Some (VServices (init_services 0)))
      as Hs by reflexivity;
    assert (session_state w !! "chat_history" = None) as Hh by reflexivity;
    destruct (turn_without_history_loses_the_answer answering_env "hello" 3 0.32%float
                w (init_services 0) Hs Hh) as (H1 & _ & H2 & _)
  end.
  split; [exact Hs|]. split; [exact Hh|]. split; [exact H1 | exact H2].
Defined.

(** ** What a session accumulates *)

Section Growth.
Variable env : Environment.

Lemma answered_app cs1 cs2 : answered (cs1 ++ cs2) = (answered cs1 ++ answered cs2)%list.
Proof.
  induction cs1 as [|[[p q] [r|e]] cs1 IH]; cbn [answered app]; congruence.
Qed.

Lemma questions_asked_app tr1 tr2 :
  questions_asked (tr1 ++ tr2) = (questions_asked tr1 ++ questions_asked tr2)%list.
Proof. unfold questions_asked. rewrite pipeline_calls_app. apply map_app. Qed.

(** One step adds events and objects at the end; the history grows by the
    exchanges the added pipeline calls returned, and these are the entries
    appended. *)
Lemma step_grows allow w w' :
  step allow env w w' ->
  exists evs objs,
    trace w' = (trace w ++ evs)%list /\ heap w' = (heap w ++ objs)%list
    /\ history_of w' = (history_of w ++ answered (pipeline_calls evs))%list
    /\ appends evs = answered (pipeline_calls evs).
Proof.
  intros Hstep.
  destruct Hstep as [kd b|key v Hk|Hh|key Hk|Hs|q k t _ Hr _].
  - exists [], []. cbn [snd render trace heap pipeline_calls answered appends].
    unfold history_of. cbn [session_state]. rewrite !app_nil_r. auto.
  - exists [], []. cbn [snd set_item trace heap pipeline_calls answered appends].
    unfold history_of. cbn [session_state].
    rewrite lookup_insert_ne by (eapply widget_key; eauto).
    rewrite !app_nil_r. auto.
  - exists [], []. cbn [snd set_item trace heap pipeline_calls answered appends].
    unfold history_of. cbn [session_state].
    rewrite lookup_insert_eq, Hh, !app_nil_r. auto.
  - exists [], []. unfold del_item.
    destruct (session_state w !! key) eqn:E;
      cbn [snd trace heap pipeline_calls answered appends];
      unfold history_of; cbn [session_state];
      rewrite ?lookup_delete_ne by (eapply removable_key; eauto);
      rewrite !app_nil_r; auto.
  - rewrite install_services_attempt.
    destruct (attempt_trace env (length (heap w))) as (E1 & E2 & _).
    eexists _, _. cbn [snd trace heap].
    split; [reflexivity|]. split; [reflexivity|].
    rewrite E1, E2. cbn [answered]. rewrite app_nil_r. split; [|reflexivity].
    unfold history_of. cbn [session_state].
    destruct (init_error env (length (heap w))); [reflexivity|].
    rewrite lookup_insert_ne by discriminate. reflexivity.
  - apply ready_lookup in Hr as (s & h & Hs & Hh).
    rewrite (process_user_query_run env q k t w s h Hs Hh). cbv zeta.
    unfold history_of at 2. rewrite Hh. unfold turn_events.
    destruct (turn_outcome env s q k t) as [r|e]; eexists _, _;
      cbn [snd trace heap]; (split; [reflexivity|]); (split; [reflexivity|]);
      unfold history_of; cbn [session_state];
      rewrite ?lookup_insert_eq, ?Hh; cbn; rewrite ?app_nil_r; auto.
Qed.

Lemma steps_grow allow w w' :
  steps allow env w w' ->
  exists evs objs,
    trace w' = (trace w ++ evs)%list /\ heap w' = (heap w ++ objs)%list
    /\ history_of w' = (history_of w ++ answered (pipeline_calls evs))%list
    /\ appends evs = answered (pipeline_calls evs).
Proof.
  intros H. apply (steps_invariant allow env) with (w := w) (w' := w'); [|exact H|].
  - intros w1 w2 (evs & objs & Ht & Hh & Hy & Ha) Hstep.
    destruct (step_grows allow w1 w2 Hstep) as (evs' & objs' & Ht' & Hh' & Hy' & Ha').
    exists (evs ++ evs')%list, (objs ++ objs')%list.
    rewrite Ht', Ht, Hh', Hh, Hy', Hy, pipeline_calls_app, answered_app, appends_app,
      Ha, Ha', <- !app_assoc. auto.
  - exists [], []. cbn. rewrite !app_nil_r. auto.
Qed.

Lemma session_continues runs more :
  steps (answering env) env (session env runs) (session env (runs ++ more)).
Proof.
  induction more as [|fe more IH] using rev_ind.
  - rewrite app_nil_r. apply rtc_refl.
  - rewrite app_assoc, session_snoc.
    eapply steps_trans; [exact IH|].
    apply script_run_steps. apply session_steps.
Qed.

End Growth.

(** X12. At every point of every session the chat history is exactly the
    list of exchanges of the pipeline calls that returned, in the order of
    the calls, each with the question that was asked and the answer that
    came back; and it is exactly what was appended.  No entry is ever
    dropped, changed, reordered or made up. *)
Theorem history_records_returned_calls (env : Environment) (runs : list Frontend) :
  let w := session env runs in
  history_of w = answered (pipeline_calls (trace w))
  /\ history_of w = appends (trace w).
Proof.
  cbv zeta. destruct (session_steps env runs) as [Hsteps _].
  destruct (steps_grow env _ _ _ Hsteps) as (evs & objs & Ht & _ & Hy & Ha).
  change (trace empty_world) with (@nil Event) in Ht.
  change (history_of empty_world) with (@nil Exchange) in Hy.
  rewrite app_nil_l in Ht, Hy. rewrite Ht, Hy. split; [reflexivity | congruence].
Qed.

(** X13. A session only grows: after further runs the trace, the heap and
    the chat history still begin with what they were.  In particular no
    object is changed or removed once the run that built it is over, and no
    exchange leaves the chat history. *)
Theorem session_only_grows (env : Environment) (runs more : list Frontend) :
  let w := session env runs in
  let w' := session env (runs ++ more) in
  trace w `prefix_of` trace w'
  /\ heap w `prefix_of` heap w'
  /\ history_of w `prefix_of` history_of w'.
Proof.
  cbv zeta.
  destruct (steps_grow env _ _ _ (session_continues env runs more))
    as (evs & objs & -> & -> & -> & _).
  repeat split; apply prefix_app_r; reflexivity.
Qed.

(** ** The page of the conversation *)

Section Display.

Lemma display_exchanges_run h w :
  display_exchanges h w =
    (Done tt,
     {| session_state := session_state w; heap := heap w; trace := trace w;
        screen := (screen w ++ flat_map bubbles h)%list |}).
Proof.
  revert w. induction h as [|e h IH]; intros w.
  - cbn [display_exchanges flat_map]. rewrite app_nil_r. destruct w; reflexivity.
  - cbn [display_exchanges].
    do 4 (erewrite bind_done by reflexivity).
    rewrite IH. cbn [session_state heap trace screen flat_map bubbles].
    rewrite <- !app_assoc. reflexivity.
Qed.

End Display.

(** X14. [display_chat_history] shows every exchange of the chat history in
    order, the user's text and then the assistant's, four page elements per
    exchange, and changes nothing but the page; without a chat history it
    raises [AttributeError] and shows nothing. *)
Theorem display_chat_history_shows_every_exchange (w : World) :
  match session_state w !! "chat_history" with
  | Some (VHistory h) =>
      display_chat_history w =
        (Done tt,
         {| session_state := session_state w; heap := heap w; trace := trace w;
            screen := (screen w ++ flat_map bubbles h)%list |})
      /\ length (flat_map bubbles h) = (4 * length h)%nat
  | Some _ => True
  | None =>
      display_chat_history w = (Halt (Exception (AttributeError "chat_history")), w)
  end.
Proof.
  destruct (session_state w !! "chat_history") as [[x|x|h|x]|] eqn:E; try exact I.
  - split.
    + unfold display_chat_history.
      erewrite bind_done by (unfold get_attr; rewrite E; reflexivity).
      apply display_exchanges_run.
    + clear E. induction h as [|e h IH]; cbn [flat_map bubbles length app]; [reflexivity|].
      rewrite IH. lia.
  - unfold display_chat_history. apply bind_halt.
    unfold get_attr. rewrite E. reflexivity.
Qed.

(** ** What [main] may write *)

Section MainFrame.
Variable env : Environment.

Lemma writes_only_new keys o : writes_only keys (new o).
Proof. frame_leaf. Qed.

Lemma writes_only_mark keys pt name : writes_only keys (mark pt name).
Proof.
  intros w key _. unfold mark.
  destruct (heap w !! pt) as [[]|]; reflexivity.
Qed.

Lemma writes_only_process_query keys p q : writes_only keys (process_query env p q).
Proof.
  intros w key _. unfold process_query.
  destruct (processor_view (heap w) p) as [[[[[e r] a] g] cfg]|]; [|reflexivity].
  destruct (pipeline env e r a g cfg q); reflexivity.
Qed.

Lemma writes_only_base_services keys : writes_only keys base_services.
Proof.
  unfold base_services.
  apply writes_only_bind; [apply writes_only_get_attr | intros [x|x|x|x]; frame_leaf].
Qed.

Lemma writes_only_chat_history_append keys e :
  In "chat_history" keys -> writes_only keys (chat_history_append e).
Proof.
  intros Hin. unfold chat_history_append.
  apply writes_only_bind; [apply writes_only_get_attr | intros [x|x|h|x]]; try frame_leaf.
  apply writes_only_bind; [apply writes_only_set, Hin | intros ?; frame_leaf].
Qed.

Lemma writes_only_process_user_query keys q k t :
  In "chat_history" keys -> writes_only keys (process_user_query env q k t).
Proof.
  intros Hin. unfold process_user_query.
  apply writes_only_bind; [frame_leaf | intros ?].
  apply writes_only_bind; [frame_leaf | intros pt].
  apply writes_only_bind; [frame_leaf | intros ?].
  apply writes_only_bind; [frame_leaf | intros rc].
  apply writes_only_bind; [frame_leaf | intros cfg].
  apply writes_only_bind; [apply writes_only_base_services | intros s].
  apply writes_only_bind; [frame_leaf | intros p].
  apply writes_only_bind; [apply writes_only_mark | intros ?].
  apply writes_only_bind; [apply writes_only_process_query | intros response].
  apply writes_only_bind; [apply writes_only_mark | intros ?].
  apply writes_only_chat_history_append, Hin.
Qed.

Lemma writes_only_initialize_services keys config :
  writes_only keys (initialize_services env config).
Proof.
  intros w key _. rewrite initialize_services_any. reflexivity.
Qed.

Lemma writes_only_question_buttons keys fe question_list :
  In "selected_question" keys -> writes_only keys (question_buttons fe question_list).
Proof.
  intros Hin. induction question_list as [|question rest IH]; cbn [question_buttons].
  - frame_leaf.
  - apply writes_only_bind; [frame_leaf | intros pressed].
    apply writes_only_bind; [|intros ?; exact IH].
    apply writes_only_if; [|frame_leaf].
    apply writes_only_bind; [apply writes_only_set, Hin | intros ?; frame_leaf].
Qed.

Lemma writes_only_question_categories keys fe items :
  In "selected_question" keys -> writes_only keys (question_categories fe items).
Proof.
  intros Hin. induction items as [|[category question_list] rest IH];
    cbn [question_categories].
  - frame_leaf.
  - apply writes_only_bind; [frame_leaf | intros ?].
    apply writes_only_bind; [apply writes_only_question_buttons, Hin | intros ?].
    apply writes_only_bind; [frame_leaf | intros ?; exact IH].
Qed.

Lemma writes_only_setup_sidebar keys fe :
  In "selected_question" keys -> writes_only keys (setup_sidebar fe).
Proof.
  intros Hin. unfold setup_sidebar.
  apply writes_only_bind; [frame_leaf | intros ?].
  apply writes_only_bind; [frame_leaf | intros ?].
  apply writes_only_bind; [apply writes_only_question_categories, Hin | intros ?].
  apply writes_only_bind; [frame_leaf | intros ?].
  apply writes_only_bind; [frame_leaf | intros ?].
  apply writes_only_bind; [frame_leaf | intros top_k].
  apply writes_only_bind; [frame_leaf | intros threshold].
  frame_leaf.
Qed.

Lemma writes_only_display_chat_history keys : writes_only keys display_chat_history.
Proof.
  unfold display_chat_history.
  apply writes_only_bind; [apply writes_only_get_attr | intros [x|x|h|x]]; try frame_leaf.
  intros w key _. rewrite display_exchanges_run. reflexivity.
Qed.

Lemma writes_only_main fe : writes_only main_keys (main env fe).
Proof.
  unfold main, main_keys.
  apply writes_only_bind; [frame_leaf | intros ?].
  apply writes_only_bind.
  { eapply writes_only_more; [apply writes_only_check_authentication|].
    cbn. tauto. }
  intros ?.
  apply writes_only_bind; [frame_leaf | intros has_history].
  apply writes_only_bind; [apply writes_only_if; frame_leaf | intros ?].
  apply writes_only_bind; [frame_leaf | intros has_services].
  apply writes_only_bind.
  { apply writes_only_if; [frame_leaf|]. unfold install_services.
    apply writes_only_bind; [apply writes_only_initialize_services | intros s].
    frame_leaf. }
  intros ?.
  apply writes_only_bind; [apply writes_only_setup_sidebar; cbn; tauto | intros settings].
  apply writes_only_bind; [frame_leaf | intros selected].
  apply writes_only_bind.
  { apply writes_only_if; [|frame_leaf].
    apply writes_only_bind; [apply writes_only_get_attr | intros v].
    apply writes_only_bind; [frame_leaf | intros ?].
    apply writes_only_if; [|frame_leaf].
    apply writes_only_bind; [apply writes_only_as_str | intros q].
    apply writes_only_process_user_query. cbn. tauto. }
  intros ?.
  apply writes_only_bind; [frame_leaf | intros ?].
  apply writes_only_bind.
  { destruct (chat_input fe) as [user_input|]; [|frame_leaf].
    apply writes_only_if; [|frame_leaf].
    apply writes_only_process_user_query. cbn. tauto. }
  intros ?.
  apply writes_only_bind; [apply writes_only_display_chat_history | intros ?].
  frame_leaf.
Qed.

End MainFrame.

(** X15. Whatever the world, the widgets and the outcome, a run of [main]
    writes the session state, the entries of the suggestion buttons apart,
    at five keys at most: the two login fields, the chat history, the
    services and the selected question.  So [main] itself never sets or
    clears [password_correct]: only the callback of the password field
    opens the gate, and nothing closes it again. *)
Theorem main_writes_five_keys_at_most (env : Environment) (fe : Frontend) (w : World) :
  (forall key, ~ In key main_keys -> button_key key = false ->
     session_state (snd (main env fe w)) !! key = session_state w !! key)
  /\ button_key "password_correct" = false
  /\ gate_open (snd (main env fe w)) = gate_open w.
Proof.
  split; [|split; [reflexivity|]].
  - intros key Hkey _. apply writes_only_main, Hkey.
  - unfold gate_open. rewrite (writes_only_main env fe w "password_correct"); [reflexivity|].
    cbn. intros H. repeat destruct H as [H|H]; try discriminate H. exact H.
Qed.

(** ** A run of [main] behind the gate *)

Section Triples.

Lemma triple_bind {A B} (P : World -> Prop) (R : Outcome A -> World -> Prop)
    (Q : Outcome B -> World -> Prop) (m : App A) (f : A -> App B) :
  triple P m R -> (forall a, triple (R (Done a)) (f a) Q) ->
  (forall c w, R (Halt c) w -> Q (Halt c) w) ->
  triple P (bind m f) Q.
Proof.
  intros Hm Hf Hh w Hw. specialize (Hm w Hw). unfold bind.
  destruct (m w) as [[a|c] w1]; cbn [fst snd] in *.
  - apply Hf, Hm.
  - apply Hh, Hm.
Qed.

(** Sequencing after a computation that always runs to its end. *)
Lemma triple_seq {A B} (P : World -> Prop) (R : A -> World -> Prop)
    (Q : Outcome B -> World -> Prop) (m : App A) (f : A -> App B) :
  triple P m (fun o w => exists a, o = Done a /\ R a w) ->
  (forall a, triple (R a) (f a) Q) ->
  triple P (bind m f) Q.
Proof.
  intros Hm Hf. eapply triple_bind; [exact Hm| |].
  - intros a w (a' & [= <-] & H). apply Hf, H.
  - intros c w (a' & [=] & _).
Qed.

Lemma triple_weaken {A} (P P' : World -> Prop) (Q Q' : Outcome A -> World -> Prop)
    (m : App A) :
  triple P m Q -> (forall w, P' w -> P w) -> (forall o w, Q o w -> Q' o w) ->
  triple P' m Q'.
Proof. intros Hm HP HQ w Hw. apply HQ, Hm, HP, Hw. Qed.

Lemma triple_assume {A} (P : World -> Prop) (Q : Outcome A -> World -> Prop)
    (m : App A) (fact : Prop) :
  (fact -> triple P m Q) -> triple (fun w => fact /\ P w) m Q.
Proof. intros H w [Hf Hw]. apply (H Hf), Hw. Qed.

(** A computation that only paints. *)
Lemma triple_painting {A} (P : World -> Prop) (m : App A) (a : A) :
  (forall w, fst (m w) = Done a /\ offscreen (snd (m w)) = offscreen w) ->
  triple P m (fun o w => exists a', o = Done a' /\ P w).
Proof.
  intros H w Hw. destruct (H w) as [-> ->]. exists a. auto.
Qed.

Lemma triple_render (P : World -> Prop) k b :
  triple P (render k b) (fun o w => exists a', o = Done a' /\ P w).
Proof. apply (triple_painting P _ tt). intros w. split; reflexivity. Qed.

Lemma triple_ret {A} (P : World -> Prop) (a : A) :
  triple P (ret a) (fun o w => o = Done a /\ P w).
Proof. intros w Hw. split; [reflexivity | exact Hw]. Qed.

Lemma triple_contains (P : World -> Prop) key :
  triple P (contains key)
    (fun o w => exists b, o = Done b
                  /\ (b = bool_decide (is_Some (session_state w !! key)) /\ P w)).
Proof. intros w Hw. eexists. split; [reflexivity|]. split; [reflexivity | exact Hw]. Qed.

End Triples.

Section Behind.
Variable env : Environment.
Variable fe : Frontend.
Variable w0 : World.
Hypothesis Htyped : typed w0 = true.
Hypothesis Hgate : gate_open w0 = true.
Hypothesis Hinit : initialises env w0.

(** The run has not left the world it started in. *)
Lemma triple_setup_page_config :
  triple (fun w => w = offscreen w0) setup_page_config
         (fun o w => exists a, o = Done a /\ w = offscreen w0).
Proof.
  apply (triple_painting _ _ tt). intros w.
  rewrite setup_page_config_run. split; reflexivity.
Qed.

Lemma triple_gate username password :
  triple (fun w => w = offscreen w0) (check_authentication username password)
         (fun o w => exists a, o = Done a /\ w = offscreen w0).
Proof.
  intros w Hw. rewrite check_authentication_open.
  - exists tt. split; [reflexivity | exact Hw].
  - change (gate_open (offscreen w) = true). rewrite Hw. exact Hgate.
Qed.

(** The history is in place; nothing else has changed. *)
Lemma triple_history_block has :
  triple (fun w => has = bool_decide (is_Some (session_state w !! "chat_history"))
                   /\ w = offscreen w0)
         (if has then ret tt else set_item "chat_history" (VHistory []))
         (fun o w => exists a, o = Done a
                      /\ (has_history (session_state w)
                          /\ session_state w !! "selected_question"
                             = session_state w0 !! "selected_question"
                          /\ session_state w !! "base_services"
                             = session_state w0 !! "base_services"
                          /\ history_of w = history_of w0
                          /\ trace w = trace w0
                          /\ heap w = heap w0
                          /\ kept w0 w)).
Proof.
  intros w [Hhas Hw]. exists tt.
  assert (session_state w = session_state w0) as Hss
    by exact (f_equal session_state Hw).
  assert (trace w = trace w0) as Htr by exact (f_equal trace Hw).
  assert (heap w = heap w0) as Hhp by exact (f_equal heap Hw).
  cbn [offscreen session_state] in Hhas. rewrite Hss in Hhas.
  destruct (session_state w0 !! "chat_history") as [v|] eqn:E.
  - rewrite bool_decide_eq_true_2 in Hhas by eauto. subst has.
    destruct (typed_history w0 v Htyped E) as [h ->].
    split; [reflexivity|]. unfold has_history, history_of, kept.
    cbn [ret fst snd offscreen session_state trace heap]. rewrite Hss, E.
    repeat split; eauto.
  - rewrite bool_decide_eq_false_2 in Hhas by (intros [? ?]; discriminate). subst has.
    split; [reflexivity|]. unfold has_history, history_of, kept.
    cbn [set_item fst snd offscreen session_state trace heap].
    rewrite lookup_insert_eq, !lookup_insert_ne by discriminate. rewrite Hss, E.
    repeat split; eauto.
    intros key Hkey. apply lookup_insert_ne. intros <-. apply Hkey. cbn. tauto.
Qed.

(** Services and history are in place; no question has been asked. *)
Lemma triple_services_block has :
  triple (fun w => has = bool_decide (is_Some (session_state w !! "base_services"))
                   /\ (has_history (session_state w)
                       /\ session_state w !! "selected_question"
                          = session_state w0 !! "selected_question"
                       /\ session_state w !! "base_services"
                          = session_state w0 !! "base_services"
                       /\ history_of w = history_of w0
                       /\ trace w = trace w0
                       /\ heap w = heap w0
                       /\ kept w0 w))
         (if has then ret tt else install_services env (load_environment_config env))
         (fun o w => exists a, o = Done a
                      /\ stage fe w0 [] (session_state w0 !! "selected_question") w).
Proof.
  intros w (Hhas & (h & Hh) & Hsel & Hbs & Hhist & Htr & Hhp & Hkept). exists tt.
  unfold history_of in Hhist at 1.
  cbn [offscreen session_state trace heap] in Hhas, Hh, Hsel, Hbs, Hhist, Htr, Hhp.
  destruct (session_state w !! "base_services") as [v|] eqn:E.
  - rewrite bool_decide_eq_true_2 in Hhas by eauto. subst has.
    symmetry in Hbs. destruct (typed_services w0 v Htyped Hbs) as [s ->].
    split; [reflexivity|]. unfold stage, is_ready, progress, history_of.
    cbn [ret fst snd offscreen session_state trace].
    split; [eauto|]. split; [exact Hsel|]. split; [|exact Hkept].
    exists []. rewrite !app_nil_r. repeat split; try assumption. constructor.
  - rewrite bool_decide_eq_false_2 in Hhas by (intros [? ?]; discriminate). subst has.
    assert (init_error env (length (heap w)) = None) as Hok.
    { rewrite Hhp. destruct Hinit as [[v Hv]|Hok]; [congruence | exact Hok]. }
    rewrite (install_services_run env w Hok).
    split; [reflexivity|]. unfold stage, is_ready, progress, history_of.
    cbn [fst snd offscreen session_state trace].
    rewrite lookup_insert_eq, !lookup_insert_ne by discriminate.
    split; [eauto|]. split; [exact Hsel|]. split.
    + exists (init_events env (length (heap w))). rewrite Htr, app_nil_r.
      repeat split; try assumption; try reflexivity.
      unfold init_events, init_objects. cbn [news]. repeat constructor.
    + intros key Hkey. cbn [offscreen session_state].
      rewrite lookup_insert_ne by (intros <-; apply Hkey; cbn; tauto).
      apply Hkept, Hkey.
Qed.

(** What lies before the sidebar, followed by anything. *)
Lemma triple_prelude {B} (rest : App B) (Q : Outcome B -> World -> Prop) :
  triple (stage fe w0 [] (session_state w0 !! "selected_question")) rest Q ->
  triple (fun w => w = offscreen w0)
    (setup_page_config ;;
     check_authentication (demo_username (load_environment_config env))
                          (demo_password (load_environment_config env)) ;;
     has_history <- contains "chat_history" ;;
     (if has_history : bool then ret tt else set_item "chat_history" (VHistory [])) ;;
     has_services <- contains "base_services" ;;
     (if has_services : bool then ret tt
      else install_services env (load_environment_config env)) ;;
     rest)
    Q.
Proof.
  intros Hrest.
  eapply triple_seq; [apply triple_setup_page_config | intros ?].
  eapply triple_seq; [apply triple_gate | intros ?].
  eapply triple_seq; [apply triple_contains | intros has].
  eapply triple_seq; [apply triple_history_block | intros ?].
  eapply triple_seq; [apply triple_contains | intros has'].
  eapply triple_seq; [apply triple_services_block | intros ?].
  exact Hrest.
Qed.

Lemma triple_sidebar_miss (P : World -> Prop) :
  no_click fe ->
  triple P (setup_sidebar fe)
         (fun o w => exists a, o = Done a /\ (a = chosen fe /\ P w)).
Proof.
  intros Hmiss w Hw. destruct (setup_sidebar_miss fe w Hmiss) as [sc ->].
  exists (chosen fe). split; [reflexivity|]. split; [reflexivity | exact Hw].
Qed.

Lemma triple_sidebar_hit q qs selected :
  clicked fe = Some q -> In q all_questions ->
  triple (stage fe w0 qs selected) (setup_sidebar fe)
         (fun o w => o = Halt RerunScript /\ stage fe w0 qs (Some (VStr q)) w).
Proof.
  intros Hc Hin w ((Hs & Hh) & Hsel & (evs & Htr & Hq & Hy & Hu & Hcf) & Hkept).
  destruct (setup_sidebar_hit fe q w Hc Hin) as [sc ->].
  split; [reflexivity|].
  unfold stage, is_ready, progress, history_of, kept in *.
  cbn [fst snd offscreen session_state trace] in *.
  rewrite lookup_insert_eq, !lookup_insert_ne by discriminate.
  split; [split; assumption|]. split; [reflexivity|]. split.
  - exists evs. repeat split; assumption.
  - intros key Hkey. rewrite lookup_insert_ne by (intros <-; apply Hkey; cbn; tauto).
    apply Hkept, Hkey.
Qed.

Lemma triple_turn qs q :
  triple (stage fe w0 qs None)
         (process_user_query env q (fst (chosen fe)) (snd (chosen fe)))
         (handled env fe w0 (qs ++ [q])).
Proof.
  intros w (([s Hs] & [h Hh]) & Hsel & (evs & Htr & Hq & Hy & Hu & Hcf) & Hkept).
  set (k := fst (chosen fe)). set (t := snd (chosen fe)).
  assert (Forall (configured fe) (turn_events env s (length (heap w)) q k t)) as Hturn
    by (unfold turn_events; repeat constructor).
  cbn [offscreen session_state trace] in Hs, Hh, Hsel, Htr.
  assert (history_of (offscreen w) = h) as Hh'
    by (unfold history_of; cbn [offscreen session_state]; rewrite Hh; reflexivity).
  rewrite Hh' in Hy. clear Hh'.
  rewrite (process_user_query_run env q k t w s h Hs Hh). cbv zeta.
  set (n := length (heap w)).
  assert (questions_asked (turn_events env s n q k t) = [q]) as Hone by reflexivity.
  destruct (turn_outcome env s q k t) as [r|e] eqn:E; cbn [fst snd handled].
  - assert (answered (pipeline_calls
              (turn_events env s n q k t
               ++ [EvMark n "RAG Processing Query"; EvAppend {| user := q; bot := r |}]))
            = [{| user := q; bot := r |}]) as Hans
      by (unfold turn_events; cbn [pipeline_calls app]; rewrite E; reflexivity).
    split; [|split; [|split]].
    + unfold is_ready. cbn [offscreen session_state].
      rewrite lookup_insert_eq, lookup_insert_ne by discriminate. eauto.
    + cbn [offscreen session_state]. rewrite lookup_insert_ne by discriminate.
      exact Hsel.
    + exists (evs ++ turn_events env s n q k t
                ++ [EvMark n "RAG Processing Query";
                    EvAppend {| user := q; bot := r |}])%list.
      cbn [offscreen trace]. split; [rewrite Htr, <- app_assoc; reflexivity|].
      split; [rewrite !questions_asked_app, Hq, Hone; reflexivity|].
      rewrite pipeline_calls_app, answered_app, Hans, map_app, Hu.
      split; [|split; [reflexivity|]].
      * unfold history_of at 1. cbn [offscreen session_state].
        rewrite lookup_insert_eq, Hy, <- app_assoc. reflexivity.
      * apply Forall_app. split; [exact Hcf|]. apply Forall_app.
        split; [exact Hturn | repeat constructor].
    + intros key Hkey. cbn [offscreen session_state].
      rewrite lookup_insert_ne by (intros <-; apply Hkey; cbn; tauto).
      apply Hkept, Hkey.
  - assert (answered (pipeline_calls (turn_events env s n q k t)) = []) as Hans
      by (unfold turn_events; cbn [pipeline_calls app]; rewrite E; reflexivity).
    split; [|split; [|split]].
    + unfold is_ready. cbn [offscreen session_state]. eauto.
    + exact Hsel.
    + exact Hkept.
    + exists qs, q. split; [reflexivity|]. split.
      * exists (evs ++ turn_events env s n q k t)%list.
        cbn [offscreen trace]. split; [rewrite Htr, <- app_assoc; reflexivity|].
        split; [rewrite !questions_asked_app, Hq, Hone; reflexivity|].
        rewrite pipeline_calls_app, answered_app, Hans, app_nil_r, Hu.
        split; [|split; [reflexivity|]].
        -- unfold history_of at 1. cbn [offscreen session_state].
           rewrite Hh, Hy. reflexivity.
        -- apply Forall_app. split; [exact Hcf | exact Hturn].
      * unfold turn_outcome in E. eauto 10.
Qed.

Lemma triple_selection_block selected :
  triple (fun w => selected = bool_decide (is_Some (session_state w !! "selected_question"))
                   /\ stage fe w0 [] (session_state w0 !! "selected_question") w)
    (if selected : bool then
       selected_question <- get_attr "selected_question" ;;
       del_attr "selected_question" ;;
       if truthy (api_key (load_environment_config env)) then
         question <- as_str selected_question ;;
         process_user_query env question (fst (chosen fe)) (snd (chosen fe))
       else ret tt
     else ret tt)
    (handled env fe w0
       (if truthy (getenv env "OPENAI_API_KEY") then suggestion w0 else [])).
Proof.
  intros w (Hhas & Hready & Hsel & Hprog & Hkept).
  cbn [offscreen session_state] in Hhas, Hsel.
  cbn [load_environment_config api_key]. unfold suggestion.
  destruct (session_state w0 !! "selected_question") as [v|] eqn:E.
  - destruct (typed_selected w0 v Htyped E) as [q ->].
    rewrite Hsel, bool_decide_eq_true_2 in Hhas by eauto. subst selected.
    erewrite bind_done by (unfold get_attr; rewrite Hsel; reflexivity).
    erewrite bind_done by (unfold del_attr; rewrite Hsel; reflexivity).
    assert (stage fe w0 [] None
              (offscreen {| session_state := delete "selected_question" (session_state w);
                            heap := heap w; trace := trace w; screen := screen w |}))
      as Hstage.
    { destruct Hready as [Hs Hh]. destruct Hprog as (evs & Htr & Hq & Hy & Hu & Hcf).
      unfold stage, is_ready, progress, history_of, kept in *.
      cbn [offscreen session_state trace] in *.
      rewrite lookup_delete_eq, !lookup_delete_ne by discriminate.
      split; [split; assumption|]. split; [reflexivity|]. split.
      - exists evs. repeat split; assumption.
      - intros key Hkey.
        rewrite lookup_delete_ne by (intros <-; apply Hkey; cbn; tauto).
        apply Hkept, Hkey. }
    destruct (truthy (getenv env "OPENAI_API_KEY")).
    + erewrite bind_done by reflexivity.
      apply (triple_turn [] q _ Hstage).
    + exact Hstage.
  - rewrite Hsel, bool_decide_eq_false_2 in Hhas by (intros [? ?]; discriminate).
    subst selected.
    assert (handled env fe w0 [] (Done tt) (offscreen w)) as H
      by (split; [exact Hready|]; split; [exact Hsel|]; split;
          [exact Hprog | exact Hkept]).
    destruct (truthy (getenv env "OPENAI_API_KEY")); exact H.
Qed.

Lemma triple_chat_block qs :
  triple (stage fe w0 qs None)
    (match chat_input fe with
     | Some user_input =>
         if negb (String.eqb user_input "")
            && truthy (api_key (load_environment_config env)) then
           process_user_query env user_input (fst (chosen fe)) (snd (chosen fe))
         else ret tt
     | None => ret tt
     end)
    (handled env fe w0
       (qs ++ if truthy (getenv env "OPENAI_API_KEY") then typed_in fe else [])).
Proof.
  cbn [load_environment_config api_key]. unfold typed_in.
  assert (triple (stage fe w0 qs None) (ret tt) (handled env fe w0 (qs ++ []))) as Hskip.
  { intros w Hw. rewrite app_nil_r. exact Hw. }
  destruct (chat_input fe) as [user_input|].
  - destruct (String.eqb user_input ""); cbn [negb andb].
    + destruct (truthy (getenv env "OPENAI_API_KEY")); exact Hskip.
    + destruct (truthy (getenv env "OPENAI_API_KEY")); [apply triple_turn | exact Hskip].
  - destruct (truthy (getenv env "OPENAI_API_KEY")); exact Hskip.
Qed.

Lemma triple_display_chat_history qs :
  triple (stage fe w0 qs None) display_chat_history
         (fun o w => exists a, o = Done a /\ stage fe w0 qs None w).
Proof.
  intros w Hw. pose proof Hw as ((_ & [h Hh]) & _).
  cbn [offscreen session_state] in Hh.
  unfold display_chat_history.
  erewrite bind_done by (unfold get_attr; rewrite Hh; reflexivity).
  cbv beta iota. rewrite display_exchanges_run. exists tt. split; [reflexivity | exact Hw].
Qed.

Lemma asked_in_two_parts :
  asked env fe w0
  = ((if truthy (getenv env "OPENAI_API_KEY") then suggestion w0 else [])
     ++ (if truthy (getenv env "OPENAI_API_KEY") then typed_in fe else []))%list.
Proof. unfold asked. destruct (truthy _); reflexivity. Qed.

Lemma main_without_click :
  no_click fe ->
  triple (fun w => w = offscreen w0) (main env fe)
    (fun o w =>
       match o with
       | Done _ => stage fe w0 (asked env fe w0) None w
       | Halt (Exception err) =>
           exists qs, qs `prefix_of` asked env fe w0 /\ broken env fe w0 qs err w
       | Halt _ => False
       end).
Proof.
  intros Hmiss. unfold main. cbv zeta. apply triple_prelude.
  eapply triple_seq
    with (R := fun a w => a = chosen fe
                          /\ stage fe w0 [] (session_state w0 !! "selected_question") w);
    [apply triple_sidebar_miss, Hmiss | intros settings].
  apply triple_assume. intros ->.
  eapply triple_seq; [apply triple_contains | intros selected].
  eapply triple_bind; [apply triple_selection_block | intros ? | ].
  2: { intros [| |err] w H; [destruct H | destruct H |].
       exists (if truthy (getenv env "OPENAI_API_KEY") then suggestion w0 else []).
       split; [|exact H]. rewrite asked_in_two_parts. apply prefix_app_r. reflexivity. }
  eapply triple_seq
    with (R := fun _ w =>
                 stage fe w0 (if truthy (getenv env "OPENAI_API_KEY") then suggestion w0
                              else []) None w);
    [apply triple_render | intros ?].
  eapply triple_bind; [apply triple_chat_block | intros ? | ].
  2: { intros [| |err] w H; [destruct H | destruct H |].
       eexists. split; [|exact H]. rewrite asked_in_two_parts. reflexivity. }
  rewrite <- asked_in_two_parts.
  eapply triple_seq with (R := fun _ w => stage fe w0 (asked env fe w0) None w);
    [apply triple_display_chat_history | intros ?].
  intros w Hw. exact Hw.
Qed.

Lemma main_with_click q :
  clicked fe = Some q -> In q all_questions ->
  triple (fun w => w = offscreen w0) (main env fe)
    (fun o w => o = Halt RerunScript /\ stage fe w0 [] (Some (VStr q)) w).
Proof.
  intros Hc Hin. unfold main. cbv zeta. apply triple_prelude.
  eapply triple_bind; [apply (triple_sidebar_hit q), Hin; exact Hc | | ].
  - intros a w [H _]. discriminate H.
  - intros c w [[= ->] H]. split; [reflexivity | exact H].
Qed.

Lemma listed_click_some q :
  listed_click fe = Some q -> clicked fe = Some q /\ In q all_questions.
Proof.
  unfold listed_click. destruct (clicked fe) as [q'|]; [|discriminate].
  destruct (existsb (String.eqb q') all_questions) eqn:E; [|discriminate].
  intros [= ->]. split; [reflexivity|].
  apply existsb_exists in E as (x & Hin & Hx). apply String.eqb_eq in Hx. subst x.
  exact Hin.
Qed.

Lemma listed_click_none : listed_click fe = None -> no_click fe.
Proof.
  unfold listed_click, no_click. intros H q Hc Hin. rewrite Hc in H.
  destruct (existsb (String.eqb q) all_questions) eqn:E; [discriminate|].
  assert (existsb (String.eqb q) all_questions = true) as E'; [|congruence].
  apply existsb_exists. exists q. split; [exact Hin | apply String.eqb_refl].
Qed.

Lemma main_behind_gate :
  main_post env fe w0 (fst (main env fe w0)) (offscreen (snd (main env fe w0))).
Proof.
  unfold main_post. destruct (listed_click fe) as [q|] eqn:E.
  - apply listed_click_some in E as [Hc Hin].
    apply (main_with_click q Hc Hin w0). reflexivity.
  - apply listed_click_none in E.
    apply (main_without_click E w0). reflexivity.
Qed.

End Behind.

Section Runs.
Variable env : Environment.
Variable fe : Frontend.

(** The services are there or their initialisation completes, or else the
    first constructor that raises is known. *)
Lemma initialises_or_not w :
  initialises env w
  \/ (session_state w !! "base_services" = None
      /\ exists e, init_error env (length (heap w)) = Some e).
Proof.
  unfold initialises.
  destruct (session_state w !! "base_services") as [v|]; [left; left; eauto|].
  destruct (init_error env (length (heap w))) as [e|];
    [right; eauto | left; right; reflexivity].
Qed.

(** A run behind the gate whose initialisation raises ends there, with the
    error of the constructor. *)
Lemma main_stalls w e :
  typed w = true -> gate_open w = true ->
  session_state w !! "base_services" = None ->
  init_error env (length (heap w)) = Some e ->
  main env fe w = (Halt (Exception e), stalled env w).
Proof.
  intros Ht Hg Hs He. unfold main. cbv zeta.
  erewrite bind_done by apply setup_page_config_run.
  erewrite bind_done by (apply check_authentication_open; exact Hg).
  destruct (session_state w !! "chat_history") as [v|] eqn:E.
  - destruct (typed_history w v Ht E) as [h ->].
    erewrite bind_done
      by (unfold contains; cbn [session_state];
          rewrite E, bool_decide_eq_true_2 by eauto; reflexivity).
    cbv beta iota. erewrite bind_done by reflexivity.
    erewrite bind_done
      by (unfold contains; cbn [session_state];
          rewrite Hs, bool_decide_eq_false_2 by (intros [? ?]; discriminate);
          reflexivity).
    cbv beta iota.
    erewrite bind_halt
      by (rewrite install_services_attempt; cbn [heap]; rewrite He; reflexivity).
    unfold stalled, history_of. rewrite E, insert_id by exact E.
    cbn [session_state heap trace screen]. rewrite <- !app_assoc. reflexivity.
  - erewrite bind_done
      by (unfold contains; cbn [session_state];
          rewrite E, bool_decide_eq_false_2 by (intros [? ?]; discriminate);
          reflexivity).
    cbv beta iota. erewrite bind_done by reflexivity.
    erewrite bind_done
      by (unfold contains; cbn [session_state];
          rewrite lookup_insert_ne by discriminate;
          rewrite Hs, bool_decide_eq_false_2 by (intros [? ?]; discriminate);
          reflexivity).
    cbv beta iota.
    erewrite bind_halt
      by (rewrite install_services_attempt; cbn [heap]; rewrite He; reflexivity).
    unfold stalled, history_of. rewrite E.
    cbn [session_state heap trace screen]. rewrite <- !app_assoc. reflexivity.
Qed.

Lemma main_stalled_asks_nothing w e :
  typed w = true -> gate_open w = true ->
  session_state w !! "base_services" = None ->
  init_error env (length (heap w)) = Some e ->
  added w (snd (main env fe w))
  = EvCall "initialize_services"
      :: news (length (heap w)) (built env (init_objects env (length (heap w)))).
Proof.
  intros Ht Hg Hs He. rewrite (main_stalls w e Ht Hg Hs He).
  unfold added, stalled. cbn [snd trace]. apply drop_app_length.
Qed.

Lemma added_since w w' evs : trace w' = (trace w ++ evs)%list -> added w w' = evs.
Proof. intros H. unfold added. rewrite H. apply drop_app_length. Qed.

Lemma no_click_unlisted : no_click fe -> listed_click fe = None.
Proof.
  intros Hmiss. unfold listed_click. destruct (clicked fe) as [q|] eqn:E; [|reflexivity].
  destruct (existsb (String.eqb q) all_questions) eqn:Ex; [|reflexivity].
  apply existsb_exists in Ex as (x & Hin & Hx). apply String.eqb_eq in Hx. subst x.
  destruct (Hmiss q E Hin).
Qed.

Lemma asked_at_most_two w : (length (asked env fe w) <= 2)%nat.
Proof.
  unfold asked, suggestion, typed_in.
  destruct (truthy _); [|cbn; lia]. rewrite length_app.
  destruct (session_state w !! "selected_question") as [[]|];
    destruct (chat_input fe) as [q|]; try destruct (String.eqb q ""); cbn; lia.
Qed.

Lemma main_nothing_asked_when_closed w :
  gate_open w = false -> added w (snd (main env fe w)) = [].
Proof.
  intros Hg. destruct (main_closed env fe w Hg) as (w' & -> & _ & Ht & _).
  cbn [snd]. apply added_since. rewrite Ht, app_nil_r. reflexivity.
Qed.

End Runs.

(** X16. Behind the gate, with the services in place or their
    initialisation completing, and without a click on a suggestion, a run of
    [main] whose pipeline answers runs to its end and handles exactly the
    questions it was given: the selected suggestion first, then what was
    typed into the chat field, each asked once and only with an API key
    configured.  The chat history grows by one exchange per question, in
    that order, and no selected question remains. *)
Theorem main_answers_each_question_once
    (env : Environment) (fe : Frontend) (w : World) :
  typed w = true -> gate_open w = true -> initialises env w -> no_click fe ->
  (forall q, In q (asked env fe w) ->
     forall e r a g cfg, exists answer, pipeline env e r a g cfg q = Returned answer) ->
  let r := main env fe w in
  fst r = Done tt
  /\ questions_asked (added w (snd r)) = asked env fe w
  /\ (exists new, history_of (snd r) = (history_of w ++ new)%list
                  /\ map user new = asked env fe w
                  /\ new = answered (pipeline_calls (added w (snd r))))
  /\ session_state (snd r) !! "selected_question" = None.
Proof.
  intros Ht Hg Hi Hmiss Hanswers. cbv zeta.
  pose proof (main_behind_gate env fe w Ht Hg Hi) as H.
  unfold main_post in H. rewrite (no_click_unlisted fe Hmiss) in H.
  destruct (fst (main env fe w)) as [[]|[| |err]]; [|destruct H|destruct H|].
  - destruct H as (_ & Hsel & (evs & Htr & Hq & Hy & Hu & _) & _).
    cbn [offscreen session_state trace] in Hsel, Htr.
    rewrite (added_since _ _ _ Htr).
    split; [reflexivity|]. split; [exact Hq|]. split; [|exact Hsel].
    exists (answered (pipeline_calls evs)). split; [exact Hy|]. split; [exact Hu | reflexivity].
  - destruct H as (qs & Hpre & _ & _ & _ & before & q & -> & _ & e & r & a & g & cfg & Hraised).
    destruct (Hanswers q) with (e := e) (r := r) (a := a) (g := g) (cfg := cfg)
      as [answer Hreturned]; [|congruence].
    destruct Hpre as [rest ->]. apply in_or_app. left. apply in_or_app. right.
    left. reflexivity.
Qed.

Lemma main_answers_each_question_once_witness :
  let r := main answering_env sample_question selected_world in
  typed selected_world = true /\ gate_open selected_world = true
  /\ initialises answering_env selected_world
  /\ fst r = Done tt
  /\ questions_asked (added selected_world (snd r)) = ["How do I audit it?"; "hello"]
  /\ session_state (snd r) !! "selected_question" = None.
Proof.
  cbv zeta.
  assert (typed selected_world = true) as Ht by (vm_compute; reflexivity).
  assert (gate_open selected_world = true) as Hg by (vm_compute; reflexivity).
  assert (initialises answering_env selected_world) as Hi by (right; reflexivity).
  assert (no_click sample_question) as Hmiss by (intros q H; discriminate H).
  assert (forall q, In q (asked answering_env sample_question selected_world) ->
            forall e r a g cfg,
              exists answer, pipeline answering_env e r a g cfg q = Returned answer)
    as Hanswers by (intros q _ e r a g cfg; eexists; reflexivity).
  destruct (main_answers_each_question_once answering_env sample_question selected_world
              Ht Hg Hi Hmiss Hanswers) as (H1 & H2 & _ & H3).
  split; [exact Ht|]. split; [exact Hg|]. split; [exact Hi|]. split; [exact H1|].
  split; [exact H2 | exact H3].
Defined.

(** X17. Whatever the widgets, the environment and the outcome, one run of
    [main] puts to the pipeline an initial part of the questions it was
    given, in their order, and nothing else: never a question nobody asked,
    never a question twice, at most two calls in a run, and none at all
    while the gate is closed, after a click on a suggestion, or without an
    API key. *)
Theorem main_asks_only_what_was_asked
    (env : Environment) (fe : Frontend) (w : World) :
  typed w = true ->
  let evs := added w (snd (main env fe w)) in
  questions_asked evs `prefix_of` asked env fe w
  /\ (length (pipeline_calls evs) <= 2)%nat
  /\ (gate_open w = false \/ is_Some (listed_click fe)
      \/ truthy (getenv env "OPENAI_API_KEY") = false ->
      pipeline_calls evs = []).
Proof.
  intros Ht. cbv zeta.
  assert (questions_asked (added w (snd (main env fe w))) `prefix_of` asked env fe w
          /\ (is_Some (listed_click fe) ->
              questions_asked (added w (snd (main env fe w))) = [])) as [Hpre Hclick].
  { destruct (gate_open w) eqn:Hg.
    - destruct (initialises_or_not env w) as [Hi | (Hs & e & He)].
      + pose proof (main_behind_gate env fe w Ht Hg Hi) as H. unfold main_post in H.
        destruct (listed_click fe) as [q|].
        * destruct H as (_ & _ & _ & (evs & Htr & Hq & _) & _).
          cbn [offscreen trace] in Htr. rewrite (added_since _ _ _ Htr), Hq.
          split; [apply prefix_nil | reflexivity].
        * split; [|intros [? [=]]].
          destruct (fst (main env fe w)) as [[]|[| |err]]; [|destruct H|destruct H|].
          -- destruct H as (_ & _ & (evs & Htr & Hq & _) & _).
             cbn [offscreen trace] in Htr. rewrite (added_since _ _ _ Htr), Hq.
             reflexivity.
          -- destruct H as (qs & Hpre & _ & _ & _ & before & q & _
                            & (evs & Htr & Hq & _) & _).
             cbn [offscreen trace] in Htr. rewrite (added_since _ _ _ Htr), Hq.
             exact Hpre.
      + rewrite (main_stalled_asks_nothing env fe w e Ht Hg Hs He).
        destruct (attempt_trace env (length (heap w))) as (E & _).
        unfold questions_asked. rewrite E.
        split; [apply prefix_nil | reflexivity].
    - rewrite (main_nothing_asked_when_closed env fe w Hg).
      split; [apply prefix_nil | reflexivity]. }
  assert (forall tr, questions_asked tr = [] -> pipeline_calls tr = []) as Hnone.
  { intros tr H. unfold questions_asked in H. destruct (pipeline_calls tr); [reflexivity|].
    discriminate H. }
  split; [exact Hpre|]. split.
  - apply prefix_length in Hpre. unfold questions_asked in Hpre at 1.
    rewrite length_map in Hpre. pose proof (asked_at_most_two env fe w). lia.
  - intros [Hg | [Hc | Hk]].
    + rewrite (main_nothing_asked_when_closed env fe w Hg). reflexivity.
    + apply Hnone, Hclick, Hc.
    + apply Hnone. unfold asked in Hpre. rewrite Hk in Hpre.
      apply prefix_nil_inv in Hpre. exact Hpre.
Qed.

Lemma main_asks_only_what_was_asked_witness :
  let evs := added selected_world (snd (main failing_env sample_question selected_world)) in
  typed selected_world = true
  /\ asked failing_env sample_question selected_world = ["How do I audit it?"; "hello"]
  /\ questions_asked evs `prefix_of` ["How do I audit it?"; "hello"]
  /\ (length (pipeline_calls evs) <= 2)%nat.
Proof.
  cbv zeta.
  assert (typed selected_world = true) as Ht by (vm_compute; reflexivity).
  destruct (main_asks_only_what_was_asked failing_env sample_question selected_world Ht)
    as (H1 & H2 & _).
  split; [exact Ht|]. split; [reflexivity|]. split; [exact H1 | exact H2].
Defined.

(** X18. A selected suggestion is used at most once.  Behind the gate, with
    the services in place or their initialisation completing, and without a
    new click, every run of [main] leaves the session without a selected
    question, also when the pipeline raises on it and also without an API
    key, and leaves services and chat history in place; so a question that
    failed is not asked again by the next run. *)
Theorem selected_question_is_consumed
    (env : Environment) (fe : Frontend) (w : World) :
  typed w = true -> gate_open w = true -> initialises env w -> no_click fe ->
  let w' := snd (main env fe w) in
  session_state w' !! "selected_question" = None
  /\ is_ready (session_state w')
  /\ suggestion w' = [].
Proof.
  intros Ht Hg Hi Hmiss. cbv zeta.
  pose proof (main_behind_gate env fe w Ht Hg Hi) as H.
  unfold main_post in H. rewrite (no_click_unlisted fe Hmiss) in H.
  assert (session_state (snd (main env fe w)) !! "selected_question" = None
          /\ is_ready (session_state (snd (main env fe w)))) as [Hsel Hready].
  { destruct (fst (main env fe w)) as [[]|[| |err]]; [|destruct H|destruct H|].
    - destruct H as (Hr & Hs & _). split; [exact Hs | exact Hr].
    - destruct H as (qs & _ & Hr & Hs & _). split; [exact Hs | exact Hr]. }
  split; [exact Hsel|]. split; [exact Hready|].
  unfold suggestion. rewrite Hsel. reflexivity.
Qed.

Lemma selected_question_is_consumed_witness :
  typed selected_world = true /\ gate_open selected_world = true
  /\ initialises failing_env selected_world
  /\ suggestion selected_world = ["How do I audit it?"]
  /\ fst (main failing_env page_load selected_world) = Halt (Exception GenerationError)
  /\ suggestion (snd (main failing_env page_load selected_world)) = [].
Proof.
  assert (typed selected_world = true) as Ht by (vm_compute; reflexivity).
  assert (gate_open selected_world = true) as Hg by (vm_compute; reflexivity).
  assert (initialises failing_env selected_world) as Hi by (right; reflexivity).
  assert (no_click page_load) as Hmiss by (intros q H; discriminate H).
  destruct (selected_question_is_consumed failing_env page_load selected_world
              Ht Hg Hi Hmiss) as (_ & _ & H).
  split; [exact Ht|]. split; [exact Hg|]. split; [exact Hi|]. split; [reflexivity|].
  split; [vm_compute; reflexivity | exact H].
Defined.

(** X19. In a well-typed session a run of [main] ends in one of five ways:
    it stops at the closed gate; it raises what a constructor of
    [initialize_services] raised, in a run behind the gate that found no
    services; it reruns after a click on a listed suggestion; it runs to its
    end; or it raises an error that the pipeline raised on one of the
    questions asked.  [main] raises no error of its own: no key it reads is
    missing, and no value has the wrong type. *)
Theorem main_ends_in_one_of_five_ways
    (env : Environment) (fe : Frontend) (w : World) :
  typed w = true ->
  match fst (main env fe w) with
  | Done _ => gate_open w = true /\ initialises env w /\ listed_click fe = None
  | Halt StopScript => gate_open w = false
  | Halt RerunScript =>
      gate_open w = true /\ initialises env w /\ is_Some (listed_click fe)
  | Halt (Exception err) =>
      gate_open w = true
      /\ ((session_state w !! "base_services" = None
           /\ init_error env (length (heap w)) = Some err)
          \/ (initialises env w /\ listed_click fe = None
              /\ exists q e r a g cfg,
                   In q (asked env fe w) /\ pipeline env e r a g cfg q = Raised err))
  end.
Proof.
  intros Ht. destruct (gate_open w) eqn:Hg.
  - destruct (initialises_or_not env w) as [Hi | (Hs & e & He)].
    + pose proof (main_behind_gate env fe w Ht Hg Hi) as H. unfold main_post in H.
      destruct (listed_click fe) as [q|].
      * destruct H as [-> _]. split; [reflexivity|]. split; [exact Hi | eauto].
      * destruct (fst (main env fe w)) as [[]|[| |err]];
          [repeat split; auto | destruct H | destruct H |].
        destruct H as (qs & [rest Hpre] & _ & _ & _ & before & q & -> & _
                       & e & r & a & g & cfg & Hraised).
        split; [reflexivity|]. right. split; [exact Hi|]. split; [reflexivity|].
        exists q, e, r, a, g, cfg. split; [|exact Hraised].
        rewrite Hpre. apply in_or_app. left. apply in_or_app. right. left. reflexivity.
    + rewrite (main_stalls env fe w e Ht Hg Hs He). cbn [fst].
      split; [reflexivity|]. left. split; assumption.
  - destruct (main_closed env fe w Hg) as (w' & -> & _). reflexivity.
Qed.

Lemma main_ends_in_one_of_five_ways_witness :
  typed selected_world = true
  /\ fst (main templateless_env page_load selected_world)
     = Halt (Exception TemplateError)
  /\ fst (main failing_env sample_question selected_world)
     = Halt (Exception GenerationError)
  /\ exists q e r a g cfg,
       In q (asked failing_env sample_question selected_world)
       /\ pipeline failing_env e r a g cfg q = Raised GenerationError.
Proof.
  assert (typed selected_world = true) as Ht by (vm_compute; reflexivity).
  assert (fst (main failing_env sample_question selected_world)
          = Halt (Exception GenerationError)) as Hr by (vm_compute; reflexivity).
  pose proof (main_ends_in_one_of_five_ways failing_env sample_question selected_world Ht)
    as H.
  rewrite Hr in H. destruct H as (_ & [[_ H]|(_ & _ & H)]); [discriminate H|].
  split; [exact Ht|]. split; [vm_compute; reflexivity|]. split; [exact Hr | exact H].
Defined.

(** X20. Behind the gate, with the services in place or their
    initialisation completing, a click on a listed suggestion takes
    precedence over everything else in the run: [main] stores the question
    as [selected_question] and reruns before any question is asked, also
    when a suggestion was already selected or a question was typed in the
    same run; the chat history is as before, and services and history are
    in place for the run that follows. *)
Theorem click_preempts_the_run
    (env : Environment) (fe : Frontend) (q : string) (w : World) :
  typed w = true -> gate_open w = true -> initialises env w ->
  clicked fe = Some q -> In q all_questions ->
  let r := main env fe w in
  fst r = Halt RerunScript
  /\ session_state (snd r) !! "selected_question" = Some (VStr q)
  /\ pipeline_calls (added w (snd r)) = []
  /\ history_of (snd r) = history_of w
  /\ is_ready (session_state (snd r)).
Proof.
  intros Ht Hg Hi Hc Hin. cbv zeta.
  destruct (main_with_click env fe w Ht Hg Hi q Hc Hin w eq_refl)
    as (Hr & Hready & Hsel & (evs & Htr & Hq & Hy & _) & _).
  cbn [offscreen session_state trace] in Hsel, Htr, Hready.
  assert (pipeline_calls evs = []) as Hnone.
  { unfold questions_asked in Hq. destruct (pipeline_calls evs); [reflexivity|].
    discriminate Hq. }
  rewrite (added_since _ _ _ Htr).
  split; [exact Hr|]. split; [exact Hsel|]. split; [exact Hnone|].
  split; [|exact Hready].
  rewrite Hnone in Hy. cbn [answered] in Hy. rewrite app_nil_r in Hy. exact Hy.
Qed.

Lemma click_preempts_the_run_witness :
  let q := "I want to simplify file system management by using Amazon's managed EFS solution." in
  let fe := {| credentials := None; clicked := Some q; chat_input := Some "hello";
               top_k_slider := None; threshold_slider := None |} in
  typed selected_world = true /\ gate_open selected_world = true
  /\ initialises answering_env selected_world
  /\ In q all_questions
  /\ fst (main answering_env fe selected_world) = Halt RerunScript
  /\ session_state (snd (main answering_env fe selected_world)) !! "selected_question"
     = Some (VStr q)
  /\ pipeline_calls (added selected_world (snd (main answering_env fe selected_world))) = [].
Proof.
  cbv zeta.
  assert (typed selected_world = true) as Ht by (vm_compute; reflexivity).
  assert (gate_open selected_world = true) as Hg by (vm_compute; reflexivity).
  assert (initialises answering_env selected_world) as Hi by (right; reflexivity).
  match goal with |- _ /\ _ /\ _ /\ In ?q _ /\ fst (main _ ?fe _) = _ /\ _ =>
    assert (In q all_questions) as Hin by (cbn; tauto);
    destruct (click_preempts_the_run answering_env fe q selected_world
                Ht Hg Hi eq_refl Hin) as (H1 & H2 & H3 & _)
  end.
  split; [exact Ht|]. split; [exact Hg|]. split; [exact Hi|]. split; [exact Hin|].
  split; [exact H1|]. split; [exact H2 | exact H3].
Defined.

(** ** Logging in *)

Section LoggingIn.
Variable env : Environment.

Lemma check_authentication_wrong username password w :
  session_state w !! "password_correct" = Some (VBool false) ->
  check_authentication username password w =
    (Halt StopScript,
     {| session_state := session_state w; heap := heap w; trace := trace w;
        screen := (screen w ++ [{| kind := "error"; body := "❌ Incorrect password" |}])%list |}).
Proof.
  intros H. unfold check_authentication.
  erewrite bind_done;
    [|unfold contains; rewrite H, bool_decide_eq_true_2 by eauto; reflexivity].
  cbv beta iota.
  erewrite bind_done by (apply get_item_run, H).
  reflexivity.
Qed.

Lemma text_input_run label key w :
  text_input label key w =
    (Done tt,
     {| session_state :=
          <[key := default (VStr "") (session_state w !! key)]> (session_state w);
        heap := heap w; trace := trace w;
        screen := (screen w ++ [{| kind := "text_input"; body := label |}])%list |}).
Proof.
  unfold text_input, bind, contains.
  destruct (session_state w !! key) as [v|] eqn:E.
  - rewrite bool_decide_eq_true_2 by eauto. cbn [default ret render].
    rewrite insert_id by exact E. reflexivity.
  - rewrite bool_decide_eq_false_2 by (intros [? ?]; discriminate). reflexivity.
Qed.

Lemma check_authentication_first username password w :
  session_state w !! "password_correct" = None ->
  check_authentication username password w =
    (Halt StopScript,
     {| session_state :=
          <["password" := default (VStr "") (session_state w !! "password")]>
            (<["username" := default (VStr "") (session_state w !! "username")]>
               (session_state w));
        heap := heap w; trace := trace w;
        screen := (screen w ++ [{| kind := "text_input"; body := "Username" |};
                                {| kind := "text_input"; body := "Password" |}])%list |}).
Proof.
  intros H. unfold check_authentication.
  erewrite bind_done;
    [|unfold contains; rewrite H, bool_decide_eq_false_2;
      [reflexivity | intros [? ?]; discriminate]].
  cbv beta iota.
  erewrite bind_done by apply text_input_run.
  erewrite bind_done by apply text_input_run.
  cbn [session_state heap trace screen].
  rewrite lookup_insert_ne by discriminate. rewrite <- app_assoc. reflexivity.
Qed.

Lemma main_after_wrong_password fe w :
  session_state w !! "password_correct" = Some (VBool false) ->
  exists sc,
    main env fe w =
      (Halt StopScript,
       {| session_state := session_state w; heap := heap w; trace := trace w;
          screen := sc |}).
Proof.
  intros H. unfold main.
  erewrite bind_done by apply setup_page_config_run.
  erewrite bind_halt by (apply check_authentication_wrong; exact H).
  eexists. reflexivity.
Qed.

Lemma kept_trans w1 w2 w3 : kept w1 w2 -> kept w2 w3 -> kept w1 w3.
Proof. intros H1 H2 key Hk. rewrite (H2 key Hk). apply H1, Hk. Qed.

Lemma main_kept fe w :
  typed w = true -> gate_open w = true -> kept w (snd (main env fe w)).
Proof.
  intros Ht Hg. destruct (initialises_or_not env w) as [Hi | (Hs & e & He)].
  - pose proof (main_behind_gate env fe w Ht Hg Hi) as H.
    unfold main_post in H.
    destruct (listed_click fe) as [q|].
    + destruct H as (_ & _ & _ & _ & H). exact H.
    + destruct (fst (main env fe w)) as [[]|[| |err]]; [|destruct H|destruct H|].
      * destruct H as (_ & _ & _ & H). exact H.
      * destruct H as (qs & _ & _ & _ & H & _). exact H.
  - rewrite (main_stalls env fe w e Ht Hg Hs He).
    intros key Hkey. unfold stalled. cbn [snd session_state].
    apply lookup_insert_ne. intros <-. apply Hkey. cbn. tauto.
Qed.

Lemma kept_gate w w' : kept w w' -> gate_open w' = gate_open w.
Proof.
  intros H. unfold gate_open. rewrite (H "password_correct"); [reflexivity|].
  cbn. intros Hin. repeat destruct Hin as [Hin|Hin]; try discriminate Hin. exact Hin.
Qed.

Lemma runs_kept more w :
  typed w = true -> gate_open w = true ->
  Forall (fun fe => credentials fe = None) more ->
  let w' := fold_left (fun w fe => script_run env fe w) more w in
  kept w w' /\ gate_open w' = true /\ typed w' = true.
Proof.
  intros Ht Hg Hmore. cbv zeta. revert w Ht Hg.
  induction Hmore as [|fe more Hfe _ IH]; intros w Ht Hg.
  - cbn [fold_left]. split; [intros key _; reflexivity | auto].
  - cbn [fold_left].
    assert (script_run env fe w = snd (main env fe w)) as Hrun
      by (unfold script_run; rewrite Hfe; reflexivity).
    pose proof (main_kept fe w Ht Hg) as Hk. rewrite <- Hrun in Hk.
    assert (typed (script_run env fe w) = true) as Ht'.
    { eapply steps_typed; [apply script_run_steps, Ht | exact Ht]. }
    assert (gate_open (script_run env fe w) = true) as Hg'
      by (rewrite (kept_gate _ _ Hk); exact Hg).
    destruct (IH _ Ht' Hg') as (Hk' & Hg'' & Ht'').
    split; [eapply kept_trans; eauto | auto].
Qed.

Lemma deliver_credentials_run u p xu xp w :
  getenv env "DEMO_USERNAME" = Some xu -> getenv env "DEMO_PASSWORD" = Some xp ->
  deliver_credentials env u p w =
    (Done tt,
     {| session_state :=
          if digest_match u p xu xp
          then delete "password"
                 (<["password_correct" := VBool true]> (session_state (entered u p w)))
          else <["password_correct" := VBool false]> (session_state (entered u p w));
        heap := heap w; trace := trace w; screen := screen w |}).
Proof.
  intros Hu Hp. unfold deliver_credentials. rewrite callback_run.
  cbn [load_environment_config demo_username demo_password]. rewrite Hu, Hp.
  rewrite (password_entered_run xu xp u p)
    by (apply entered_username || apply entered_password).
  reflexivity.
Qed.

End LoggingIn.

(** X21. Once the gate is open, the runs that follow (without the login
    form being submitted again) leave what the script keeps of the login as
    it is: [password_correct] stays what it was, so the gate stays open, and
    a password deleted at login does not come back. *)
Theorem logged_in_runs_spare_the_login
    (env : Environment) (more : list Frontend) (w : World) :
  typed w = true -> gate_open w = true ->
  Forall (fun fe => credentials fe = None) more ->
  let w' := fold_left (fun w fe => script_run env fe w) more w in
  gate_open w' = true
  /\ session_state w' !! "password_correct" = session_state w !! "password_correct"
  /\ (session_state w !! "password" = None -> session_state w' !! "password" = None).
Proof.
  intros Ht Hg Hmore. cbv zeta.
  destruct (runs_kept env more w Ht Hg Hmore) as (Hk & Hg' & _).
  split; [exact Hg'|]. split.
  - apply Hk. cbn. intros Hin. repeat destruct Hin as [Hin|Hin]; try discriminate Hin.
    exact Hin.
  - intros Hp. rewrite <- Hp.
    apply Hk. cbn. intros Hin. repeat destruct Hin as [Hin|Hin]; try discriminate Hin.
    exact Hin.
Qed.

Lemma logged_in_runs_spare_the_login_witness :
  let w' := fold_left (fun w fe => script_run answering_env fe w)
                      [sample_question; page_load] selected_world in
  typed selected_world = true /\ gate_open selected_world = true
  /\ gate_open w' = true /\ session_state w' !! "password" = None.
Proof.
  cbv zeta.
  assert (typed selected_world = true) as Ht by (vm_compute; reflexivity).
  assert (gate_open selected_world = true) as Hg by (vm_compute; reflexivity).
  assert (Forall (fun fe => credentials fe = None) [sample_question; page_load]) as Hmore
    by (repeat constructor).
  destruct (logged_in_runs_spare_the_login answering_env
              [sample_question; page_load] selected_world Ht Hg Hmore) as (H1 & _ & H2).
  split; [exact Ht|]. split; [exact Hg|]. split; [exact H1|].
  apply H2. reflexivity.
Defined.

(** X22. A run in which the login form is submitted with a changed
    password and credentials whose digest matches opens the gate in that
    very run: when it is over, [password_correct] is true and the session
    state holds no password; and when the services are in place or their
    initialisation completes, services and chat history are in place
    afterwards. *)
Theorem correct_login_opens_the_gate
    (env : Environment) (fe : Frontend) (u p xu xp : string) (w : World) :
  typed w = true ->
  getenv env "DEMO_USERNAME" = Some xu -> getenv env "DEMO_PASSWORD" = Some xp ->
  credentials fe = Some (u, p) -> p <> password_field w ->
  digest_match u p xu xp = true ->
  let w' := script_run env fe w in
  gate_open w' = true
  /\ session_state w' !! "password_correct" = Some (VBool true)
  /\ session_state w' !! "password" = None
  /\ (initialises env w -> is_ready (session_state w')).
Proof.
  intros Ht Hu Hp Hc _ Hd. cbv zeta. unfold script_run. rewrite Hc.
  set (w1 := snd (deliver_credentials env u p w)).
  assert (typed w1 = true) as Ht1.
  { eapply steps_typed; [apply (deliver_credentials_steps (answering env)) | exact Ht]. }
  assert (session_state w1
          = delete "password"
              (<["password_correct" := VBool true]> (session_state (entered u p w))))
    as Hss.
  { subst w1. rewrite (deliver_credentials_run env u p xu xp w Hu Hp), Hd. reflexivity. }
  assert (heap w1 = heap w) as Hhp.
  { subst w1. rewrite (deliver_credentials_run env u p xu xp w Hu Hp). reflexivity. }
  assert (gate_open w1 = true) as Hg1.
  { unfold gate_open. rewrite Hss, lookup_delete_ne, lookup_insert_eq by discriminate.
    reflexivity. }
  pose proof (main_kept env fe w1 Ht1 Hg1) as Hk.
  split; [rewrite (kept_gate _ _ Hk); exact Hg1|].
  split; [|split].
  - rewrite (Hk "password_correct").
    + rewrite Hss, lookup_delete_ne by discriminate. apply lookup_insert_eq.
    + cbn. intros Hin. repeat destruct Hin as [Hin|Hin]; try discriminate Hin. exact Hin.
  - rewrite (Hk "password").
    + rewrite Hss. apply lookup_delete_eq.
    + cbn. intros Hin. repeat destruct Hin as [Hin|Hin]; try discriminate Hin. exact Hin.
  - intros Hi.
    assert (initialises env w1) as Hi1.
    { unfold initialises in *. rewrite Hhp, Hss.
      rewrite lookup_delete_ne, lookup_insert_ne by discriminate.
      unfold entered. cbn [session_state].
      rewrite !lookup_insert_ne by discriminate. exact Hi. }
    pose proof (main_behind_gate env fe w1 Ht1 Hg1 Hi1) as H. unfold main_post in H.
    destruct (listed_click fe) as [q|].
    + destruct H as (_ & H & _). exact H.
    + destruct (fst (main env fe w1)) as [[]|[| |err]]; [|destruct H|destruct H|].
      * destruct H as (H & _). exact H.
      * destruct H as (qs & _ & H & _). exact H.
Qed.

Lemma correct_login_opens_the_gate_witness :
  let w' := script_run answering_env sample_login empty_world in
  typed empty_world = true
  /\ "c" <> password_field empty_world
  /\ digest_match "ab" "c" "a" "bc" = true
  /\ gate_open w' = true
  /\ session_state w' !! "password" = None
  /\ is_ready (session_state w').
Proof.
  cbv zeta.
  assert (typed empty_world = true) as Ht by (vm_compute; reflexivity).
  assert ("c" <> password_field empty_world) as Hp by discriminate.
  assert (digest_match "ab" "c" "a" "bc" = true) as Hd by (vm_compute; reflexivity).
  destruct (correct_login_opens_the_gate answering_env sample_login "ab" "c" "a" "bc"
              empty_world Ht eq_refl eq_refl eq_refl Hp Hd) as (H1 & _ & H2 & H3).
  split; [exact Ht|]. split; [exact Hp|]. split; [exact Hd|]. split; [exact H1|].
  split; [exact H2|]. apply H3. right. reflexivity.
Defined.

(** X23. A run in which the login form is submitted with credentials whose
    digest does not match leaves the gate closed and does nothing else:
    [password_correct] is false, the run stops at the gate, nothing is
    constructed or asked, and the session state still holds what was
    entered, the password included. *)
Theorem wrong_login_keeps_the_gate_closed
    (env : Environment) (fe : Frontend) (u p xu xp : string) (w : World) :
  getenv env "DEMO_USERNAME" = Some xu -> getenv env "DEMO_PASSWORD" = Some xp ->
  credentials fe = Some (u, p) -> digest_match u p xu xp = false ->
  let w' := script_run env fe w in
  session_state w'
  = <["password_correct" := VBool false]>
      (<["password" := VStr p]> (<["username" := VStr u]> (session_state w)))
  /\ gate_open w' = false
  /\ heap w' = heap w /\ trace w' = trace w.
Proof.
  intros Hu Hp Hc Hd. cbv zeta. unfold script_run. rewrite Hc.
  rewrite (deliver_credentials_run env u p xu xp w Hu Hp), Hd. cbn [snd].
  edestruct (main_after_wrong_password env fe) as [sc ->];
    [cbn [session_state]; apply lookup_insert_eq|].
  cbn [snd session_state heap trace entered].
  split; [reflexivity|]. split; [|split; reflexivity].
  unfold gate_open. cbn [session_state]. rewrite lookup_insert_eq. reflexivity.
Qed.

Lemma wrong_login_keeps_the_gate_closed_witness :
  let fe := {| credentials := Some ("ab", "d"); clicked := None;
               chat_input := Some "hello"; top_k_slider := None;
               threshold_slider := None |} in
  let w' := script_run answering_env fe empty_world in
  digest_match "ab" "d" "a" "bc" = false
  /\ session_state w' !! "password" = Some (VStr "d")
  /\ gate_open w' = false /\ trace w' = [].
Proof.
  cbv zeta.
  assert (digest_match "ab" "d" "a" "bc" = false) as Hd by (vm_compute; reflexivity).
  match goal with |- _ /\ session_state (script_run _ ?fe _) !! _ = _ /\ _ =>
    destruct (wrong_login_keeps_the_gate_closed answering_env fe "ab" "d" "a" "bc"
                empty_world eq_refl eq_refl eq_refl Hd) as (H1 & H2 & _ & H3)
  end.
  split; [exact Hd|]. split; [rewrite H1; reflexivity|]. split; [exact H2 | exact H3].
Defined.

(** X24. What the gate shows.  On the first visit it shows the two login
    fields, whose keys then exist in the session state (empty unless
    something was entered before).  After a wrong attempt it shows the error
    and nothing else: the login fields are shown only while
    [password_correct] is absent, so the form is not offered a second
    time. *)
Theorem gate_shows_form_or_error (username password : option string) (w : World) :
  match session_state w !! "password_correct" with
  | None =>
      map kind (skipn (length (screen w))
                      (screen (snd (check_authentication username password w))))
      = ["text_input"; "text_input"]
      /\ is_Some (session_state (snd (check_authentication username password w))
                  !! "username")
      /\ is_Some (session_state (snd (check_authentication username password w))
                  !! "password")
  | Some (VBool false) =>
      check_authentication username password w =
        (Halt StopScript,
         {| session_state := session_state w; heap := heap w; trace := trace w;
            screen := (screen w ++ [{| kind := "error";
                                       body := "❌ Incorrect password" |}])%list |})
  | Some _ => True
  end.
Proof.
  destruct (session_state w !! "password_correct") as [[x|[]|x|x]|] eqn:E; try exact I.
  - apply check_authentication_wrong, E.
  - rewrite (check_authentication_first username password w E).
    cbn [snd screen session_state]. rewrite drop_app_length.
    split; [reflexivity|]. split.
    + rewrite lookup_insert_ne, lookup_insert_eq by discriminate. eauto.
    + rewrite lookup_insert_eq. eauto.
Qed.

(** ** Settings, services and the missing key over the runs of a session *)

Section Settings.

Lemma returns_bind {A B} (m : App A) (f : A -> App B) (Q : A -> Prop) (P : B -> Prop) :
  returns m Q -> (forall a, Q a -> returns (f a) P) -> returns (bind m f) P.
Proof.
  intros Hm Hf w b w'. unfold bind.
  destruct (m w) as [[a|c] w1] eqn:E; [|discriminate].
  intros H. eapply Hf; [eapply Hm; exact E | exact H].
Qed.

Lemma returns_any {A} (m : App A) : returns m (fun _ => True).
Proof. intros w a w' _. exact I. Qed.

Lemma returns_ret {A} (a : A) (P : A -> Prop) : P a -> returns (ret a) P.
Proof. intros H w b w' [= <- _]. exact H. Qed.

Lemma returns_slider {A} label (inside : A -> bool) (value : A) position :
  returns (slider label inside value position)
          (fun v => v = slider_value inside value position).
Proof.
  unfold slider. eapply returns_bind; [apply returns_any | intros _ _].
  apply returns_ret. reflexivity.
Qed.

(** Whenever the sidebar hands settings back, they are the positions of its
    two sliders. *)
Lemma setup_sidebar_returns fe :
  returns (setup_sidebar fe) (fun settings => settings = chosen fe).
Proof.
  unfold setup_sidebar.
  do 5 (eapply returns_bind; [apply returns_any | intros _ _]).
  eapply returns_bind; [apply returns_slider | intros top_k ->].
  eapply returns_bind; [apply returns_slider | intros threshold ->].
  apply returns_ret. reflexivity.
Qed.

(** The positions of the sliders lie within their bounds. *)
Lemma chosen_in_range fe : in_range (fst (chosen fe)) (snd (chosen fe)) = true.
Proof.
  unfold chosen, in_range. cbn [fst snd].
  set (k := slider_value _ 3 _). set (t := slider_value _ 0.32%float _).
  assert (Z.leb 1 k && Z.leb k 10 = true) as Hk.
  { subst k. unfold slider_value. destruct (top_k_slider fe) as [v|]; [|reflexivity].
    destruct (Z.leb 1 v && Z.leb v 10) eqn:E; [exact E | reflexivity]. }
  assert (PrimFloat.leb 0 t && PrimFloat.leb t 1 = true) as Ht.
  { subst t. unfold slider_value.
    destruct (threshold_slider fe) as [v|]; [|reflexivity].
    destruct (PrimFloat.leb 0 v && PrimFloat.leb v 1) eqn:E; [exact E | reflexivity]. }
  rewrite Hk. exact Ht.
Qed.

Lemma in_range_bounds k t :
  in_range k t = true ->
  1 <= k <= 10
  /\ PrimFloat.leb 0%float t = true
  /\ PrimFloat.leb t 1%float = true
  /\ valid_config (turn_config k t) = true.
Proof.
  unfold in_range, valid_config, turn_config. cbn [top_k similarity_threshold].
  intros H. apply andb_prop in H as [H H4]. apply andb_prop in H as [H H3].
  apply andb_prop in H as [H1 H2]. apply Z.leb_le in H1, H2. rewrite H3, H4.
  assert (Z.ltb 0 k = true) as -> by (apply Z.ltb_lt; lia).
  repeat split; auto; lia.
Qed.

Lemma constructions_In a o tr :
  In (a, o) (constructions tr) -> In (EvNew a o) tr.
Proof.
  induction tr as [|[f|a' o'|pt m|p q out|e] tr IH]; cbn [constructions];
    try (intros H; right; exact (IH H)).
  - intros [].
  - intros [[= -> ->]|H]; [left; reflexivity | right; exact (IH H)].
Qed.

End Settings.

Section RunsOfASession.
Variable env : Environment.

(** A closed gate shows the error when [password_correct] is there. *)
Lemma check_authentication_refuses username password v w :
  session_state w !! "password_correct" = Some v -> truthy_value v = false ->
  check_authentication username password w =
    (Halt StopScript,
     {| session_state := session_state w; heap := heap w; trace := trace w;
        screen := (screen w ++ [{| kind := "error"; body := "❌ Incorrect password" |}])%list |}).
Proof.
  intros H Hv. unfold check_authentication.
  erewrite bind_done;
    [|unfold contains; rewrite H, bool_decide_eq_true_2 by eauto; reflexivity].
  cbv beta iota.
  erewrite bind_done by (apply get_item_run, H).
  rewrite Hv. reflexivity.
Qed.

(** A run that stops at the gate shows the head of the page and the login
    form or the error, and nothing else. *)
Lemma main_closed_page fe w k :
  gate_open w = false ->
  shown k (snd (main env fe w)) ->
  shown k w \/ In k ["page_config"; "logo"; "title"; "text_input"; "error"].
Proof.
  intros Hg. unfold main.
  erewrite bind_done by apply setup_page_config_run.
  destruct (session_state w !! "password_correct") as [v|] eqn:E.
  - assert (truthy_value v = false) as Hv
      by (unfold gate_open in Hg; rewrite E in Hg; exact Hg).
    erewrite bind_halt by (apply check_authentication_refuses with (v := v); assumption).
    unfold shown. cbn [snd screen]. rewrite !map_app, !in_app_iff. cbn. tauto.
  - erewrite bind_halt by (apply check_authentication_first; exact E).
    unfold shown. cbn [snd screen]. rewrite !map_app, !in_app_iff. cbn. tauto.
Qed.

(** Delivering credentials constructs nothing, leaves no event, shows
    nothing, and writes the two login fields and [password_correct] only. *)
Lemma deliver_credentials_frame u p w :
  screen (snd (deliver_credentials env u p w)) = screen w
  /\ trace (snd (deliver_credentials env u p w)) = trace w
  /\ forall key, key <> "username" -> key <> "password" -> key <> "password_correct" ->
       session_state (snd (deliver_credentials env u p w)) !! key
       = session_state w !! key.
Proof.
  unfold deliver_credentials. cbv zeta. rewrite callback_run.
  pose proof (entered_username u p w) as Hu.
  pose proof (entered_password u p w) as Hp.
  destruct (demo_username (load_environment_config env)) as [xu|] eqn:Exu;
    [destruct (demo_password (load_environment_config env)) as [xp|] eqn:Exp|].
  - rewrite (password_entered_run xu xp u p _ Hu Hp).
    cbn [snd screen trace session_state entered].
    split; [reflexivity|]. split; [reflexivity|].
    intros key H1 H2 H3. destruct (digest_match u p xu xp).
    + rewrite lookup_delete_ne, !lookup_insert_ne by congruence. reflexivity.
    + rewrite !lookup_insert_ne by congruence. reflexivity.
  - rewrite (password_entered_unset _ _ u p _ Hu Hp) by auto.
    cbn [snd screen trace session_state entered].
    split; [reflexivity|]. split; [reflexivity|].
    intros key H1 H2 H3. rewrite !lookup_insert_ne by congruence. reflexivity.
  - rewrite (password_entered_unset _ _ u p _ Hu Hp) by auto.
    cbn [snd screen trace session_state entered].
    split; [reflexivity|]. split; [reflexivity|].
    intros key H1 H2 H3. rewrite !lookup_insert_ne by congruence. reflexivity.
Qed.

(** What one run of a well-typed session adds: every retrieval
    configuration it constructs carries the settings of its sidebar, and it
    leaves no selected question behind and shows no chat field without the
    services being there. *)
Lemma script_run_behind fe w :
  typed w = true ->
  Forall (configured fe) (added w (script_run env fe w))
  /\ (question_needs_services w -> question_needs_services (script_run env fe w)).
Proof.
  intros Ht. unfold script_run.
  set (w1 := match credentials fe with Some (u, p) => _ | None => w end).
  assert (typed w1 = true
          /\ trace w1 = trace w
          /\ (question_needs_services w -> question_needs_services w1))
    as (Ht1 & Htr & HJ).
  { subst w1. destruct (credentials fe) as [[u p]|]; [|auto].
    destruct (deliver_credentials_frame u p w) as (H1 & H2 & H3).
    split; [|split; [exact H2|]].
    - eapply steps_typed; [apply (deliver_credentials_steps (answering env)) | exact Ht].
    - unfold question_needs_services, shown.
      rewrite H1, !H3 by discriminate. auto. }
  unfold added. rewrite <- Htr. fold (added w1 (snd (main env fe w1))).
  assert (Forall (configured fe) (added w1 (snd (main env fe w1)))
          /\ (question_needs_services w1 ->
              question_needs_services (snd (main env fe w1)))) as [H1 H2];
    [|split; [exact H1 | intros H; apply H2, HJ, H]].
  clearbody w1. clear w Ht Htr HJ.
  destruct (gate_open w1) eqn:Hg.
  - destruct (initialises_or_not env w1) as [Hi | (Hs & e & He)].
    + pose proof (main_behind_gate env fe w1 Ht1 Hg Hi) as H. unfold main_post in H.
      assert (exists qs done,
                 is_ready (session_state (snd (main env fe w1)))
                 /\ progress fe w1 qs done (offscreen (snd (main env fe w1))))
        as (qs & done & Hready & (evs & Hevs & _ & _ & _ & Hcf)).
      { destruct (listed_click fe) as [q|].
        - destruct H as (_ & Hr & _ & Hp & _). eauto.
        - destruct (fst (main env fe w1)) as [[]|[| |err]]; [|destruct H|destruct H|].
          + destruct H as (Hr & _ & Hp & _). eauto.
          + destruct H as (qs & _ & Hr & _ & _ & before & q & _ & Hp & _). eauto. }
      cbn [offscreen trace] in Hevs. rewrite (added_since _ _ _ Hevs).
      split; [exact Hcf|]. intros _ _. destruct Hready as [[s Hs] _]. eauto.
    + rewrite (main_stalled_asks_nothing env fe w1 e Ht1 Hg Hs He).
      destruct (attempt_trace env (length (heap w1))) as (_ & _ & _ & _ & _ & _ & Hcf & _).
      split; [apply Hcf|]. intros HJ.
      rewrite (main_stalls env fe w1 e Ht1 Hg Hs He).
      unfold question_needs_services, shown, stalled in *. cbn [snd session_state screen].
      rewrite !lookup_insert_ne by discriminate.
      rewrite map_app, in_app_iff. intros [H|[H|H]]; [auto | auto |].
      cbn in H. repeat (destruct H as [H|H]; [discriminate H|]). destruct H.
  - rewrite (main_nothing_asked_when_closed env fe w1 Hg). split; [constructor|].
    intros HJ. unfold question_needs_services in *.
    pose proof (main_closed_page fe w1 "chat_input" Hg) as Hpage.
    destruct (main_closed env fe w1 Hg) as (w' & Hm & _ & _ & Hk).
    rewrite Hm in *. cbn [snd] in *.
    rewrite !Hk by discriminate. intros [H|H]; [auto|].
    destruct (Hpage H) as [H'|H']; [auto|].
    cbn in H'. repeat (destruct H' as [H'|H']; [discriminate H'|]). destruct H'.
Qed.

(** In a session there can be a question, selected or typed into the chat
    field, only when the services are in place: the sidebar and the chat
    field come after their initialisation. *)
Lemma questions_need_services runs : question_needs_services (session env runs).
Proof.
  induction runs as [|fe runs IH] using rev_ind.
  - unfold question_needs_services, shown. cbn. rewrite lookup_empty.
    intros [[? [=]]|[]].
  - rewrite session_snoc.
    apply (script_run_behind fe (session env runs)); [apply session_steps | exact IH].
Qed.

End RunsOfASession.

(** C9. Without an API key (absent or empty) no run of [main] enters
    [process_user_query] or the pipeline, and none appends to the chat
    history or changes it.  Behind the gate and with the services in place
    (or their initialisation completing) a run raises no error, and without
    a click on a suggestion it runs to its end and leaves no selected
    question in the session state: what was selected is deleted, what was
    typed is dropped.  The services are in place whenever there can be a
    question: in every session, a question is selected or the chat field
    has been shown only when [base_services] is there.  The one error a run
    without a key can end with is what a constructor of the services raised,
    in a run behind the gate that found no services. *)
Theorem no_key_no_query (env : Environment) (fe : Frontend) (w : World) :
  typed w = true ->
  truthy (getenv env "OPENAI_API_KEY") = false ->
  let r := main env fe w in
  calls "process_user_query" (trace (snd r)) = calls "process_user_query" (trace w)
  /\ pipeline_calls (trace (snd r)) = pipeline_calls (trace w)
  /\ appends (trace (snd r)) = appends (trace w)
  /\ history_of (snd r) = history_of w
  /\ (gate_open w = true -> initialises env w ->
      (forall e, fst r <> Halt (Exception e))
      /\ (listed_click fe = None ->
          fst r = Done tt
          /\ session_state (snd r) !! "selected_question" = None))
  /\ (forall e, fst r = Halt (Exception e) ->
        gate_open w = true
        /\ session_state w !! "base_services" = None
        /\ init_error env (length (heap w)) = Some e)
  /\ (forall runs,
        is_Some (session_state (session env runs) !! "selected_question")
        \/ shown "chat_input" (session env runs) ->
        is_Some (session_state (session env runs) !! "base_services")).
Proof.
  intros Ht Hkey. cbv zeta.
  assert (false = truthy (api_key (load_environment_config env))) as Hallow
    by (symmetry; exact Hkey).
  destruct (sound_main false env Hallow fe w Ht I) as [Hsteps _].
  assert (quiet w (snd (main env fe w))) as (H1 & H2 & H3 & H4).
  { apply (steps_invariant false env (quiet w) (step_quiet env w) w _ Hsteps).
    repeat split; reflexivity. }
  assert (asked env fe w = []) as Hasked by (unfold asked; rewrite Hkey; reflexivity).
  assert (forall err,
            ~ exists qs, qs `prefix_of` asked env fe w
                         /\ broken env fe w qs err (offscreen (snd (main env fe w))))
    as Hnone.
  { intros err (qs & Hpre & _ & _ & _ & before & q & -> & _).
    rewrite Hasked in Hpre. apply prefix_nil_inv in Hpre.
    destruct before; discriminate Hpre. }
  do 4 (split; [assumption|]). split; [|split].
  - intros Hg Hi.
    pose proof (main_behind_gate env fe w Ht Hg Hi) as H. unfold main_post in H.
    destruct (listed_click fe) as [q|].
    + destruct H as [-> _]. split; [discriminate|]. discriminate.
    + destruct (fst (main env fe w)) as [[]|[| |err]]; [|destruct H|destruct H|].
      * destruct H as (_ & Hsel & _).
        split; [discriminate|]. intros _. split; [reflexivity | exact Hsel].
      * destruct (Hnone err H).
  - intros e He. destruct (gate_open w) eqn:Hg.
    + destruct (initialises_or_not env w) as [Hi | (Hs & e' & He')].
      * pose proof (main_behind_gate env fe w Ht Hg Hi) as H. unfold main_post in H.
        rewrite He in H. destruct (listed_click fe) as [q|].
        -- destruct H as [H _]. discriminate H.
        -- destruct (Hnone e H).
      * rewrite (main_stalls env fe w e' Ht Hg Hs He') in He.
        injection He as <-. auto.
    + destruct (main_closed env fe w Hg) as (w' & Hm & _).
      rewrite Hm in He. discriminate He.
  - apply questions_need_services.
Qed.

Lemma no_key_no_query_witness :
  let r := main keyless_env sample_question selected_world in
  typed selected_world = true
  /\ truthy (getenv keyless_env "OPENAI_API_KEY") = false
  /\ chat_input sample_question = Some "hello"
  /\ session_state selected_world !! "selected_question" = Some (VStr "How do I audit it?")
  /\ fst r = Done tt
  /\ session_state (snd r) !! "selected_question" = None
  /\ calls "process_user_query" (trace (snd r)) = 0%nat
  /\ pipeline_calls (trace (snd r)) = []
  /\ history_of (snd r) = [].
Proof.
  cbv zeta.
  assert (typed selected_world = true) as Ht by (vm_compute; reflexivity).
  assert (truthy (getenv keyless_env "OPENAI_API_KEY") = false) as Hk by reflexivity.
  assert (gate_open selected_world = true) as Hg by (vm_compute; reflexivity).
  assert (initialises keyless_env selected_world) as Hi by (right; reflexivity).
  destruct (no_key_no_query keyless_env sample_question selected_world Ht Hk)
    as (Hc & Hp & _ & Hh & Hdone & _).
  destruct (Hdone Hg Hi) as [_ Hdone'].
  destruct (Hdone' eq_refl) as [Hd Hsel].
  split; [exact Ht|]. split; [exact Hk|]. split; [reflexivity|].
  split; [vm_compute; reflexivity|]. split; [exact Hd|]. split; [exact Hsel|].
  split; [exact Hc|]. split; [exact Hp | exact Hh].
Defined.

(** C4. Every [RetrievalConfig] a run of a session constructs carries the
    two values the sidebar of that run hands back, and these are the
    positions of its sliders: [top_k] a position between 1 and 10, 3 while
    the slider is untouched, and the threshold a position between 0.0 and
    1.0, 0.32 while the slider is untouched.  So every configuration
    constructed in a session lies within these bounds and satisfies the
    construction precondition. *)
Theorem configs_follow_the_sliders
    (env : Environment) (runs : list Frontend) (fe : Frontend) :
  let w := session env runs in
  let w' := script_run env fe w in
  let k := fst (chosen fe) in
  let t := snd (chosen fe) in
  (forall a cfg, In (EvNew a (RetrievalConfigObj cfg)) (added w w') ->
     cfg = {| top_k := k; similarity_threshold := t |})
  /\ (forall s settings s', setup_sidebar fe s = (Done settings, s') -> settings = (k, t))
  /\ (1 <= k <= 10
      /\ PrimFloat.leb 0%float t = true
      /\ PrimFloat.leb t 1%float = true
      /\ valid_config {| top_k := k; similarity_threshold := t |} = true)
  /\ (top_k_slider fe = None -> k = 3)
  /\ (threshold_slider fe = None -> t = 0.32%float)
  /\ (forall v, top_k_slider fe = Some v -> 1 <= v <= 10 -> k = v)
  /\ (forall v, threshold_slider fe = Some v ->
        PrimFloat.leb 0%float v = true -> PrimFloat.leb v 1%float = true -> t = v)
  /\ (forall a cfg, In (EvNew a (RetrievalConfigObj cfg)) (trace w') ->
        1 <= top_k cfg <= 10
        /\ PrimFloat.leb 0%float (similarity_threshold cfg) = true
        /\ PrimFloat.leb (similarity_threshold cfg) 1%float = true
        /\ valid_config cfg = true).
Proof.
  cbv zeta. split; [|split; [|split; [|split; [|split; [|split; [|split]]]]]].
  - intros a cfg Hin.
    destruct (session_steps env runs) as [_ Ht].
    destruct (script_run_behind env fe _ Ht) as [Hcf _].
    rewrite List.Forall_forall in Hcf. exact (Hcf _ Hin).
  - intros s settings s' H. rewrite (setup_sidebar_returns fe s settings s' H).
    destruct (chosen fe). reflexivity.
  - apply (in_range_bounds _ _ (chosen_in_range fe)).
  - intros H. unfold chosen, slider_value. rewrite H. reflexivity.
  - intros H. unfold chosen, slider_value. rewrite H. reflexivity.
  - intros v H [H1 H2]. unfold chosen, slider_value. rewrite H. cbn [fst].
    apply Z.leb_le in H1, H2. rewrite H1, H2. reflexivity.
  - intros v H H1 H2. unfold chosen, slider_value. rewrite H. cbn [snd].
    rewrite H1, H2. reflexivity.
  - intros a cfg Hin. rewrite <- session_snoc in Hin.
    destruct (session_steps env (runs ++ [fe])) as [Hsteps _].
    assert (Forall config_ok (trace (session env (runs ++ [fe])))) as Hall.
    { apply (steps_invariant _ env (fun w => Forall config_ok (trace w))
               (step_configs env _) _ _ Hsteps).
      constructor. }
    rewrite List.Forall_forall in Hall. specialize (Hall _ Hin). cbn in Hall.
    destruct cfg as [k t]. apply (in_range_bounds k t Hall).
Qed.

Lemma configs_follow_the_sliders_witness :
  let w := session answering_env [page_load; sample_login] in
  let moved := {| credentials := None; clicked := None; chat_input := Some "hello";
                  top_k_slider := Some 7; threshold_slider := Some 0.25%float |} in
  let typed_only := {| credentials := None; clicked := None; chat_input := Some "hello";
                       top_k_slider := None; threshold_slider := None |} in
  In (EvNew 8%nat (RetrievalConfigObj {| top_k := 7; similarity_threshold := 0.25 |}))
     (added w (script_run answering_env moved w))
  /\ In (EvNew 8%nat (RetrievalConfigObj {| top_k := 3; similarity_threshold := 0.32 |}))
        (added w (script_run answering_env typed_only w))
  /\ chosen moved = (7, 0.25%float)
  /\ chosen typed_only = (3, 0.32%float)
  /\ fst (setup_sidebar page_load empty_world) = Done (3, 0.32%float).
Proof.
  cbv zeta.
  set (moved := {| credentials := None; clicked := None; chat_input := Some "hello";
                   top_k_slider := Some 7; threshold_slider := Some 0.25%float |}).
  set (typed_only := {| credentials := None; clicked := None; chat_input := Some "hello";
                        top_k_slider := None; threshold_slider := None |}).
  destruct (configs_follow_the_sliders answering_env [page_load; sample_login] moved)
    as (Hcfg & _ & _ & _ & _ & Hk & Ht & _).
  destruct (configs_follow_the_sliders answering_env [page_load; sample_login] typed_only)
    as (Hcfg' & _ & _ & Hk' & Ht' & _).
  destruct (configs_follow_the_sliders answering_env [] page_load)
    as (_ & Hret & _ & Hk0 & Ht0 & _).
  assert (chosen moved = (7, 0.25%float)) as Hs.
  { rewrite (surjective_pairing (chosen moved)).
    rewrite (Hk 7 eq_refl ltac:(lia)).
    rewrite (Ht 0.25%float eq_refl eq_refl eq_refl). reflexivity. }
  assert (chosen typed_only = (3, 0.32%float)) as Hs'.
  { rewrite (surjective_pairing (chosen typed_only)).
    rewrite (Hk' eq_refl), (Ht' eq_refl). reflexivity. }
  assert (chosen page_load = (3, 0.32%float)) as Hp.
  { rewrite (surjective_pairing (chosen page_load)).
    rewrite (Hk0 eq_refl), (Ht0 eq_refl). reflexivity. }
  assert (exists cfg,
            In (EvNew 8%nat (RetrievalConfigObj cfg))
               (added (session answering_env [page_load; sample_login])
                      (script_run answering_env moved
                         (session answering_env [page_load; sample_login]))))
    as (cfg & Hin)
    by (eexists; vm_compute; do 2 right; left; reflexivity).
  assert (exists cfg,
            In (EvNew 8%nat (RetrievalConfigObj cfg))
               (added (session answering_env [page_load; sample_login])
                      (script_run answering_env typed_only
                         (session answering_env [page_load; sample_login]))))
    as (cfg' & Hin')
    by (eexists; vm_compute; do 2 right; left; reflexivity).
  pose proof (Hcfg _ _ Hin) as Hc. rewrite Hs in Hc. cbn [fst snd] in Hc.
  pose proof (Hcfg' _ _ Hin') as Hc'. rewrite Hs' in Hc'. cbn [fst snd] in Hc'.
  split; [rewrite <- Hc; exact Hin|]. split; [rewrite <- Hc'; exact Hin'|].
  split; [exact Hs|]. split; [exact Hs'|].
  destruct (setup_sidebar page_load empty_world) as [[settings|c] s'] eqn:E.
  - rewrite (Hret empty_world settings s' E), Hp. reflexivity.
  - vm_compute in E. discriminate E.
Defined.

(** C5 (as amended). [initialize_services] is entered only by runs that
    find no [base_services], and services are constructed by it only, the
    augmenter on the template 'rag_prompt.md'.  At most one initialisation
    of a session runs to its end: it stores its services as
    [base_services], and from then on no run enters [initialize_services]
    again or constructs another service; the services stay in the heap as
    constructed and every [QueryProcessor] is given them.  An
    initialisation in which a constructor raises stores nothing, so that the
    next run initialises again; when no constructor raises,
    [initialize_services] is entered at most once in a session and at most
    seven services are ever constructed. *)
Theorem services_initialised_once (env : Environment) (runs : list Frontend) :
  let w := session env runs in
  services_inv env w
  /\ (completions (trace w) <= 1)%nat
  /\ (completions (trace w) <= calls "initialize_services" (trace w))%nat
  /\ (length (service_constructions (trace w))
      <= 7 * calls "initialize_services" (trace w))%nat
  /\ ((forall o, constructor_error env o = None) ->
      (calls "initialize_services" (trace w) <= 1)%nat
      /\ (length (service_constructions (trace w)) <= 7)%nat)
  /\ (forall a template,
        In (a, PromptAugmenter template) (constructions (trace w)) ->
        template = "rag_prompt.md")
  /\ (forall fe v,
        session_state w !! "base_services" = Some v ->
        session_state (script_run env fe w) !! "base_services" = Some v
        /\ calls "initialize_services" (trace (script_run env fe w))
           = calls "initialize_services" (trace w)
        /\ service_constructions (trace (script_run env fe w))
           = service_constructions (trace w)).
Proof.
  cbv zeta.
  destruct (session_steps env runs) as [Hsteps Ht].
  assert (services_inv env (session env runs)) as HI.
  { apply (steps_invariant _ env (services_inv env) (step_services env _) _ _ Hsteps).
    apply services_inv_empty. }
  assert (attempts_inv env (session env runs)) as (HA1 & HA2 & HA3 & HA4).
  { apply (steps_invariant _ env (attempts_inv env) (step_attempts env _) _ _ Hsteps).
    apply attempts_inv_empty. }
  assert (completions (trace (session env runs)) <= 1)%nat as Hone.
  { unfold services_inv in HI.
    destruct (session_state (session env runs) !! "base_services").
    - destruct HI as (n & attempts & _ & -> & _). lia.
    - destruct HI as (-> & _). lia. }
  split; [exact HI|]. split; [exact Hone|]. split; [exact HA1|]. split; [exact HA2|].
  split; [|split].
  - intros Hall. specialize (HA4 Hall). lia.
  - intros a template Hin. apply constructions_In in Hin.
    rewrite List.Forall_forall in HA3. exact (HA3 _ Hin).
  - intros fe v Hv.
    pose proof (script_run_steps env fe _ Ht) as Hrun.
    apply (steps_invariant _ env
             (fun w => session_state w !! "base_services" = Some v
                       /\ calls "initialize_services" (trace w)
                          = calls "initialize_services" (trace (session env runs))
                       /\ service_constructions (trace w)
                          = service_constructions (trace (session env runs)))
             (fun w w' => step_services_stable env _ v _ _ w w') _ _ Hrun).
    auto.
Qed.

Lemma services_initialised_once_witness :
  let w := session answering_env sample_session in
  session_state w !! "base_services" = Some (VServices (init_services 0))
  /\ calls "initialize_services" (trace w) = 1%nat
  /\ (completions (trace w) <= 1)%nat
  /\ length (processors (trace w)) = 1%nat
  /\ session_state (script_run answering_env sample_question w) !! "base_services"
     = Some (VServices (init_services 0))
  /\ calls "initialize_services" (trace (script_run answering_env sample_question w))
     = 1%nat.
Proof.
  cbv zeta.
  assert (session_state (session answering_env sample_session) !! "base_services"
          = Some (VServices (init_services 0))) as Hs by (vm_compute; reflexivity).
  assert (calls "initialize_services" (trace (session answering_env sample_session))
          = 1%nat) as Hc by (vm_compute; reflexivity).
  destruct (services_initialised_once answering_env sample_session)
    as (_ & Hcompl & _ & _ & _ & _ & Hstable).
  destruct (Hstable sample_question _ Hs) as (H1 & H2 & _).
  split; [exact Hs|]. split; [exact Hc|]. split; [exact Hcompl|].
  split; [vm_compute; reflexivity|].
  split; [exact H1 | rewrite H2; exact Hc].
Defined.

(** The claim as the specification states it fails where a constructor
    raises: with a prompt template that cannot be loaded, the run after the
    login initialises and fails, and so does the run after it; the session
    and both clients and the three services before the augmenter are
    constructed twice, and no [base_services] is stored. *)
Lemma failed_initialisation_is_repeated :
  let w := session templateless_env [sample_login; page_load] in
  calls "initialize_services" (trace w) = 2%nat
  /\ length (service_constructions (trace w)) = 12%nat
  /\ map snd (List.filter (fun c => match snd c with
                                    | BotoSession _ => true
                                    | _ => false
                                    end) (constructions (trace w)))
     = [BotoSession "VECTOR_REGION"; BotoSession "VECTOR_REGION"]
  /\ session_state w !! "base_services" = None.
Proof. vm_compute. repeat split; reflexivity. Qed.

